(** * Teller banking integration: sync engine and balance reconstruction

    A shallow embedding of
      - [teller_integration/models.py]  (the record types),
      - [teller_integration/client.py]  (the page fetcher),
      - [scripts/sync.py]               (the incremental loader),
      - [scripts/balance_history.py]    (the backward replay),
    followed by the properties of the specification that are settled on it.

    Conventions of the embedding.
      - Money.  The store keeps amounts in [DECIMAL(15,2)] columns; an amount
        is the integer number of cents it denotes ([Z]).  The replay of
        [balance_history.py] is embedded twice.  [BalanceHistory] replays on
        cents, in exact decimal arithmetic: no subtraction rounds and
        [round(., 2)] is the identity.  [BalanceHistoryFloat] replays on the
        binary64 floats that the program computes with, each subtraction
        and each [round(., 2)] with its rounding.  The two differ where a
        float operation rounds away part of a cent
        ([large_ledger_series], [large_ledger_in_decimal]).
      - Dates.  A calendar date is its proleptic Gregorian day ordinal
        ([date.toordinal()], a [Z]); [timedelta(days=1)] is [1].  The ISO
        strings ["YYYY-MM-DD"] that the API delivers are held as the day they
        denote, so [strptime] is the identity and comparing two such strings
        is comparing the days.
      - Time.  A [datetime] is a number of microseconds ([Z]); one run reads
        the clock once.
      - Tables.  A table is the list of its rows; a query is a filter over
        it.  [ORDER BY] is not modelled: the statements on cents hold for
        every row order, and the float replay reads the rows of a day in
        the order of the list, which stands for the order in which the
        query returns them.
      - Python dictionaries whose iteration order reaches the output are
        insertion-ordered association lists; those that are only looked up
        are [gmap]s. *)

From Stdlib Require Import ZArith Lia.
From Stdlib Require PrimFloat FloatOps SpecFloat.
From stdpp Require Import base list option strings pretty gmap fin_maps.
From Equations Require Import Equations.

Local Open Scope Z_scope.

(** ** models.py *)

Inductive TransactionStatus := POSTED | PENDING.
Inductive AccountType := DEPOSITORY | CREDIT.
Inductive AccountStatus := OPEN | CLOSED.

#[global] Instance TransactionStatus_eq_dec : EqDecision TransactionStatus.
Proof. solve_decision. Defined.
#[global] Instance AccountStatus_eq_dec : EqDecision AccountStatus.
Proof. solve_decision. Defined.
#[global] Instance AccountType_eq_dec : EqDecision AccountType.
Proof. solve_decision. Defined.

Record Institution := {
  inst_id : string;
  inst_name : string }.

(** [Transaction]: the fields the two engines read.  [type], [details] and
    [links] are carried to the store untouched and are left out. *)
Record Transaction := {
  txn_id : string;
  txn_account_id : string;
  txn_amount : Z;
  txn_date : Z;
  txn_description : string;
  txn_status : TransactionStatus;
  txn_running_balance : option Z }.

Record AccountBalance := {
  bal_currency : string;
  bal_amount : Z }.

Record Account := {
  acct_id : string;
  acct_name : string;
  acct_type : AccountType;
  acct_status : AccountStatus;
  acct_institution : Institution;
  acct_balance : option AccountBalance }.

#[global] Instance Transaction_eq_dec : EqDecision Transaction.
Proof. solve_decision. Defined.

(** ** client.py *)

Module Client.

(** One element of the JSON array of a transactions response: a dictionary
    whose keys may be missing. *)
Record TransactionData := {
  td_id : option string;
  td_account_id : option string;
  td_amount : option Z;
  td_date : option Z;
  td_description : option string;
  td_status : option string;
  td_running_balance : option Z }.

(** [TransactionStatus(value)]: the enum accepts its two values only. *)
Definition parse_status (s : string) : option TransactionStatus :=
  if String.eqb s "posted" then Some POSTED
  else if String.eqb s "pending" then Some PENDING
  else None.

(** The constructor [Transaction] applied to the dictionary; [None] is pydantic's
    [ValidationError] (a required key is missing, or the status is not a
    member of the enum). *)
Definition validate (d : TransactionData) : option Transaction :=
  i ← td_id d;
  a ← td_account_id d;
  m ← td_amount d;
  dt ← td_date d;
  ds ← td_description d;
  s ← td_status d;
  st ← parse_status s;
  Some {| txn_id := i; txn_account_id := a; txn_amount := m; txn_date := dt;
          txn_description := ds; txn_status := st;
          txn_running_balance := td_running_balance d |}.

(** [transaction_data.get("status") == "pending"] *)
Definition is_pending (d : TransactionData) : bool :=
  match td_status d with
  | Some s => String.eqb s "pending"
  | None => false
  end.

(** [any(t.id == transaction.id for t in all_transactions)] *)
Definition already_have (all_transactions : list Transaction) (i : string) : bool :=
  existsb (fun t => String.eqb (txn_id t) i) all_transactions.

(** The request parameters and the answer of
    [GET /accounts/{id}/transactions].  [Failure] stands for every exception
    that [client.get] or [_handle_response] raises. *)
Record Params := {
  count : option nat;
  from_id : option string }.

Inductive Response :=
| Json (data : list TransactionData)
| Failure.

Definition Source := string → Params → Response.

(** Result of a call that may raise. *)
Inductive Exc (A : Type) :=
| Return (a : A)
| Raise.
Arguments Return {A} a.
Arguments Raise {A}.

Definition page_size : nat := 250.

(** The inner [for transaction_data in data] of [get_all_transactions]. *)
Fixpoint page_transactions (all_transactions : list Transaction)
    (data : list TransactionData) : list Transaction :=
  match data with
  | [] => []
  | transaction_data :: rest =>
      if is_pending transaction_data then page_transactions all_transactions rest
      else match validate transaction_data with
           | None => page_transactions all_transactions rest
           | Some transaction =>
               if already_have all_transactions (txn_id transaction)
               then page_transactions all_transactions rest
               else transaction :: page_transactions all_transactions rest
           end
  end.

(** [params] of one turn of the loop: the cursor is the id of the last
    transaction collected so far in this call. *)
Definition next_params (all_transactions : list Transaction) : Params :=
  {| count := Some page_size;
     from_id := txn_id <$> last all_transactions |}.

(** The [while True] of [get_all_transactions], one turn per unit of fuel;
    [None] only when the fuel runs out before a [break]. *)
Fixpoint fetch_loop (fuel : nat) (source : Source) (account_id : string)
    (all_transactions : list Transaction) : option (list Transaction) :=
  match fuel with
  | O => None
  | S fuel' =>
      match source account_id (next_params all_transactions) with
      | Failure => Some all_transactions
      | Json data =>
          match data with
          | [] => Some all_transactions
          | _ :: _ =>
              match page_transactions all_transactions data with
              | [] => Some all_transactions
              | page =>
                  let all_transactions' := all_transactions ++ page in
                  if (length data <? page_size)%nat then Some all_transactions'
                  else fetch_loop fuel' source account_id all_transactions'
              end
          end
      end
  end.

Definition get_all_transactions (fuel : nat) (source : Source)
    (account_id : string) : option (list Transaction) :=
  fetch_loop fuel source account_id [].

(** The [for transaction_data in data] of [get_transactions] (no overlap
    check there). *)
Fixpoint keep_posted (data : list TransactionData) : list Transaction :=
  match data with
  | [] => []
  | transaction_data :: rest =>
      if is_pending transaction_data then keep_posted rest
      else match validate transaction_data with
           | None => keep_posted rest
           | Some transaction => transaction :: keep_posted rest
           end
  end.

(** [get_transactions(account_id, count, latest)].  The outer [option] is the
    fuel of the paged branch. *)
Definition get_transactions (fuel : nat) (source : Source) (account_id : string)
    (cnt : option nat) (latest : bool) : option (Exc (list Transaction)) :=
  if latest then Return <$> get_all_transactions fuel source account_id
  else
    let params := {| count := match cnt with
                              | Some O => None
                              | c => c
                              end;
                     from_id := None |} in
    match source account_id params with
    | Failure => Some Raise
    | Json data => Some (Return (keep_posted data))
    end.

End Client.

(** ** The ledger store

    The four tables of [create_tables], with the columns the engines use. *)

Inductive RunStatus := running | completed | failed.
Inductive SyncType := full | incremental.

#[global] Instance RunStatus_eq_dec : EqDecision RunStatus.
Proof. solve_decision. Defined.
#[global] Instance SyncType_eq_dec : EqDecision SyncType.
Proof. solve_decision. Defined.

Record SyncRun := {
  run_id : nat;
  run_started_at : Z;
  run_completed_at : option Z;
  run_status : RunStatus;
  run_sync_type : SyncType;
  run_accounts_synced : nat;
  run_transactions_synced : nat;
  run_new_transactions : nat;
  run_updated_transactions : nat;
  run_error_message : option string }.

Record AccountRow := {
  row_id : string;
  row_institution_id : string;
  row_name : string;
  row_type : AccountType;
  row_status : AccountStatus;
  row_balance_amount : option Z;
  row_last_transaction_date : option Z;
  row_last_transaction_id : option string;
  row_last_synced_at : option Z }.

Record Store := {
  institutions : list Institution;
  accounts : list AccountRow;
  transactions : list Transaction;
  sync_runs : list SyncRun }.

Definition empty_store : Store :=
  {| institutions := []; accounts := []; transactions := []; sync_runs := [] |}.

(** [INSERT ... ON DUPLICATE KEY UPDATE] on a table with primary key [key]:
    the row with that key is rewritten by [update] where it stands, a new
    row [fresh] is added when there is none. *)
Fixpoint upsert {R : Type} (key : R → string) (k : string) (fresh : R)
    (update : R → R) (table : list R) : list R :=
  match table with
  | [] => [fresh]
  | r :: rest =>
      if String.eqb (key r) k then update r :: rest
      else r :: upsert key k fresh update rest
  end.

(** [UPDATE table SET ... WHERE id = k] *)
Definition update_where {R : Type} (hit : R → bool) (update : R → R)
    (table : list R) : list R :=
  map (fun r => if hit r then update r else r) table.

(** ** sync.py *)

Module Sync.
Import Client.

(** A [TIMESTAMP NULL] column in [ORDER BY ... DESC]: [NULL] sorts below
    every value. *)
Definition null_ltb (a b : option Z) : bool :=
  match a, b with
  | None, Some _ => true
  | Some x, Some y => x <? y
  | _, None => false
  end.

(** One step of the scan for the completed run with the greatest
    [completed_at]. *)
Definition later_run (best : option SyncRun) (r : SyncRun) : option SyncRun :=
  if decide (run_status r = completed) then
    match best with
    | None => Some r
    | Some b =>
        if null_ltb (run_completed_at b) (run_completed_at r)
        then Some r else Some b
    end
  else best.

(** [SELECT ... FROM sync_runs WHERE status = 'completed'
     ORDER BY completed_at DESC LIMIT 1] *)
Definition get_last_sync_info (s : Store) : option SyncRun :=
  foldl later_run None (sync_runs s).

Record SyncState := {
  last_transaction_date : option Z;
  last_transaction_id : option string;
  last_synced_at : option Z }.

Definition get_account_sync_state (s : Store) (account_id : string) : SyncState :=
  match find (fun r => String.eqb (row_id r) account_id) (accounts s) with
  | Some r => {| last_transaction_date := row_last_transaction_date r;
                 last_transaction_id := row_last_transaction_id r;
                 last_synced_at := row_last_synced_at r |}
  | None => {| last_transaction_date := None;
               last_transaction_id := None;
               last_synced_at := None |}
  end.

(** [start_sync_run]: the new row and its [lastrowid]. *)
Definition start_sync_run (now : Z) (sync_type : SyncType) (s : Store) : Store * nat :=
  let sync_run_id := S (length (sync_runs s)) in
  ({| institutions := institutions s; accounts := accounts s;
      transactions := transactions s;
      sync_runs := sync_runs s ++
        [{| run_id := sync_run_id; run_started_at := now;
            run_completed_at := None; run_status := running;
            run_sync_type := sync_type; run_accounts_synced := 0;
            run_transactions_synced := 0; run_new_transactions := 0;
            run_updated_transactions := 0; run_error_message := None |}] |},
   sync_run_id).

Record Stats := {
  accounts_synced : nat;
  total_transactions : nat;
  new_transactions : nat;
  updated_transactions : nat }.

Definition with_sync_runs (s : Store) (runs : list SyncRun) : Store :=
  {| institutions := institutions s; accounts := accounts s;
     transactions := transactions s; sync_runs := runs |}.

Definition with_accounts (s : Store) (rows : list AccountRow) : Store :=
  {| institutions := institutions s; accounts := rows;
     transactions := transactions s; sync_runs := sync_runs s |}.

Definition with_transactions (s : Store) (rows : list Transaction) : Store :=
  {| institutions := institutions s; accounts := accounts s;
     transactions := rows; sync_runs := sync_runs s |}.

Definition with_institutions (s : Store) (rows : list Institution) : Store :=
  {| institutions := rows; accounts := accounts s;
     transactions := transactions s; sync_runs := sync_runs s |}.

Definition complete_sync_run (now : Z) (sync_run_id : nat) (stats : Stats)
    (s : Store) : Store :=
  with_sync_runs s
    (update_where (fun r => Nat.eqb (run_id r) sync_run_id)
       (fun r => {| run_id := run_id r; run_started_at := run_started_at r;
                    run_completed_at := Some now; run_status := completed;
                    run_sync_type := run_sync_type r;
                    run_accounts_synced := accounts_synced stats;
                    run_transactions_synced := total_transactions stats;
                    run_new_transactions := new_transactions stats;
                    run_updated_transactions := updated_transactions stats;
                    run_error_message := run_error_message r |})
       (sync_runs s)).

(** The [UPDATE sync_runs SET status = 'failed'] of the [except] branch. *)
Definition fail_sync_run (sync_run_id : nat) (error : string) (s : Store) : Store :=
  with_sync_runs s
    (update_where (fun r => Nat.eqb (run_id r) sync_run_id)
       (fun r => {| run_id := run_id r; run_started_at := run_started_at r;
                    run_completed_at := run_completed_at r; run_status := failed;
                    run_sync_type := run_sync_type r;
                    run_accounts_synced := run_accounts_synced r;
                    run_transactions_synced := run_transactions_synced r;
                    run_new_transactions := run_new_transactions r;
                    run_updated_transactions := run_updated_transactions r;
                    run_error_message := Some error |})
       (sync_runs s)).

Definition set_cursor (now : Z) (latest_transaction : option Transaction)
    (r : AccountRow) : AccountRow :=
  {| row_id := row_id r; row_institution_id := row_institution_id r;
     row_name := row_name r; row_type := row_type r; row_status := row_status r;
     row_balance_amount := row_balance_amount r;
     row_last_transaction_date :=
       match latest_transaction with
       | Some t => Some (txn_date t)
       | None => row_last_transaction_date r
       end;
     row_last_transaction_id :=
       match latest_transaction with
       | Some t => Some (txn_id t)
       | None => row_last_transaction_id r
       end;
     row_last_synced_at := Some now |}.

Definition update_account_sync_state (now : Z) (account_id : string)
    (latest_transaction : option Transaction) (s : Store) : Store :=
  with_accounts s
    (update_where (fun r => String.eqb (row_id r) account_id)
       (set_cursor now latest_transaction) (accounts s)).

Definition load_institution (institution_id institution_name : string)
    (s : Store) : Store :=
  with_institutions s
    (upsert inst_id institution_id
       {| inst_id := institution_id; inst_name := institution_name |}
       (fun i => {| inst_id := inst_id i; inst_name := institution_name |})
       (institutions s)).

Definition load_account (account : Account) (s : Store) : Store :=
  let balance_amount := bal_amount <$> acct_balance account in
  let s := load_institution (inst_id (acct_institution account))
             (inst_name (acct_institution account)) s in
  with_accounts s
    (upsert row_id (acct_id account)
       {| row_id := acct_id account;
          row_institution_id := inst_id (acct_institution account);
          row_name := acct_name account; row_type := acct_type account;
          row_status := acct_status account;
          row_balance_amount := balance_amount;
          row_last_transaction_date := None;
          row_last_transaction_id := None;
          row_last_synced_at := None |}
       (fun r => {| row_id := row_id r;
                    row_institution_id := row_institution_id r;
                    row_name := acct_name account; row_type := row_type r;
                    row_status := acct_status account;
                    row_balance_amount := balance_amount;
                    row_last_transaction_date := row_last_transaction_date r;
                    row_last_transaction_id := row_last_transaction_id r;
                    row_last_synced_at := row_last_synced_at r |})
       (accounts s)).

Definition transaction_exists (s : Store) (transaction_id : string) : bool :=
  existsb (fun t => String.eqb (txn_id t) transaction_id) (transactions s).

Inductive Action := new | updated.

(** The columns that [ON DUPLICATE KEY UPDATE] rewrites in [load_transaction]. *)
Definition refresh_transaction (transaction old : Transaction) : Transaction :=
  {| txn_id := txn_id old; txn_account_id := txn_account_id old;
     txn_amount := txn_amount transaction; txn_date := txn_date old;
     txn_description := txn_description transaction;
     txn_status := txn_status transaction;
     txn_running_balance := txn_running_balance transaction |}.

Definition load_transaction (transaction : Transaction) (s : Store) : Store * Action :=
  let exists_ := transaction_exists s (txn_id transaction) in
  (with_transactions s
     (upsert txn_id (txn_id transaction) transaction
        (refresh_transaction transaction) (transactions s)),
   if exists_ then updated else new).

Definition microseconds_per_day : Z := 86400000000.

(** [(datetime.now() - completed_at).days]: a [timedelta] is normalised, its
    [days] is the floor of the difference in days. *)
Definition days_between (now completed_at : Z) : Z :=
  (now - completed_at) / microseconds_per_day.

(** [should_do_full_sync]; [Raise] is the [TypeError] of subtracting a
    [NULL] [completed_at]. *)
Definition should_do_full_sync (now : Z) (s : Store) : Exc bool :=
  match get_last_sync_info s with
  | None => Return true
  | Some last_sync =>
      match run_completed_at last_sync with
      | None => Raise
      | Some completed_at =>
          let days_since_sync := days_between now completed_at in
          if 7 <? days_since_sync then Return true else Return false
      end
  end.

(** The first statement of [sync_teller_data]:
    [force_full or self.should_do_full_sync()]. *)
Definition decide_sync_type (force_full : bool) (now : Z) (s : Store) : Exc SyncType :=
  if force_full then Return full
  else match should_do_full_sync now s with
       | Raise => Raise
       | Return true => Return full
       | Return false => Return incremental
       end.

(** The test of the [for transaction in all_transactions] loop of
    [get_new_transactions_for_account]. *)
Definition is_new (s : Store) (last_date : Z) (last_id : option string)
    (transaction : Transaction) : bool :=
  let transaction_date := txn_date transaction in
  if last_date <? transaction_date then true
  else if (transaction_date =? last_date)
          && negb (bool_decide (Some (txn_id transaction) = last_id))
          && negb (transaction_exists s (txn_id transaction))
  then true
  else false.

Definition get_new_transactions_for_account (fuel : nat) (source : Source)
    (s : Store) (account_id : string) : option (list Transaction) :=
  let sync_state := get_account_sync_state s account_id in
  all_transactions ← get_all_transactions fuel source account_id;
  match last_transaction_date sync_state with
  | None => Some all_transactions
  | Some last_date =>
      Some (filter (fun t => is_new s last_date (last_transaction_id sync_state) t)
              all_transactions)
  end.

(** State of the [for transaction in transactions] loop of
    [sync_teller_data]. *)
Record Tally := {
  tally_store : Store;
  account_new : nat;
  account_updated : nat;
  latest_transaction : option Transaction }.

Definition load_and_track (acc : Tally) (transaction : Transaction) : Tally :=
  let '(s, action) := load_transaction transaction (tally_store acc) in
  {| tally_store := s;
     account_new := match action with
                    | new => S (account_new acc)
                    | updated => account_new acc
                    end;
     account_updated := match action with
                        | new => account_updated acc
                        | updated => S (account_updated acc)
                        end;
     latest_transaction :=
       match latest_transaction acc with
       | None => Some transaction
       | Some l => if txn_date l <? txn_date transaction
                   then Some transaction else Some l
       end |}.

Definition load_transactions (s : Store) (transactions : list Transaction) : Tally :=
  foldl load_and_track
    {| tally_store := s; account_new := 0; account_updated := 0;
       latest_transaction := None |}
    transactions.

(** One turn of [for account in accounts] in [sync_teller_data], given the
    transactions selected for the account. *)
Definition store_account_transactions (now : Z) (account_id : string)
    (transactions : list Transaction) (st : Store * Stats) : Store * Stats :=
  let '(s, stats) := st in
  let tally := load_transactions s transactions in
  let s := match transactions with
           | [] => update_account_sync_state now account_id None (tally_store tally)
           | _ :: _ => update_account_sync_state now account_id
                         (latest_transaction tally) (tally_store tally)
           end in
  (s, {| accounts_synced := accounts_synced stats;
         total_transactions := (total_transactions stats + length transactions)%nat;
         new_transactions := (new_transactions stats + account_new tally)%nat;
         updated_transactions :=
           (updated_transactions stats + account_updated tally)%nat |}).

(** The [if sync_type == 'full'] at the head of the loop body;
    [client.get_transactions(account.id, latest=True)] is
    [get_all_transactions]. *)
Definition select_transactions (fuel : nat) (source : Source) (sync_type : SyncType)
    (s : Store) (account_id : string) : option (list Transaction) :=
  match sync_type with
  | full => get_all_transactions fuel source account_id
  | incremental => get_new_transactions_for_account fuel source s account_id
  end.

Fixpoint sync_accounts (fuel : nat) (now : Z) (source : Source)
    (sync_type : SyncType) (accounts : list Account) (st : Store * Stats)
    : option (Store * Stats) :=
  match accounts with
  | [] => Some st
  | account :: rest =>
      transactions ← select_transactions fuel source sync_type (fst st) (acct_id account);
      sync_accounts fuel now source sync_type rest
        (store_account_transactions now (acct_id account) transactions st)
  end.

(** The first loop, [for account in accounts: self.load_account(account)]. *)
Definition load_accounts (accounts : list Account) (st : Store * Stats) : Store * Stats :=
  foldl (fun '(s, stats) account =>
           (load_account account s,
            {| accounts_synced := S (accounts_synced stats);
               total_transactions := total_transactions stats;
               new_transactions := new_transactions stats;
               updated_transactions := updated_transactions stats |}))
        st accounts.

Definition zero_stats : Stats :=
  {| accounts_synced := 0; total_transactions := 0;
     new_transactions := 0; updated_transactions := 0 |}.

(** [sync_teller_data(force_full)].  [accounts] is what
    [client.get_accounts()] gave ([Raise] for a missing token, an
    authentication or a transport error).  The result is the store the run
    leaves and either the statistics it returns or the exception it
    re-raises; the outer [option] is the fuel of the page fetcher. *)
Definition sync_teller_data (fuel : nat) (now : Z) (source : Source)
    (accounts : Exc (list Account)) (force_full : bool) (s : Store)
    : option (Store * Exc Stats) :=
  match decide_sync_type force_full now s with
  | Raise => Some (s, Raise)
  | Return sync_type =>
      let '(s, sync_run_id) := start_sync_run now sync_type s in
      match accounts with
      | Raise => Some (fail_sync_run sync_run_id "error" s, Raise)
      | Return accounts =>
          let st := load_accounts accounts (s, zero_stats) in
          '(s, stats) ← sync_accounts fuel now source sync_type accounts st;
          Some (complete_sync_run now sync_run_id stats s, Return stats)
      end
  end.

End Sync.

(** ** balance_history.py, in decimal arithmetic *)

Module BalanceHistory.

Record AccountInfo := {
  name : string;
  type : AccountType;
  current_balance : Z;
  institution : string }.

(** [d[k] = v] on an insertion-ordered dictionary. *)
Fixpoint dict_set {V : Type} (k : string) (v : V) (d : list (string * V))
    : list (string * V) :=
  match d with
  | [] => [(k, v)]
  | (k', v') :: rest =>
      if String.eqb k' k then (k', v) :: rest
      else (k', v') :: dict_set k v rest
  end.

(** [FROM accounts a JOIN institutions i ON a.institution_id = i.id
     WHERE a.status = 'open'] *)
Definition open_accounts (s : Store) : list (AccountRow * Institution) :=
  a ← accounts s;
  i ← institutions s;
  if bool_decide (row_status a = OPEN) && String.eqb (row_institution_id a) (inst_id i)
  then [(a, i)] else [].

(** [float(row.balance_amount) if row.balance_amount else 0.0]: [NULL] and
    a zero amount are both falsy. *)
Definition balance_or_zero (balance_amount : option Z) : Z :=
  match balance_amount with
  | Some b => if b =? 0 then 0 else b
  | None => 0
  end.

Definition get_accounts_with_current_balance (s : Store)
    : list (string * AccountInfo) :=
  foldl (fun accounts '(row, i) =>
           dict_set (row_id row)
             {| name := row_name row; type := row_type row;
                current_balance := balance_or_zero (row_balance_amount row);
                institution := inst_name i |}
             accounts)
        [] (open_accounts s).

(** [FROM transactions WHERE status = 'posted'] *)
Definition posted_transactions (s : Store) : list Transaction :=
  filter (fun t => txn_status t = POSTED) (transactions s).

(** SQL [MIN] and [MAX]: [NULL] over no rows. *)
Definition sql_min (l : list Z) : option Z :=
  match l with
  | [] => None
  | x :: rest => Some (foldl Z.min x rest)
  end.

Definition sql_max (l : list Z) : option Z :=
  match l with
  | [] => None
  | x :: rest => Some (foldl Z.max x rest)
  end.

Definition get_date_range (s : Store) : option Z * option Z :=
  let dates := txn_date <$> posted_transactions s in
  (sql_min dates, sql_max dates).

(** The dictionary appended per row in
    [get_transactions_by_account_and_date]. *)
Record Entry := {
  amount : Z;
  description : string;
  running_balance : option Z;
  id : string }.

Definition entry_of (row : Transaction) : Entry :=
  {| amount := txn_amount row; description := txn_description row;
     running_balance := match txn_running_balance row with
                        | Some b => if b =? 0 then None else Some b
                        | None => None
                        end;
     id := txn_id row |}.

Definition add_row (transactions_by_account : gmap string (gmap Z (list Entry)))
    (row : Transaction) : gmap string (gmap Z (list Entry)) :=
  let account_id := txn_account_id row in
  let transaction_date := txn_date row in
  let by_date := default ∅ (transactions_by_account !! account_id) in
  let entries := default [] (by_date !! transaction_date) in
  <[account_id := <[transaction_date := entries ++ [entry_of row]]> by_date]>
    transactions_by_account.

Definition get_transactions_by_account_and_date (s : Store)
    : gmap string (gmap Z (list Entry)) :=
  foldl add_row ∅ (posted_transactions s).

(** One element of [daily_balances]. *)
Record DailyBalance := {
  date : Z;
  account_id : string;
  account_name : string;
  account_type : AccountType;
  institution_name : string;
  end_of_day_balance : Z;
  transaction_count : nat;
  daily_change : Z }.

(** [sum(t['amount'] for t in transactions_today)] *)
Definition sum_amounts (l : list Entry) : Z :=
  foldr (fun t acc => amount t + acc) 0 l.

(** [transactions_by_account[account_id][current_date]] when both keys are
    there, the initial [[]] otherwise. *)
Definition transactions_on (transactions_by_account : gmap string (gmap Z (list Entry)))
    (account_id : string) (current_date : Z) : list Entry :=
  match transactions_by_account !! account_id with
  | Some by_date => default [] (by_date !! current_date)
  | None => []
  end.

(** The replay state: the mutable [account_balances] and the growing
    [daily_balances]. *)
Definition Replay : Type := gmap string Z * list DailyBalance.

(** Body of [for account_id, account_info in accounts.items()].
    [account_balances] is read with default [0]; the key is always there
    (see [visit_day_dom]). *)
Definition visit_account (transactions_by_account : gmap string (gmap Z (list Entry)))
    (current_date : Z) (st : Replay) (item : string * AccountInfo) : Replay :=
  let '(account_balances, daily_balances) := st in
  let '(account_id, account_info) := item in
  let end_of_day_balance := default 0 (account_balances !! account_id) in
  let transactions_today :=
    transactions_on transactions_by_account account_id current_date in
  let account_balances :=
    foldl (fun balances transaction =>
             <[account_id := default 0 (balances !! account_id) - amount transaction]>
               balances)
          account_balances transactions_today in
  (account_balances,
   daily_balances ++
     [{| date := current_date; account_id := account_id;
         account_name := name account_info;
         account_type := type account_info;
         institution_name := institution account_info;
         end_of_day_balance := end_of_day_balance;
         transaction_count := length transactions_today;
         daily_change := match transactions_today with
                         | [] => 0
                         | _ :: _ => sum_amounts transactions_today
                         end |}]).

Definition visit_day (accounts : list (string * AccountInfo))
    (transactions_by_account : gmap string (gmap Z (list Entry)))
    (current_date : Z) (st : Replay) : Replay :=
  foldl (visit_account transactions_by_account current_date) st accounts.

(** [while current_date >= earliest_date: ...; current_date -= timedelta(days=1)] *)
Equations? replay (accounts : list (string * AccountInfo))
    (transactions_by_account : gmap string (gmap Z (list Entry)))
    (earliest_date current_date : Z) (st : Replay) : Replay
    by wf (Z.to_nat (current_date - earliest_date + 1)) lt :=
  replay accounts transactions_by_account earliest_date current_date st
    with decide (earliest_date <= current_date) => {
    | left _ =>
        replay accounts transactions_by_account earliest_date (current_date - 1)
          (visit_day accounts transactions_by_account current_date st)
    | right _ => st }.
Proof. lia. Qed.

(** [reconstruct_daily_balances]; [Raise] is the [TypeError] of comparing
    the [None] dates of a store without posted transactions. *)
Definition reconstruct_daily_balances (s : Store) : Client.Exc (list DailyBalance) :=
  let accounts := get_accounts_with_current_balance s in
  let '(earliest_date, latest_date) := get_date_range s in
  let transactions_by_account := get_transactions_by_account_and_date s in
  let account_balances :=
    foldl (fun balances '(account_id, account_info) =>
             <[account_id := current_balance account_info]> balances)
          (∅ : gmap string Z) accounts in
  match earliest_date, latest_date with
  | Some earliest_date, Some latest_date =>
      Client.Return
        (snd (replay accounts transactions_by_account earliest_date latest_date
                (account_balances, [])))
  | _, _ => Client.Raise
  end.

End BalanceHistory.

(** ** Vocabulary of the statements *)

Module Spec.
Import Client.

Definition posted (t : Transaction) : Prop := txn_status t = POSTED.

(** What the fetch loop has accumulated: no id twice, every id one of
    [universe]. *)
Definition collected (universe : list string)
    (all_transactions : list Transaction) : Prop :=
  NoDup (txn_id <$> all_transactions) ∧
  ∀ t, t ∈ all_transactions → txn_id t ∈ universe.

(** A row that the inner loop of [get_all_transactions] drops: it is
    pending, or it is a transaction whose id is already collected. *)
Definition filtered_out (all_transactions : list Transaction)
    (d : TransactionData) : Prop :=
  is_pending d = true ∨
  ∃ t, validate d = Some t ∧ txn_id t ∈ txn_id <$> all_transactions.

#[global] Instance filtered_out_dec all_transactions d :
  Decision (filtered_out all_transactions d).
Proof.
  unfold filtered_out.
  destruct (is_pending d); [left; by left |].
  destruct (validate d) as [t|].
  - destruct (decide (txn_id t ∈ txn_id <$> all_transactions)).
    + left. right. eauto.
    + right. intros [?|(t' & [= <-] & ?)]; done.
  - right. intros [?|(t' & ? & ?)]; done.
Defined.

(** The stores that sync runs produce, starting from the empty store. *)
Inductive reachable : Store → Prop :=
| reachable_empty : reachable empty_store
| reachable_sync fuel now source accounts force_full s s' result :
    reachable s →
    Sync.sync_teller_data fuel now source accounts force_full s = Some (s', result) →
    reachable s'.

(** The transactions an incremental pass keeps, in the words of the
    specification: dated strictly after the cursor date, or dated on the
    cursor date with an id that is neither the cursor's nor in the store. *)
Definition kept_by_cursor (s : Store) (cursor_date : Z)
    (cursor_id : option string) (t : Transaction) : Prop :=
  cursor_date < txn_date t ∨
  (txn_date t = cursor_date ∧ Some (txn_id t) ≠ cursor_id ∧
   txn_id t ∉ txn_id <$> transactions s).

#[global] Instance kept_by_cursor_dec s cursor_date cursor_id t :
  Decision (kept_by_cursor s cursor_date cursor_id t).
Proof. unfold kept_by_cursor. apply _. Defined.

(** [r] is a completed run of the store and no completed run was completed
    later. *)
Definition most_recent_completed (s : Store) (r : SyncRun) : Prop :=
  r ∈ sync_runs s ∧ run_status r = completed ∧
  ∀ r', r' ∈ sync_runs s → run_status r' = completed →
        Sync.null_ltb (run_completed_at r) (run_completed_at r') = false.

(** The stored [last_transaction_date] of an account, [None] for [NULL]
    and for an account that has no row. *)
Definition cursor_date (s : Store) (account_id : string) : option Z :=
  Sync.last_transaction_date (Sync.get_account_sync_state s account_id).

(** Order on cursor dates; [NULL] is below every date. *)
Definition cursor_le (before after : option Z) : Prop :=
  match before, after with
  | None, _ => True
  | Some x, Some y => x ≤ y
  | Some _, None => False
  end.

(** What a full pass needs from the source to keep the cursors where they
    are or move them forward: a non-empty fetch of an account still has a
    transaction dated on or after the account's cursor date. *)
Definition still_served (fuel : nat) (source : Source) (s : Store) : Prop :=
  ∀ account_id fetched d,
    get_all_transactions fuel source account_id = Some fetched →
    fetched ≠ [] →
    cursor_date s account_id = Some d →
    ∃ t, t ∈ fetched ∧ d ≤ txn_date t.

(** *** Balance reconstruction *)

Import BalanceHistory.

(** The signed sum of the amounts of an account's posted transactions on
    day [d] (zero when there is none). *)
Definition daily_net_change (s : Store) (account_id : string) (d : Z) : Z :=
  foldr Z.add 0
    (txn_amount <$>
       filter (fun t => txn_account_id t = account_id ∧ txn_date t = d)
              (posted_transactions s)).

(** The same sum read off the grouped dictionary. *)
Definition net (transactions_by_account : gmap string (gmap Z (list Entry)))
    (account_id : string) (d : Z) : Z :=
  sum_amounts (transactions_on transactions_by_account account_id d).

(** [net] summed over the [n] days [c], [c - 1], ..., [c - n + 1]. *)
Fixpoint net_down (transactions_by_account : gmap string (gmap Z (list Entry)))
    (account_id : string) (n : nat) (c : Z) : Z :=
  match n with
  | O => 0
  | S n' => net transactions_by_account account_id c
            + net_down transactions_by_account account_id n' (c - 1)
  end.

(** [net] summed over the days after [d] up to [latest]. *)
Definition net_after (transactions_by_account : gmap string (gmap Z (list Entry)))
    (account_id : string) (d latest : Z) : Z :=
  net_down transactions_by_account account_id (Z.to_nat (latest - d)) latest.

(** [account_balances[account_id]], read as the replay reads it. *)
Definition balance_of (account_balances : gmap string Z) (account_id : string) : Z :=
  default 0 (account_balances !! account_id).

(** The record of an account on day [d] of a replay that starts on day
    [latest] with the balances [account_balances]. *)
Definition record_at (transactions_by_account : gmap string (gmap Z (list Entry)))
    (account_balances : gmap string Z) (latest d : Z)
    (item : string * AccountInfo) : DailyBalance :=
  {| date := d; account_id := item.1;
     account_name := name item.2;
     account_type := type item.2;
     institution_name := institution item.2;
     end_of_day_balance :=
       balance_of account_balances item.1
       - net_after transactions_by_account item.1 d latest;
     transaction_count :=
       length (transactions_on transactions_by_account item.1 d);
     daily_change := net transactions_by_account item.1 d |}.

(** The [n] days [c], [c - 1], ..., [c - n + 1]. *)
Fixpoint days_down (n : nat) (c : Z) : list Z :=
  match n with
  | O => []
  | S n' => c :: days_down n' (c - 1)
  end.

(** The [account_balances] that [reconstruct_daily_balances] starts from. *)
Definition initial_balances (accounts : list (string * AccountInfo))
    : gmap string Z :=
  foldl (fun balances '(account_id, account_info) =>
           <[account_id := current_balance account_info]> balances)
        ∅ accounts.

(** The series of a store whose posted transactions span the days
    [earliest] to [latest]: day by day from [latest] down, and on each day
    one record per entry of the accounts dictionary, in its order. *)
Definition series (s : Store) (earliest latest : Z) : list DailyBalance :=
  let accounts := get_accounts_with_current_balance s in
  days_down (Z.to_nat (latest - earliest + 1)) latest ≫= fun d =>
    record_at (get_transactions_by_account_and_date s)
      (initial_balances accounts) latest d <$> accounts.

End Spec.
Export Spec.

(** ** Sources, stores and dates used in the statements *)

Module Scenario.
Import Client.

(** [date(year, month, day).toordinal()] of Python's [datetime]: day 1 is
    0001-01-01 of the proleptic Gregorian calendar. *)
Definition is_leap (year : Z) : bool :=
  (year mod 4 =? 0) && (negb (year mod 100 =? 0) || (year mod 400 =? 0)).

Definition days_before_year (year : Z) : Z :=
  let y := year - 1 in
  y * 365 + y / 4 - y / 100 + y / 400.

Definition days_before_month (year month : Z) : Z :=
  nth (Z.to_nat (month - 1))
      [0; 31; 59; 90; 120; 151; 181; 212; 243; 273; 304; 334] 0
  + (if (2 <? month) && is_leap year then 1 else 0).

Definition toordinal (year month day : Z) : Z :=
  days_before_year year + days_before_month year month + day.

(** The days of January 2024; 2024-01-01 is day 738886. *)
Definition january_2024 (day : Z) : Z := toordinal 2024 1 day.

(** The part of a ledger that starts at the row with id [c]. *)
Fixpoint from_row (c : string) (ledger : list TransactionData)
    : list TransactionData :=
  match ledger with
  | [] => []
  | d :: rest =>
      if bool_decide (td_id d = Some c) then d :: rest else from_row c rest
  end.

(** A source that serves one ledger, most recent row first, in pages of
    [count] rows, and whose page for the cursor [from_id] starts at the row
    of that cursor itself: the last row of a page comes back as the first
    row of the next. *)
Definition overlapping_source (ledger : list TransactionData) : Source :=
  fun _ params =>
    let rows := match from_id params with
                | None => ledger
                | Some c => from_row c ledger
                end in
    Json (match count params with
          | Some n => take n rows
          | None => rows
          end).

Definition row (status : string) (n : nat) : TransactionData :=
  {| td_id := Some ("txn_" +:+ pretty n);
     td_account_id := Some "acc_1";
     td_amount := Some (-100);
     td_date := Some (january_2024 31 - Z.of_nat n);
     td_description := Some "card payment";
     td_status := Some status;
     td_running_balance := None |}.

(** 500 posted transactions, most recent first. *)
Definition ledger_500 : list TransactionData := row "posted" <$> seq 0 500.

(** 250 posted transactions, then 249 pending ones, then 10 posted ones:
    the second page of the overlapping source is the repeated last row of
    the first and the 249 pending rows. *)
Definition ledger_with_pending_run : list TransactionData :=
  (row "posted" <$> seq 0 250) ++ (row "pending" <$> seq 250 249)
    ++ (row "posted" <$> seq 499 10).

Definition bank : Institution := {| inst_id := "ins_1"; inst_name := "Bank" |}.

Definition checking (balance : Z) : Account :=
  {| acct_id := "acc_1"; acct_name := "Checking"; acct_type := DEPOSITORY;
     acct_status := OPEN; acct_institution := bank;
     acct_balance := Some {| bal_currency := "USD"; bal_amount := balance |} |}.

(** A first run, on the empty store, against a ledger of one pending and
    two posted transactions. *)
Definition first_ledger : list TransactionData :=
  [row "pending" 0; row "posted" 1; row "posted" 2].

Definition first_run : option (Store * Exc Sync.Stats) :=
  Sync.sync_teller_data 5 1000 (overlapping_source first_ledger)
    (Return [checking 100000]) false empty_store.

Definition store_after (run : option (Store * Exc Sync.Stats)) : Store :=
  match run with
  | Some (s, _) => s
  | None => empty_store
  end.

Definition posted_on (i : string) (day amount : Z) : Transaction :=
  {| txn_id := i; txn_account_id := "acc_1"; txn_amount := amount;
     txn_date := day; txn_description := "card payment";
     txn_status := POSTED; txn_running_balance := None |}.

Definition data_of (t : Transaction) : TransactionData :=
  {| td_id := Some (txn_id t); td_account_id := Some (txn_account_id t);
     td_amount := Some (txn_amount t); td_date := Some (txn_date t);
     td_description := Some (txn_description t);
     td_status := Some "posted";
     td_running_balance := txn_running_balance t |}.

Definition checking_row (balance : option Z) (cursor : option (Z * string))
    : AccountRow :=
  {| row_id := "acc_1"; row_institution_id := "ins_1"; row_name := "Checking";
     row_type := DEPOSITORY; row_status := OPEN;
     row_balance_amount := balance;
     row_last_transaction_date := fst <$> cursor;
     row_last_transaction_id := snd <$> cursor;
     row_last_synced_at := None |}.

Definition completed_run (at_ : Z) : SyncRun :=
  {| run_id := 1; run_started_at := at_; run_completed_at := Some at_;
     run_status := completed; run_sync_type := full;
     run_accounts_synced := 1; run_transactions_synced := 1;
     run_new_transactions := 1; run_updated_transactions := 0;
     run_error_message := None |}.

Definition day : Z := Sync.microseconds_per_day.

(** The scenario of the incremental filter: cursor (2024-01-05, txn_9),
    txn_9 in the store, and a fetch of txn_9 and txn_10 of 2024-01-05 and
    txn_11 of 2024-01-06. *)
Definition txn_9 : Transaction := posted_on "txn_9" (january_2024 5) (-1200).
Definition txn_10 : Transaction := posted_on "txn_10" (january_2024 5) (-3400).
Definition txn_11 : Transaction := posted_on "txn_11" (january_2024 6) 5600.

Definition cursor_store : Store :=
  {| institutions := [bank];
     accounts := [checking_row (Some 100000) (Some (january_2024 5, "txn_9"))];
     transactions := [txn_9];
     sync_runs := [completed_run 0] |}.

Definition cursor_fetch : Source :=
  overlapping_source (data_of <$> [txn_9; txn_10; txn_11]).


(** Two full runs in a row: the first fetches txn_11 (2024-01-06) and txn_10
    (2024-01-05); before the second, forced, the source has withdrawn
    txn_11. *)
Definition run_1 : option (Store * Exc Sync.Stats) :=
  Sync.sync_teller_data 5 (1 * day)
    (overlapping_source (data_of <$> [txn_11; txn_10]))
    (Return [checking 100000]) false empty_store.

Definition run_2 : option (Store * Exc Sync.Stats) :=
  Sync.sync_teller_data 5 (2 * day)
    (overlapping_source (data_of <$> [txn_10]))
    (Return [checking 100000]) true (store_after run_1).

(** The incremental run of the filter scenario. *)
Definition incremental_run : option (Store * Exc Sync.Stats) :=
  Sync.sync_teller_data 5 (2 * day) cursor_fetch (Return [checking 100000])
    false cursor_store.

(** The scenario of the reconstruction: one account with balance 1000.00,
    -50.00 on 2024-01-03 and +200.00 on 2024-01-05. *)
Definition replay_store : Store :=
  {| institutions := [bank];
     accounts := [checking_row (Some 100000) None];
     transactions := [posted_on "txn_a" (january_2024 3) (-5000);
                      posted_on "txn_b" (january_2024 5) 20000];
     sync_runs := [] |}.

Definition checking_on (d balance : Z) (transaction_count : nat) (change : Z)
    : BalanceHistory.DailyBalance :=
  {| BalanceHistory.date := d;
     BalanceHistory.account_id := "acc_1";
     BalanceHistory.account_name := "Checking";
     BalanceHistory.account_type := DEPOSITORY;
     BalanceHistory.institution_name := "Bank";
     BalanceHistory.end_of_day_balance := balance;
     BalanceHistory.transaction_count := transaction_count;
     BalanceHistory.daily_change := change |}.

Definition savings_row (balance : option Z) : AccountRow :=
  {| row_id := "acc_2"; row_institution_id := "ins_1"; row_name := "Savings";
     row_type := DEPOSITORY; row_status := OPEN;
     row_balance_amount := balance;
     row_last_transaction_date := None;
     row_last_transaction_id := None;
     row_last_synced_at := None |}.

(** The same transactions on a checking account whose balance is [NULL],
    next to a savings account without transactions. *)
Definition unanchored_store : Store :=
  {| institutions := [bank];
     accounts := [checking_row None None; savings_row (Some 50000)];
     transactions := transactions replay_store;
     sync_runs := [] |}.

End Scenario.

(** ** client.py: accounts *)

Module ClientAccounts.
Import Client.

(** One element of the JSON array of [GET /accounts].  [ad_other_keys]
    tells whether the required keys that the engines do not read
    ([currency], [subtype], [last_four], [enrollment_id], [links]) are
    there; [ad_institution] is the nested dictionary when it validates. *)
Record AccountData := {
  ad_id : option string;
  ad_name : option string;
  ad_type : option string;
  ad_status : option string;
  ad_institution : option Institution;
  ad_other_keys : bool }.

Inductive AccountsResponse :=
| AccountsJson (data : list AccountData)
| AccountsFailure.

Definition parse_account_type (s : string) : option AccountType :=
  if String.eqb s "depository" then Some DEPOSITORY
  else if String.eqb s "credit" then Some CREDIT
  else None.

Definition parse_account_status (s : string) : option AccountStatus :=
  if String.eqb s "open" then Some OPEN
  else if String.eqb s "closed" then Some CLOSED
  else None.

(** The constructor [Account] applied to the dictionary after
    [account_data["balance"] = balance.dict()]; [None] is pydantic's
    [ValidationError]. *)
Definition validate_account (d : AccountData) (balance : AccountBalance)
    : option Account :=
  i ← ad_id d;
  n ← ad_name d;
  t ← ad_type d ≫= parse_account_type;
  st ← ad_status d ≫= parse_account_status;
  inst ← ad_institution d;
  if ad_other_keys d
  then Some {| acct_id := i; acct_name := n; acct_type := t;
               acct_status := st; acct_institution := inst;
               acct_balance := Some balance |}
  else None.

(** The [for transaction in transactions] of [get_account_balance]: the
    running balance of the first transaction that has one. *)
Fixpoint first_running_balance (transactions : list Transaction) : option Z :=
  match transactions with
  | [] => None
  | transaction :: rest =>
      match txn_running_balance transaction with
      | Some b => Some b
      | None => first_running_balance rest
      end
  end.

(** [get_account_balance(account_id)]: it asks for 20 transactions and
    lets the exceptions of the request through. *)
Definition get_account_balance (fuel : nat) (source : Source)
    (account_id : string) : option (Exc AccountBalance) :=
  r ← get_transactions fuel source account_id (Some 20%nat) false;
  match r with
  | Raise => Some Raise
  | Return transactions =>
      Some (Return {| bal_currency := "USD";
                      bal_amount :=
                        default 0 (first_running_balance transactions) |})
  end.

(** One turn of [for account_data in data] in [get_accounts]: [None] when
    the turn ends in [continue] (no ["id"] key, a failed balance request, a
    validation error). *)
Definition account_of (fuel : nat) (source : Source) (d : AccountData)
    : option (option Account) :=
  match ad_id d with
  | None => Some None
  | Some i =>
      r ← get_account_balance fuel source i;
      match r with
      | Raise => Some None
      | Return balance => Some (validate_account d balance)
      end
  end.

Fixpoint accounts_of (fuel : nat) (source : Source) (data : list AccountData)
    : option (list Account) :=
  match data with
  | [] => Some []
  | account_data :: rest =>
      a ← account_of fuel source account_data;
      l ← accounts_of fuel source rest;
      Some (match a with
            | Some account => account :: l
            | None => l
            end)
  end.

(** [get_accounts()]; the failure of the request itself is raised. *)
Definition get_accounts (fuel : nat) (source : Source)
    (response : AccountsResponse) : option (Exc (list Account)) :=
  match response with
  | AccountsFailure => Some Raise
  | AccountsJson data => Return <$> accounts_of fuel source data
  end.

End ClientAccounts.

(** ** client.py: responses and the connection status *)

Module Http.

(** The value under the ["error"] key of a response: a dictionary with its
    [code] and [message] when they are there, or something else. *)
Inductive ErrorInfo :=
| ErrorDict (code message : option string)
| ErrorOther.

(** [response.json()], as far as the client looks into it: of a list the
    ["id"] of each element (when the element is a dictionary with that
    key), of a dictionary what is under ["error"]. *)
Inductive JsonValue :=
| JsonList (ids : list (option string))
| JsonDict (error : option ErrorInfo)
| JsonOther.

(** An [httpx.Response]: [body] is [None] when [json()] raises,
    [raises_for_status] tells whether [raise_for_status()] raises. *)
Record HttpResponse := {
  status_code : nat;
  body : option JsonValue;
  raises_for_status : bool }.

Inductive Exception :=
| TellerError (code message : string)
| HTTPStatusError
| OtherException.

Inductive Outcome (A : Type) :=
| Ok (a : A)
| Raised (e : Exception).
Arguments Ok {A} a.
Arguments Raised {A} e.

(** [self.client.get(path)]: the response, or the exception of the
    transport. *)
Definition Transport := string → Outcome HttpResponse.

Definition _handle_response (response : HttpResponse) : Outcome JsonValue :=
  match body response with
  | None =>
      if raises_for_status response then Raised HTTPStatusError
      else Ok (JsonDict None)
  | Some data =>
      match data with
      | JsonDict (Some (ErrorDict code message)) =>
          Raised (TellerError (default "unknown" code)
                              (default "Unknown error" message))
      | JsonDict (Some ErrorOther) => Raised OtherException
      | _ =>
          if raises_for_status response then Raised HTTPStatusError
          else Ok data
      end
  end.

(** [self._handle_response(self.client.get(path))] *)
Definition request (transport : Transport) (path : string) : Outcome JsonValue :=
  match transport path with
  | Ok response => _handle_response response
  | Raised e => Raised e
  end.

Definition health_check (transport : Transport) : bool :=
  match transport "/health" with
  | Ok response => Nat.eqb (status_code response) 200
  | Raised _ => false
  end.

Inductive ConnectionStatus := connected | disconnected.

(** The two [except] clauses of [get_connection_status]. *)
Definition status_of_exception (e : Exception) : ConnectionStatus :=
  match e with
  | TellerError code _ =>
      if String.eqb code "disconnected" then disconnected else connected
  | _ => connected
  end.

Definition get_connection_status (transport : Transport) : ConnectionStatus :=
  match request transport "/accounts" with
  | Raised e => status_of_exception e
  | Ok data =>
      match data with
      | JsonList (first_account :: _) =>
          match first_account with
          | None => connected
          | Some i =>
              match request transport ("/accounts/" +:+ i) with
              | Raised e => status_of_exception e
              | Ok _ => connected
              end
          end
      | _ => disconnected
      end
  end.

End Http.

(** ** Further vocabulary *)

Module More.
Import Client Sync.

(** The ids of the three keyed tables. *)
Definition transaction_ids (s : Store) : list string := txn_id <$> transactions s.
Definition account_ids (s : Store) : list string := row_id <$> accounts s.
Definition institution_ids (s : Store) : list string := inst_id <$> institutions s.

(** Primary keys: no id twice in a table. *)
Definition keys_distinct (s : Store) : Prop :=
  NoDup (transaction_ids s) ∧ NoDup (account_ids s) ∧ NoDup (institution_ids s).

(** Every id of the tables of [s] is an id of the same table of [s']. *)
Definition keeps_rows (s s' : Store) : Prop :=
  transaction_ids s ⊆ transaction_ids s' ∧
  account_ids s ⊆ account_ids s' ∧
  institution_ids s ⊆ institution_ids s'.

(** The row of an account, [None] when the table has none. *)
Definition account_row (s : Store) (account_id : string) : option AccountRow :=
  find (fun r => String.eqb (row_id r) account_id) (accounts s).

(** The row of a transaction. *)
Definition transaction_row (s : Store) (transaction_id : string)
    : option Transaction :=
  find (fun t => String.eqb (txn_id t) transaction_id) (transactions s).

(** The cursor ids of the accounts table point into the transactions
    table. *)
Definition cursors_stored (s : Store) : Prop :=
  ∀ r i, r ∈ accounts s → row_last_transaction_id r = Some i →
         i ∈ transaction_ids s.

(** The columns of an account row that [load_account] rewrites on every
    run carry what the source reported for the account. *)
Definition refreshed_from (account : Account) (row : AccountRow) : Prop :=
  row_name row = acct_name account ∧
  row_status row = acct_status account ∧
  row_balance_amount row = bal_amount <$> acct_balance account.

(** The run ids are the positions of the rows, as [AUTO_INCREMENT] gives
    them on a table from which nothing is deleted. *)
Definition run_ids_in_order (s : Store) : Prop :=
  run_id <$> sync_runs s = seq 1 (length (sync_runs s)).

(** Every run of the table has ended, a completed one with its time. *)
Definition runs_ended (s : Store) : Prop :=
  ∀ r, r ∈ sync_runs s →
       (run_status r = completed ∧ is_Some (run_completed_at r)) ∨
       (run_status r = failed ∧ run_completed_at r = None).

(** The sum of the amounts of the transactions of [l] that satisfy [P]. *)
Definition amounts_where (l : list Transaction) (P : Transaction → Prop)
    `{!∀ t, Decision (P t)} : Z :=
  foldr Z.add 0 (txn_amount <$> filter P l).

(** The signed sum of the amounts of an account's posted transactions
    dated after day [d]. *)
Definition posted_after (s : Store) (account_id : string) (d : Z) : Z :=
  amounts_where (BalanceHistory.posted_transactions s)
    (fun t => txn_account_id t = account_id ∧ d < txn_date t).

(** The request of [get_account_balance]. *)
Definition balance_params : Params :=
  {| count := Some 20%nat; from_id := None |}.

(** A transaction the source served for the account: the validated form of
    a row of one of its pages that is not pending. *)
Definition served (source : Source) (account_id : string) (t : Transaction)
    : Prop :=
  ∃ params data d,
    source account_id params = Json data ∧ d ∈ data ∧
    is_pending d = false ∧ validate d = Some t.

(** A ledger whose most recent row is pending and carries a running
    balance, before two posted rows of which the second carries one. *)
Definition row_with_balance (status : string) (n : nat) (balance : option Z)
    : TransactionData :=
  {| td_id := td_id (Scenario.row status n);
     td_account_id := td_account_id (Scenario.row status n);
     td_amount := td_amount (Scenario.row status n);
     td_date := td_date (Scenario.row status n);
     td_description := td_description (Scenario.row status n);
     td_status := Some status;
     td_running_balance := balance |}.

Definition balance_ledger : list TransactionData :=
  [row_with_balance "pending" 0 (Some 11100);
   row_with_balance "posted" 1 None;
   row_with_balance "posted" 2 (Some 420000)].

Definition checking_data : ClientAccounts.AccountData :=
  {| ClientAccounts.ad_id := Some "acc_1";
     ClientAccounts.ad_name := Some "Checking";
     ClientAccounts.ad_type := Some "depository";
     ClientAccounts.ad_status := Some "open";
     ClientAccounts.ad_institution := Some Scenario.bank;
     ClientAccounts.ad_other_keys := true |}.

(** A row of the accounts response without an id, and one whose type is
    not a member of the enum. *)
Definition nameless_data : ClientAccounts.AccountData :=
  {| ClientAccounts.ad_id := None;
     ClientAccounts.ad_name := Some "Ghost";
     ClientAccounts.ad_type := Some "depository";
     ClientAccounts.ad_status := Some "open";
     ClientAccounts.ad_institution := Some Scenario.bank;
     ClientAccounts.ad_other_keys := true |}.

Definition brokerage_data : ClientAccounts.AccountData :=
  {| ClientAccounts.ad_id := Some "acc_3";
     ClientAccounts.ad_name := Some "Brokerage";
     ClientAccounts.ad_type := Some "investment";
     ClientAccounts.ad_status := Some "open";
     ClientAccounts.ad_institution := Some Scenario.bank;
     ClientAccounts.ad_other_keys := true |}.

(** The request raised the error that the API uses for a lost enrollment. *)
Definition says_disconnected (o : Http.Outcome Http.JsonValue) : Prop :=
  ∃ message, o = Http.Raised (Http.TellerError "disconnected" message).

(** A transport that answers [/accounts] with one account and fails, with
    a timeout, on the account itself. *)
Definition flaky_transport : Http.Transport :=
  fun path =>
    if String.eqb path "/accounts"
    then Http.Ok {| Http.status_code := 200;
                    Http.body := Some (Http.JsonList [Some "acc_1"]);
                    Http.raises_for_status := false |}
    else Http.Raised Http.OtherException.

(** A transport whose answer to [/accounts] is the error body of a lost
    enrollment, whatever its path. *)
Definition lost_transport : Http.Transport :=
  fun _ =>
    Http.Ok {| Http.status_code := 404;
               Http.body := Some (Http.JsonDict
                                    (Some (Http.ErrorDict (Some "disconnected")
                                                          (Some "gone"))));
               Http.raises_for_status := true |}.

(** What identifies a record of the series. *)
Definition record_key (r : BalanceHistory.DailyBalance) : Z * string :=
  (BalanceHistory.date r, BalanceHistory.account_id r).

End More.
Export More.
(** ** The floats of the Python run time

    A Python [float] is an IEEE 754 binary64 number, the kernel's
    [PrimFloat.float]; [+], [-] and the comparisons are the primitive ones.
    What follows is the part of the run time that [balance_history.py]
    calls on floats: the conversion of a [Decimal], [round] and [sum]. *)

Module Binary64.

Abbreviation float := PrimFloat.float.

(** The integer nearest to [num / den], the even one of two that are
    equally near ([0 < den]). *)
Definition round_half_even (num den : Z) : Z :=
  let q := num / den in
  let r := num mod den in
  match Z.compare (2 * r) den with
  | Lt => q
  | Gt => q + 1
  | Eq => if Z.even q then q else q + 1
  end.

(** The float nearest to [num / den], the one with an even mantissa of two
    that are equally near ([0 < num], [0 < den]): the quotient is scaled by
    a power of two into 53 bits, rounded there, and scaled back. *)
Definition nearest (num den : Z) : float :=
  let scaled (e : Z) : Z * Z :=
    if 0 <=? e then (num, den * 2 ^ e) else (num * 2 ^ (- e), den) in
  let e := Z.log2 num - Z.log2 den - 53 in
  let e := if fst (scaled e) / snd (scaled e) <? 2 ^ 53 then e else e + 1 in
  let mantissa := round_half_even (fst (scaled e)) (snd (scaled e)) in
  FloatOps.Z.ldexp (PrimFloat.of_uint63 (Uint63Axioms.of_Z mantissa)) e.

(** [float(d)] for a [Decimal] of a [DECIMAL(15,2)] column, held as its
    number of cents: the float nearest to [cents / 100]. *)
Definition float_of_decimal (cents : Z) : float :=
  match cents with
  | Z0 => PrimFloat.zero
  | Zpos _ => nearest cents 100
  | Zneg _ => PrimFloat.opp (nearest (- cents) 100)
  end.

(** The sign of a finite float and the integer nearest to the exact value
    of [|x| * 10 ^ ndigits] (ties to even); [None] for an infinity and for
    a nan. *)
Definition scaled (x : float) (ndigits : nat) : option (bool * Z) :=
  match FloatOps.Prim2SF x with
  | SpecFloat.S754_finite s m e =>
      let num := Z.pos m * 10 ^ Z.of_nat ndigits in
      Some (s, if 0 <=? e then num * 2 ^ e
               else round_half_even num (2 ^ (- e)))
  | SpecFloat.S754_zero s => Some (s, 0)
  | SpecFloat.S754_infinity _ | SpecFloat.S754_nan => None
  end.

(** [round(x, ndigits)] of a float, [0 <= ndigits]: the exact value of [x]
    is rounded to [ndigits] decimal places, ties to even, and the decimal
    is converted back to the nearest float; the sign is kept, infinities
    and nans are returned as they are. *)
Definition round (x : float) (ndigits : nat) : float :=
  match scaled x ndigits with
  | Some (s, 0) => if s then PrimFloat.neg_zero else PrimFloat.zero
  | Some (s, n) =>
      let y := nearest n (10 ^ Z.of_nat ndigits) in
      if s then PrimFloat.opp y else y
  | None => x
  end.


(** [sum(...)] of floats, from the integer start [0], as CPython computes
    it up to version 3.11: from left to right. *)
Definition sum_left (l : list float) : float :=
  foldl PrimFloat.add PrimFloat.zero l.

(** One step of the compensated summation (Neumaier) that CPython's [sum]
    uses from version 3.12: the running sum and the compensation [c]. *)
Definition compensated_step (st : float * float) (x : float) : float * float :=
  let '(f_result, c) := st in
  let t := PrimFloat.add f_result x in
  (t,
   if PrimFloat.leb (PrimFloat.abs x) (PrimFloat.abs f_result)
   then PrimFloat.add c (PrimFloat.add (PrimFloat.sub f_result t) x)
   else PrimFloat.add c (PrimFloat.add (PrimFloat.sub x t) f_result)).

(** [sum(...)] from CPython 3.12: the first float is added to the integer
    start, the others are added with compensation, and a compensation that
    is finite and not zero is added at the end. *)
Definition sum_compensated (l : list float) : float :=
  match l with
  | [] => PrimFloat.zero
  | x :: rest =>
      let '(f_result, c) :=
        foldl compensated_step (PrimFloat.add PrimFloat.zero x, PrimFloat.zero)
              rest in
      if negb (PrimFloat.eqb c PrimFloat.zero) && PrimFloat.is_finite c
      then PrimFloat.add f_result c else f_result
  end.

End Binary64.

(** ** balance_history.py, with its floats

    The replay as the program runs it: balances and amounts are converted
    to floats when they are read, the running balance is a float from
    which the amounts are subtracted one at a time, and only the emitted
    values are rounded to two places.  The queries and the accounts
    dictionary are those of [BalanceHistory]; the rows of the transactions
    table are read in the order of the list, which stands for the order in
    which the query returns them.  [sum] is the built-in of the interpreter
    ([Binary64.sum_left] or [Binary64.sum_compensated]). *)

Module BalanceHistoryFloat.
Import Binary64.

Record AccountInfo := {
  name : string;
  type : AccountType;
  current_balance : float;
  institution : string }.

(** [float(row.balance_amount) if row.balance_amount else 0.0] *)
Definition balance_or_zero (balance_amount : option Z) : float :=
  match balance_amount with
  | Some b => if b =? 0 then PrimFloat.zero else float_of_decimal b
  | None => PrimFloat.zero
  end.

Definition get_accounts_with_current_balance (s : Store)
    : list (string * AccountInfo) :=
  foldl (fun accounts '(row, i) =>
           BalanceHistory.dict_set (row_id row)
             {| name := row_name row; type := row_type row;
                current_balance := balance_or_zero (row_balance_amount row);
                institution := inst_name i |}
             accounts)
        [] (BalanceHistory.open_accounts s).

(** The dictionary appended per row in
    [get_transactions_by_account_and_date]. *)
Record Entry := {
  amount : float;
  description : string;
  running_balance : option float;
  id : string }.

Definition entry_of (row : Transaction) : Entry :=
  {| amount := float_of_decimal (txn_amount row);
     description := txn_description row;
     running_balance := match txn_running_balance row with
                        | Some b => if b =? 0 then None
                                    else Some (float_of_decimal b)
                        | None => None
                        end;
     id := txn_id row |}.

Definition add_row (transactions_by_account : gmap string (gmap Z (list Entry)))
    (row : Transaction) : gmap string (gmap Z (list Entry)) :=
  let account_id := txn_account_id row in
  let transaction_date := txn_date row in
  let by_date := default ∅ (transactions_by_account !! account_id) in
  let entries := default [] (by_date !! transaction_date) in
  <[account_id := <[transaction_date := entries ++ [entry_of row]]> by_date]>
    transactions_by_account.

Definition get_transactions_by_account_and_date (s : Store)
    : gmap string (gmap Z (list Entry)) :=
  foldl add_row ∅ (BalanceHistory.posted_transactions s).

(** One element of [daily_balances]. *)
Record DailyBalance := {
  date : Z;
  account_id : string;
  account_name : string;
  account_type : AccountType;
  institution_name : string;
  end_of_day_balance : float;
  transaction_count : nat;
  daily_change : float }.

(** [transactions_by_account[account_id][current_date]] when both keys are
    there, the initial [[]] otherwise. *)
Definition transactions_on (transactions_by_account : gmap string (gmap Z (list Entry)))
    (account_id : string) (current_date : Z) : list Entry :=
  match transactions_by_account !! account_id with
  | Some by_date => default [] (by_date !! current_date)
  | None => []
  end.

(** The replay state: the mutable [account_balances] and the growing
    [daily_balances]. *)
Definition Replay : Type := gmap string float * list DailyBalance.

(** Body of [for account_id, account_info in accounts.items()]:
    [account_balances[account_id] -= transaction['amount']] for each
    transaction of the day, in the order of the list, and a record with
    [round(end_of_day_balance, 2)] and
    [round(sum(...), 2) if transactions_today else 0.0]. *)
Definition visit_account (sum : list float → float)
    (transactions_by_account : gmap string (gmap Z (list Entry)))
    (current_date : Z) (st : Replay) (item : string * AccountInfo) : Replay :=
  let '(account_balances, daily_balances) := st in
  let '(account_id, account_info) := item in
  let end_of_day_balance :=
    default PrimFloat.zero (account_balances !! account_id) in
  let transactions_today :=
    transactions_on transactions_by_account account_id current_date in
  let account_balances :=
    foldl (fun balances transaction =>
             <[account_id :=
                 PrimFloat.sub (default PrimFloat.zero (balances !! account_id))
                               (amount transaction)]>
               balances)
          account_balances transactions_today in
  (account_balances,
   daily_balances ++
     [{| date := current_date; account_id := account_id;
         account_name := name account_info;
         account_type := type account_info;
         institution_name := institution account_info;
         end_of_day_balance := round end_of_day_balance 2;
         transaction_count := length transactions_today;
         daily_change := match transactions_today with
                         | [] => PrimFloat.zero
                         | _ :: _ => round (sum (amount <$> transactions_today)) 2
                         end |}]).

Definition visit_day (sum : list float → float)
    (accounts : list (string * AccountInfo))
    (transactions_by_account : gmap string (gmap Z (list Entry)))
    (current_date : Z) (st : Replay) : Replay :=
  foldl (visit_account sum transactions_by_account current_date) st accounts.

(** [while current_date >= earliest_date: ...; current_date -= timedelta(days=1)] *)
Equations? replay (sum : list float → float)
    (accounts : list (string * AccountInfo))
    (transactions_by_account : gmap string (gmap Z (list Entry)))
    (earliest_date current_date : Z) (st : Replay) : Replay
    by wf (Z.to_nat (current_date - earliest_date + 1)) lt :=
  replay sum accounts transactions_by_account earliest_date current_date st
    with decide (earliest_date <= current_date) => {
    | left _ =>
        replay sum accounts transactions_by_account earliest_date
          (current_date - 1)
          (visit_day sum accounts transactions_by_account current_date st)
    | right _ => st }.
Proof. lia. Qed.

(** [reconstruct_daily_balances]; [Raise] is the [TypeError] of comparing
    the [None] dates of a store without posted transactions. *)
Definition reconstruct_daily_balances (sum : list float → float) (s : Store)
    : Client.Exc (list DailyBalance) :=
  let accounts := get_accounts_with_current_balance s in
  let '(earliest_date, latest_date) := BalanceHistory.get_date_range s in
  let transactions_by_account := get_transactions_by_account_and_date s in
  let account_balances :=
    foldl (fun balances '(account_id, account_info) =>
             <[account_id := current_balance account_info]> balances)
          (∅ : gmap string float) accounts in
  match earliest_date, latest_date with
  | Some earliest_date, Some latest_date =>
      Client.Return
        (snd (replay sum accounts transactions_by_account earliest_date
                latest_date (account_balances, [])))
  | _, _ => Client.Raise
  end.

End BalanceHistoryFloat.

(** ** Vocabulary of the statements on the float replay *)

Module FloatSeries.
Import Binary64 BalanceHistoryFloat.

(** The amounts of an account's posted transactions on day [d], as the
    floats the replay subtracts, in the order of the rows. *)
Definition amounts_on (s : Store) (account_id : string) (d : Z) : list float :=
  (fun t => float_of_decimal (txn_amount t)) <$>
    filter (fun t => txn_account_id t = account_id ∧ txn_date t = d)
           (BalanceHistory.posted_transactions s).

(** The amounts of the days after [d], latest day of the store first: what
    the replay has subtracted from the account's balance when it reaches
    day [d]. *)
Definition amounts_after (s : Store) (account_id : string) (d : Z) : list float :=
  match (BalanceHistory.get_date_range s).2 with
  | Some latest => days_down (Z.to_nat (latest - d)) latest ≫= amounts_on s account_id
  | None => []
  end.

(** [account_balances[account_id]], read as the replay reads it. *)
Definition balance_of (account_balances : gmap string float)
    (account_id : string) : float :=
  default PrimFloat.zero (account_balances !! account_id).

(** The [account_balances] that [reconstruct_daily_balances] starts from. *)
Definition initial_balances (accounts : list (string * AccountInfo))
    : gmap string float :=
  foldl (fun balances '(account_id, account_info) =>
           <[account_id := current_balance account_info]> balances)
        ∅ accounts.

(** The float in [account_balances[account_id]] when the replay reaches
    day [d]: the current balance of the accounts dictionary, less the
    amounts of the later days, one subtraction after the other. *)
Definition running_balance (s : Store) (account_id : string) (d : Z) : float :=
  foldl PrimFloat.sub
    (balance_of (initial_balances (get_accounts_with_current_balance s)) account_id)
    (amounts_after s account_id d).

(** The same lists read off the grouped dictionary. *)
Definition subtracted (transactions_by_account : gmap string (gmap Z (list Entry)))
    (account_id : string) (d : Z) : list float :=
  amount <$> transactions_on transactions_by_account account_id d.

Definition subtracted_after (transactions_by_account : gmap string (gmap Z (list Entry)))
    (account_id : string) (d latest : Z) : list float :=
  days_down (Z.to_nat (latest - d)) latest ≫=
    subtracted transactions_by_account account_id.

(** The record of an account on day [d] of a replay that starts on day
    [latest] with the balances [account_balances]. *)
Definition record_at (sum : list float → float)
    (transactions_by_account : gmap string (gmap Z (list Entry)))
    (account_balances : gmap string float) (latest d : Z)
    (item : string * AccountInfo) : DailyBalance :=
  {| date := d; account_id := item.1;
     account_name := name item.2;
     account_type := type item.2;
     institution_name := institution item.2;
     end_of_day_balance :=
       round (foldl PrimFloat.sub (balance_of account_balances item.1)
                (subtracted_after transactions_by_account item.1 d latest)) 2;
     transaction_count :=
       length (transactions_on transactions_by_account item.1 d);
     daily_change :=
       match transactions_on transactions_by_account item.1 d with
       | [] => PrimFloat.zero
       | _ :: _ => round (sum (subtracted transactions_by_account item.1 d)) 2
       end |}.

(** The series of a store whose posted transactions span the days
    [earliest] to [latest]. *)
Definition series (sum : list float → float) (s : Store) (earliest latest : Z)
    : list DailyBalance :=
  let accounts := get_accounts_with_current_balance s in
  days_down (Z.to_nat (latest - earliest + 1)) latest ≫= fun d =>
    record_at sum (get_transactions_by_account_and_date s)
      (initial_balances accounts) latest d <$> accounts.

End FloatSeries.

(** ** A ledger at the top of the column's range

    One open account whose stored balance is 9999999999999.99, the largest
    value of a [DECIMAL(15,2)] column, 25 posted transactions of +0.01 on
    2024-01-05 and one on 2024-01-04. *)

Module LargeLedger.
Import Binary64 Scenario.

Definition cent (n : nat) : Transaction :=
  posted_on ("txn_" +:+ pretty n) (january_2024 5) 1.

Definition large_store : Store :=
  {| institutions := [bank];
     accounts := [checking_row (Some 999999999999999) None];
     transactions := posted_on "txn_0" (january_2024 4) 1 :: (cent <$> seq 1 25);
     sync_runs := [] |}.

(** The same rows, the other way round. *)
Definition large_store_reversed : Store :=
  {| institutions := institutions large_store;
     accounts := accounts large_store;
     transactions := reverse (transactions large_store);
     sync_runs := [] |}.

(** A record of the checking account whose values are the floats of the
    given numbers of cents. *)
Definition checking_on_floats (d balance : Z) (transaction_count : nat) (change : Z)
    : BalanceHistoryFloat.DailyBalance :=
  {| BalanceHistoryFloat.date := d;
     BalanceHistoryFloat.account_id := "acc_1";
     BalanceHistoryFloat.account_name := "Checking";
     BalanceHistoryFloat.account_type := DEPOSITORY;
     BalanceHistoryFloat.institution_name := "Bank";
     BalanceHistoryFloat.end_of_day_balance := float_of_decimal balance;
     BalanceHistoryFloat.transaction_count := transaction_count;
     BalanceHistoryFloat.daily_change := float_of_decimal change |}.

End LargeLedger.

(** * Properties *)

(** ** The page fetcher *)

Section PageFetcher.
Import Client.

Lemma already_have_spec all_transactions i :
  already_have all_transactions i = true ↔ i ∈ txn_id <$> all_transactions.
Proof.
  unfold already_have. rewrite existsb_exists, list_elem_of_fmap.
  split.
  - intros (t & Hin & Heq). apply String.eqb_eq in Heq.
    exists t. split; [done | by apply list_elem_of_In].
  - intros (t & -> & Hin). exists t.
    split; [by apply list_elem_of_In | apply String.eqb_refl].
Qed.

(** A record that passes the pending test and validates is posted. *)
Lemma validate_posted d t :
  is_pending d = false → validate d = Some t → posted t.
Proof.
  unfold is_pending, validate, posted. intros Hp Hv.
  destruct (td_status d) as [st|];
    [|by destruct (td_id d), (td_account_id d), (td_amount d), (td_date d),
         (td_description d)].
  destruct (td_id d), (td_account_id d), (td_amount d), (td_date d),
    (td_description d); simplify_eq/=.
  unfold parse_status in Hv.
  destruct (String.eqb st "posted"); [by simplify_eq/= |].
  rewrite Hp in Hv. discriminate.
Qed.

Lemma keep_posted_elem data t :
  t ∈ keep_posted data ↔
  ∃ d, d ∈ data ∧ is_pending d = false ∧ validate d = Some t.
Proof.
  induction data as [|d data IH]; simpl.
  - split; [by intros ?%elem_of_nil | by intros (? & ?%elem_of_nil & _)].
  - destruct (is_pending d) eqn:Hp; [|destruct (validate d) as [t'|] eqn:Hv].
    + rewrite IH. split; intros (d' & Hin & ? & ?).
      * exists d'. by rewrite elem_of_cons; auto.
      * apply elem_of_cons in Hin as [->|Hin]; [congruence | eauto].
    + rewrite elem_of_cons, IH. split.
      * intros [->|(d' & Hin & ? & ?)]; [exists d | exists d'];
          rewrite elem_of_cons; auto.
      * intros (d' & [->|Hin]%elem_of_cons & ? & ?);
          [left; congruence | right; eauto].
    + rewrite IH. split; intros (d' & Hin & ? & ?).
      * exists d'. by rewrite elem_of_cons; auto.
      * apply elem_of_cons in Hin as [->|Hin]; [congruence | eauto].
Qed.

Lemma keep_posted_all_posted data : Forall posted (keep_posted data).
Proof.
  apply Forall_forall. intros t (d & _ & Hp & Hv)%keep_posted_elem.
  by eapply validate_posted.
Qed.

(** The overlap check is a filter on what [get_transactions] would keep. *)
Lemma page_transactions_filter all_transactions data :
  page_transactions all_transactions data =
  filter (fun t => txn_id t ∉ txn_id <$> all_transactions) (keep_posted data).
Proof.
  induction data as [|d data IH]; simpl; [done |].
  destruct (is_pending d); [done |].
  destruct (validate d) as [t|]; [|done].
  rewrite filter_cons.
  destruct (already_have all_transactions (txn_id t)) eqn:Hh.
  - apply already_have_spec in Hh. by rewrite decide_False by auto.
  - rewrite decide_True; [by rewrite IH |].
    intros Hin%already_have_spec. congruence.
Qed.

Lemma keep_posted_app d1 d2 :
  keep_posted (d1 ++ d2) = keep_posted d1 ++ keep_posted d2.
Proof.
  induction d1 as [|d d1 IH]; simpl; [done |].
  destruct (is_pending d); [done |]. destruct (validate d); [|done].
  by rewrite IH.
Qed.

Lemma keep_posted_sublist d1 d2 :
  d1 `sublist_of` d2 → keep_posted d1 `sublist_of` keep_posted d2.
Proof.
  induction 1 as [|d l1 l2 _ IH|d l1 l2 _ IH]; simpl.
  - constructor.
  - destruct (is_pending d); [done |]. destruct (validate d); [|done].
    by constructor.
  - destruct (is_pending d); [done |]. destruct (validate d); [|done].
    by constructor.
Qed.

(** One turn of the loop, as a relation between the accumulated lists. *)
Lemma fetch_loop_unfold fuel source account_id all_transactions :
  fetch_loop (S fuel) source account_id all_transactions =
  match source account_id (next_params all_transactions) with
  | Failure => Some all_transactions
  | Json data =>
      if decide (data = []) then Some all_transactions
      else if decide (page_transactions all_transactions data = [])
      then Some all_transactions
      else if (length data <? page_size)%nat
      then Some (all_transactions ++ page_transactions all_transactions data)
      else fetch_loop fuel source account_id
             (all_transactions ++ page_transactions all_transactions data)
  end.
Proof.
  simpl. destruct (source _ _) as [[|d data]|]; [done | | done].
  rewrite decide_False by done.
  destruct (page_transactions all_transactions (d :: data)); [done |].
  by rewrite decide_False.
Qed.

(** An invariant of the accumulated list that every page preserves holds of
    the result. *)
Lemma fetch_loop_invariant (I : list Transaction → Prop) source account_id :
  (∀ all_transactions data,
     I all_transactions →
     source account_id (next_params all_transactions) = Json data →
     I (all_transactions ++ page_transactions all_transactions data)) →
  ∀ fuel all_transactions result,
    I all_transactions →
    fetch_loop fuel source account_id all_transactions = Some result →
    I result.
Proof.
  intros Hstep fuel. induction fuel as [|fuel IH]; intros all result HI; [done |].
  rewrite fetch_loop_unfold.
  destruct (source _ _) as [data|] eqn:Hsrc; [|by intros [= <-]].
  repeat case_decide; try by intros [= <-].
  destruct (length data <? page_size)%nat.
  - intros [= <-]. by apply Hstep.
  - apply IH. by apply Hstep.
Qed.

Lemma fetch_loop_posted fuel source account_id all_transactions result :
  Forall posted all_transactions →
  fetch_loop fuel source account_id all_transactions = Some result →
  Forall posted result.
Proof.
  apply (fetch_loop_invariant (Forall posted)).
  intros all data Hall _. apply Forall_app. split; [done |].
  rewrite page_transactions_filter. apply Forall_forall.
  intros t [_ Ht]%list_elem_of_filter.
  by eapply Forall_forall in Ht; [|apply keep_posted_all_posted].
Qed.

Lemma get_all_transactions_posted fuel source account_id result :
  get_all_transactions fuel source account_id = Some result →
  Forall posted result.
Proof. by apply fetch_loop_posted. Qed.

Lemma get_transactions_posted fuel source account_id cnt latest result :
  get_transactions fuel source account_id cnt latest = Some (Return result) →
  Forall posted result.
Proof.
  unfold get_transactions. destruct latest.
  - destruct (get_all_transactions _ _ _) as [l|] eqn:Hall; [|done].
    intros [= <-]. by eapply get_all_transactions_posted.
  - destruct (source _ _); [|done]. intros [= <-]. apply keep_posted_all_posted.
Qed.

(** More fuel does not change a result. *)
Lemma fetch_loop_fuel_mono fuel fuel' source account_id all_transactions result :
  (fuel ≤ fuel')%nat →
  fetch_loop fuel source account_id all_transactions = Some result →
  fetch_loop fuel' source account_id all_transactions = Some result.
Proof.
  revert fuel' all_transactions.
  induction fuel as [|fuel IH]; intros fuel' all Hle; [done |].
  destruct fuel' as [|fuel']; [lia |].
  rewrite !fetch_loop_unfold.
  destruct (source _ _) as [data|]; [|done].
  repeat case_decide; try done.
  destruct (length data <? page_size)%nat; [done |].
  apply IH. lia.
Qed.

Section DuplicateFree.
Context (source : Source) (account_id : string) (universe : list string).
Hypothesis page_nodup : ∀ params data,
  source account_id params = Json data → NoDup (txn_id <$> keep_posted data).
Hypothesis page_known : ∀ params data,
  source account_id params = Json data →
  ∀ t, t ∈ keep_posted data → txn_id t ∈ universe.

Lemma collected_step all_transactions data :
  collected universe all_transactions →
  source account_id (next_params all_transactions) = Json data →
  collected universe (all_transactions ++ page_transactions all_transactions data).
Proof.
  intros [Hnd Hin] Hsrc. rewrite page_transactions_filter. split.
  - rewrite fmap_app. apply NoDup_app. split_and!; [done | |].
    + intros i Hi (t & -> & [Ht _]%list_elem_of_filter)%list_elem_of_fmap.
      done.
    + eapply sublist_NoDup; [by eapply page_nodup |].
      apply fmap_sublist, sublist_filter.
  - intros t [?|[_ ?]%list_elem_of_filter]%elem_of_app; [auto |].
    by eapply page_known.
Qed.

Lemma collected_length all_transactions :
  collected universe all_transactions → (length all_transactions ≤ length universe)%nat.
Proof.
  intros [Hnd Hin]. rewrite <-(length_fmap txn_id).
  apply submseteq_length, NoDup_submseteq; [done |].
  intros i (t & -> & ?)%list_elem_of_fmap. auto.
Qed.

(** Every turn that goes on adds an id of the universe that was not there:
    the loop stops within [length universe + 1] turns. *)
Lemma fetch_loop_terminates fuel all_transactions :
  collected universe all_transactions →
  (length universe < length all_transactions + fuel)%nat →
  is_Some (fetch_loop fuel source account_id all_transactions).
Proof.
  revert all_transactions.
  induction fuel as [|fuel IH]; intros all Hc Hlen.
  - apply collected_length in Hc. lia.
  - rewrite fetch_loop_unfold.
    destruct (source _ _) as [data|] eqn:Hsrc; [|done].
    repeat case_decide; try done.
    destruct (length data <? page_size)%nat; [done |].
    apply IH; [by apply collected_step |].
    rewrite length_app.
    destruct (page_transactions all data); [done | simpl; lia].
Qed.

Lemma get_all_transactions_total :
  ∃ result,
    get_all_transactions (S (length universe)) source account_id = Some result ∧
    NoDup (txn_id <$> result).
Proof.
  assert (collected universe []) as Hc.
  { split; [constructor | by intros ? ?%elem_of_nil]. }
  destruct (fetch_loop_terminates (S (length universe)) [] Hc) as [result Hr];
    [simpl; lia |].
  exists result. split; [done |].
  eapply (fetch_loop_invariant (collected universe)) in Hr as [? _]; [done | | done].
  intros. by apply collected_step.
Qed.
End DuplicateFree.

End PageFetcher.

Section Pagination.
Import Client Scenario.

Lemma from_row_sublist c ledger : from_row c ledger `sublist_of` ledger.
Proof.
  induction ledger as [|d ledger IH]; simpl; [done |].
  case_bool_decide; [done | by constructor].
Qed.

(** The page asked for with the id of a row starts with that row. *)
Lemma from_row_repeats c d ledger :
  d ∈ ledger → td_id d = Some c →
  ∃ d' rest, from_row c ledger = d' :: rest ∧ td_id d' = Some c.
Proof.
  induction ledger as [|d0 ledger IH]; [by intros ?%elem_of_nil |].
  intros Hin Hid. simpl. case_bool_decide as Hd0; [by eauto |].
  apply elem_of_cons in Hin as [->|Hin]; [done | by apply IH].
Qed.

Lemma overlapping_source_sublist ledger account_id params data :
  overlapping_source ledger account_id params = Json data →
  data `sublist_of` ledger.
Proof.
  unfold overlapping_source. intros [= <-].
  assert (match from_id params with
          | Some c => from_row c ledger
          | None => ledger
          end `sublist_of` ledger) as Hrows.
  { destruct (from_id params); [apply from_row_sublist | done]. }
  destruct (count params); [|done].
  etrans; [apply sublist_take | done].
Qed.

(** C7. Pagination termination: on a source that serves a ledger of
    transactions with distinct ids and repeats the last row of a page as
    the first row of the next, [get_all_transactions] returns (with
    [length ledger + 1] turns of the loop at most, and with the same result
    whatever more it is allowed), and no two transactions it returns have
    the same id. *)
Theorem pagination_terminates_without_duplicates
    (ledger : list TransactionData) (account_id : string) :
  NoDup (txn_id <$> keep_posted ledger) →
  ∃ result,
    (∀ fuel, (length ledger < fuel)%nat →
       get_all_transactions fuel (overlapping_source ledger) account_id
       = Some result) ∧
    NoDup (txn_id <$> result).
Proof.
  intros Hnd.
  destruct (get_all_transactions_total (overlapping_source ledger) account_id
              (txn_id <$> keep_posted ledger)) as (result & Hr & Hres).
  - intros params data Hsrc%overlapping_source_sublist.
    eapply sublist_NoDup; [done |]. by apply fmap_sublist, keep_posted_sublist.
  - intros params data Hsrc%overlapping_source_sublist t Ht.
    apply list_elem_of_fmap_2. eapply elem_of_sublist; [done |].
    by apply keep_posted_sublist.
  - exists result. split; [|done].
    intros fuel Hfuel. eapply fetch_loop_fuel_mono; [|exact Hr].
    rewrite length_fmap.
    assert (length (keep_posted ledger) ≤ length ledger)%nat; [|lia].
    clear. induction ledger as [|d l IH]; simpl; [done |].
    destruct (is_pending d); [lia |].
    destruct (validate d); simpl; lia.
Qed.

Lemma pagination_terminates_without_duplicates_witness :
  ∃ result,
    (∀ fuel, (length ledger_500 < fuel)%nat →
       get_all_transactions fuel (overlapping_source ledger_500) "acc_1"
       = Some result) ∧
    NoDup (txn_id <$> result).
Proof.
  apply (pagination_terminates_without_duplicates ledger_500 "acc_1").
  apply (bool_decide_unpack _). vm_compute. exact I.
Defined.

(** On the 500-row ledger the loop asks for three pages (250 new rows, 249
    new rows behind the repeated one, 1 new row behind the repeated one) and
    returns each of the 500 transactions once. *)
Example ledger_500_fetched :
  get_all_transactions 3 (overlapping_source ledger_500) "acc_1"
  = Some (keep_posted ledger_500).
Proof. vm_compute. reflexivity. Qed.

Lemma filtered_out_page all_transactions data :
  Forall (filtered_out all_transactions) data →
  page_transactions all_transactions data = [].
Proof.
  induction 1 as [|d data Hd _ IH]; simpl; [done |].
  destruct Hd as [->|(t & -> & Hin)]; [done |].
  destruct (is_pending d); [done |].
  apply already_have_spec in Hin. by rewrite Hin.
Qed.

(** C10. A full-sized page whose rows are all filtered out (pending, or
    already collected) ends the loop: the call returns what the earlier
    pages gave, whatever the source holds behind that page. *)
Theorem full_page_of_filtered_rows_stops (fuel : nat) (source : Source)
    (account_id : string) (all_transactions : list Transaction)
    (data : list TransactionData) :
  source account_id (next_params all_transactions) = Json data →
  length data = page_size →
  Forall (filtered_out all_transactions) data →
  fetch_loop (S fuel) source account_id all_transactions = Some all_transactions.
Proof.
  intros Hsrc Hlen Hout. rewrite fetch_loop_unfold, Hsrc.
  case_decide; [done |].
  by rewrite decide_True by by apply filtered_out_page.
Qed.

Lemma full_page_of_filtered_rows_stops_witness :
  fetch_loop 1 (overlapping_source ledger_with_pending_run) "acc_1"
    (keep_posted (take 250 ledger_with_pending_run))
  = Some (keep_posted (take 250 ledger_with_pending_run)).
Proof.
  apply (full_page_of_filtered_rows_stops 0
           (overlapping_source ledger_with_pending_run) "acc_1"
           (keep_posted (take 250 ledger_with_pending_run))
           (take 250 (drop 249 ledger_with_pending_run))).
  - vm_compute. reflexivity.
  - vm_compute. reflexivity.
  - apply (bool_decide_unpack _). vm_compute. exact I.
Defined.

(** The ten posted transactions behind the pending run are never returned. *)
Example pending_run_hides_later_pages :
  get_all_transactions 5 (overlapping_source ledger_with_pending_run) "acc_1"
  = Some (keep_posted (take 250 ledger_with_pending_run)) ∧
  length (keep_posted ledger_with_pending_run) = 260%nat.
Proof. split; vm_compute; reflexivity. Qed.

End Pagination.

(** ** The sync engine *)

Section SyncEngine.
Import Client Sync Scenario.

Lemma upsert_Forall {R : Type} (P : R → Prop) key k fresh update (table : list R) :
  P fresh → (∀ r, r ∈ table → P (update r)) → Forall P table →
  Forall P (upsert key k fresh update table).
Proof.
  intros Hfresh. induction table as [|r table IH]; intros Hupd Htable; simpl.
  - by constructor.
  - apply Forall_cons in Htable as [Hr Htable].
    destruct (String.eqb (key r) k).
    + constructor; [apply Hupd; by left | done].
    + constructor; [done |]. apply IH; [|done].
      intros r' Hr'. apply Hupd. by right.
Qed.

Lemma load_transaction_posted transaction s :
  posted transaction → Forall posted (transactions s) →
  Forall posted (transactions (fst (load_transaction transaction s))).
Proof.
  intros Ht Hs. simpl. by apply upsert_Forall.
Qed.

Lemma load_transactions_fold acc transactions :
  tally_store (foldl load_and_track acc transactions) =
  foldl (fun s t => fst (load_transaction t s)) (tally_store acc) transactions.
Proof.
  revert acc. induction transactions as [|t l IH]; intros acc; simpl; [done |].
  by rewrite IH.
Qed.

Lemma load_transactions_posted s l :
  Forall posted l → Forall posted (transactions s) →
  Forall posted (transactions (tally_store (load_transactions s l))).
Proof.
  unfold load_transactions. rewrite load_transactions_fold. simpl.
  intros Hl. revert s. induction Hl as [|t l Ht _ IH]; intros s Hs; [done |].
  simpl. apply IH. by apply upsert_Forall.
Qed.

Lemma load_accounts_transactions accounts s stats :
  transactions (fst (load_accounts accounts (s, stats))) = transactions s.
Proof.
  unfold load_accounts. revert s stats.
  induction accounts as [|a l IH]; intros s stats; simpl; [done |].
  by rewrite IH.
Qed.

Lemma select_transactions_posted fuel source sync_type s account_id l :
  select_transactions fuel source sync_type s account_id = Some l →
  Forall posted l.
Proof.
  destruct sync_type; simpl.
  - apply get_all_transactions_posted.
  - unfold get_new_transactions_for_account.
    destruct (get_all_transactions _ _ _) as [all|] eqn:Hall; [|done]. simpl.
    apply get_all_transactions_posted in Hall.
    destruct (last_transaction_date _); intros [= <-]; [|done].
    apply Forall_forall. intros t [_ Ht]%list_elem_of_filter.
    by eapply Forall_forall in Hall.
Qed.

Lemma store_account_transactions_posted now account_id l st :
  Forall posted l → Forall posted (transactions (fst st)) →
  Forall posted
    (transactions (fst (store_account_transactions now account_id l st))).
Proof.
  destruct st as [s stats]. intros Hl Hs. unfold store_account_transactions.
  pose proof (load_transactions_posted s l Hl Hs). by destruct l.
Qed.

Lemma sync_accounts_posted fuel now source sync_type accounts st st' :
  Forall posted (transactions (fst st)) →
  sync_accounts fuel now source sync_type accounts st = Some st' →
  Forall posted (transactions (fst st')).
Proof.
  revert st. induction accounts as [|a l IH]; intros st Hst; simpl.
  - by intros [= <-].
  - destruct (select_transactions _ _ _ _ _) as [txns|] eqn:Hsel; [|done].
    simpl. apply IH. apply store_account_transactions_posted; [|done].
    by eapply select_transactions_posted.
Qed.

Lemma sync_teller_data_posted fuel now source accounts force_full s s' result :
  Forall posted (transactions s) →
  sync_teller_data fuel now source accounts force_full s = Some (s', result) →
  Forall posted (transactions s').
Proof.
  intros Hs. unfold sync_teller_data.
  destruct (decide_sync_type _ _ _) as [sync_type|]; [|by intros [= <- _]].
  simpl. destruct accounts as [accounts|]; [|by intros [= <- _]].
  destruct (sync_accounts _ _ _ _ _ _) as [[s1 stats]|] eqn:Hsync; [|done].
  simpl. intros [= <- _]. simpl.
  apply sync_accounts_posted in Hsync; [done |].
  by rewrite load_accounts_transactions.
Qed.

(** C8. Pending exclusion: no store that sync runs produce, full or
    incremental, holds a transaction whose status is pending; every row of
    its transactions table is posted. *)
Theorem pending_exclusion (s : Store) :
  reachable s → Forall posted (transactions s).
Proof.
  induction 1 as [|fuel now source accounts force_full s s' result _ IH Hrun].
  - constructor.
  - by eapply sync_teller_data_posted.
Qed.

Lemma pending_exclusion_witness :
  Forall posted (transactions (store_after first_run)) ∧
  txn_id <$> transactions (store_after first_run) = ["txn_1"; "txn_2"].
Proof.
  split; [|vm_compute; reflexivity].
  apply (pending_exclusion (store_after first_run)).
  apply (reachable_sync 5 1000 (overlapping_source first_ledger)
           (Return [checking 100000]) false empty_store
           (store_after first_run)
           (Return {| accounts_synced := 1; total_transactions := 2;
                      new_transactions := 2; updated_transactions := 0 |})).
  - apply reachable_empty.
  - vm_compute. reflexivity.
Defined.

(** *** The incremental filter *)

Lemma transaction_exists_spec s i :
  transaction_exists s i = true ↔ i ∈ txn_id <$> transactions s.
Proof. apply already_have_spec. Qed.

Lemma is_new_spec s cursor_date cursor_id t :
  is_new s cursor_date cursor_id t = true ↔
  kept_by_cursor s cursor_date cursor_id t.
Proof.
  unfold is_new, kept_by_cursor.
  destruct (Z.ltb_spec cursor_date (txn_date t)); [by split; auto |].
  destruct (Z.eqb_spec (txn_date t) cursor_date); simpl;
    [|split; [done | intros [?|(? & _)]; lia]].
  case_bool_decide; simpl; [split; [done | intros [?|(_ & ? & _)]; [lia | done]] |].
  destruct (transaction_exists s (txn_id t)) eqn:He; simpl.
  - apply transaction_exists_spec in He.
    split; [done | intros [?|(_ & _ & ?)]; [lia | done]].
  - split; [|done]. intros _. right. split_and!; [done | done |].
    intros Hin%transaction_exists_spec. congruence.
Qed.

Lemma upsert_keys {R : Type} (key : R → string) k fresh update (table : list R) i :
  key fresh = k → (∀ r, key (update r) = key r) →
  i ∈ key <$> upsert key k fresh update table ↔ i ∈ key <$> table ∨ i = k.
Proof.
  intros Hfresh Hupd. induction table as [|r table IH]; simpl.
  - rewrite list_elem_of_singleton, Hfresh. split; [auto |].
    by intros [?%elem_of_nil|?].
  - destruct (String.eqb_spec (key r) k) as [Hk|Hk]; simpl.
    + rewrite !elem_of_cons, Hupd, <-Hk. tauto.
    + rewrite !elem_of_cons, IH. tauto.
Qed.

Lemma load_transactions_ids s l i :
  i ∈ txn_id <$> transactions (tally_store (load_transactions s l)) ↔
  i ∈ txn_id <$> transactions s ∨ i ∈ txn_id <$> l.
Proof.
  unfold load_transactions. rewrite load_transactions_fold. simpl.
  revert s. induction l as [|t l IH]; intros s; simpl.
  - split; [auto | by intros [?|?%elem_of_nil]].
  - rewrite IH. simpl. rewrite upsert_keys by done.
    rewrite elem_of_cons. tauto.
Qed.

Lemma update_account_sync_state_transactions now account_id latest s :
  transactions (update_account_sync_state now account_id latest s) = transactions s.
Proof. done. Qed.

Lemma store_account_transactions_ids now account_id l s stats i :
  i ∈ txn_id <$> transactions
        (fst (store_account_transactions now account_id l (s, stats))) ↔
  i ∈ txn_id <$> transactions s ∨ i ∈ txn_id <$> l.
Proof.
  unfold store_account_transactions.
  rewrite <-load_transactions_ids. by destruct l.
Qed.

(** C5. Incremental filter: for an account with a stored cursor, the
    transactions kept from the fetch are those dated strictly after the
    cursor date, and those dated on the cursor date whose id is not the
    cursor id and is not in the store; the pass upserts them and no other. *)
Theorem incremental_keeps_new_transactions (fuel : nat) (now : Z)
    (source : Source) (s : Store) (stats : Stats) (account : Account)
    (all_transactions : list Transaction) (cursor_date : Z)
    (cursor_id : option string) :
  get_all_transactions fuel source (acct_id account) = Some all_transactions →
  last_transaction_date (get_account_sync_state s (acct_id account))
    = Some cursor_date →
  last_transaction_id (get_account_sync_state s (acct_id account)) = cursor_id →
  let kept :=
    filter (kept_by_cursor s cursor_date cursor_id) all_transactions in
  get_new_transactions_for_account fuel source s (acct_id account) = Some kept ∧
  ∃ s' stats',
    sync_accounts fuel now source incremental [account] (s, stats)
      = Some (s', stats') ∧
    (∀ i, i ∈ txn_id <$> transactions s' ↔
          i ∈ txn_id <$> transactions s ∨ i ∈ txn_id <$> kept) ∧
    total_transactions stats' = (total_transactions stats + length kept)%nat.
Proof.
  intros Hall Hdate Hid kept.
  assert (get_new_transactions_for_account fuel source s (acct_id account)
          = Some kept) as Hnew.
  { unfold get_new_transactions_for_account. rewrite Hall, Hdate, Hid. simpl.
    f_equal. apply list_filter_iff. intros t.
    rewrite <-is_new_spec. by destruct (is_new _ _ _ _). }
  split; [done |].
  eexists _, _. simpl. rewrite Hnew. simpl. split; [reflexivity |].
  split; [|done]. intros i.
  apply (store_account_transactions_ids now (acct_id account) kept s stats i).
Qed.

Lemma incremental_keeps_new_transactions_witness :
  get_new_transactions_for_account 5 cursor_fetch cursor_store "acc_1"
  = Some [txn_10; txn_11].
Proof.
  exact (proj1 (incremental_keeps_new_transactions 5 2000 cursor_fetch
                  cursor_store zero_stats (checking 100000)
                  [txn_9; txn_10; txn_11] (january_2024 5) (Some "txn_9")
                  eq_refl eq_refl eq_refl)).
Defined.

(** The whole incremental run of the scenario: txn_10 and txn_11 are
    written as new, txn_9 is not written again. *)
Example incremental_run_of_scenario :
  ∃ s',
    sync_teller_data 5 (2 * day) cursor_fetch (Return [checking 100000]) false
      cursor_store
    = Some (s', Return {| accounts_synced := 1; total_transactions := 2;
                          new_transactions := 2; updated_transactions := 0 |}) ∧
    transactions s' = [txn_9; txn_10; txn_11] ∧
    run_sync_type <$> last (sync_runs s') = Some incremental.
Proof. eexists. vm_compute. split_and!; reflexivity. Qed.

(** *** Full or incremental *)

Lemma null_ltb_irrefl a : null_ltb a a = false.
Proof. destruct a; simpl; [apply Z.ltb_irrefl | done]. Qed.

Lemma null_ltb_trans a b c :
  null_ltb a b = true → null_ltb b c = true → null_ltb a c = true.
Proof.
  destruct a, b, c; simpl; rewrite ?Z.ltb_lt; try done. lia.
Qed.

Lemma null_ltb_le_lt a b c :
  null_ltb b a = false → null_ltb b c = true → null_ltb a c = true.
Proof.
  destruct a, b, c; simpl; rewrite ?Z.ltb_lt, ?Z.ltb_ge; try done. lia.
Qed.

Lemma null_ltb_antisym a b :
  null_ltb a b = false → null_ltb b a = false → a = b.
Proof.
  destruct a, b; simpl; rewrite ?Z.ltb_ge; try done.
  intros. f_equal. lia.
Qed.

Lemma later_run_fold_none runs :
  foldl later_run None runs = None ↔
  ∀ r, r ∈ runs → run_status r ≠ completed.
Proof.
  induction runs as [|r runs IH] using rev_ind; simpl.
  - split; [by intros _ ? ?%elem_of_nil | done].
  - rewrite foldl_app. simpl. unfold later_run at 1.
    case_decide as Hr.
    + split.
      * intros Hnone. destruct (foldl later_run None runs) as [b|]; [|done].
        by destruct (null_ltb _ _).
      * intros Hall. destruct (Hall r); [apply elem_of_app; right; by left | done].
    + rewrite IH. split.
      * intros Hall r' [?| ->%list_elem_of_singleton]%elem_of_app; auto.
      * intros Hall r' ?. apply Hall, elem_of_app. by left.
Qed.

Lemma later_run_fold_some runs b :
  foldl later_run None runs = Some b →
  b ∈ runs ∧ run_status b = completed ∧
  ∀ r, r ∈ runs → run_status r = completed →
       null_ltb (run_completed_at b) (run_completed_at r) = false.
Proof.
  revert b. induction runs as [|r runs IH] using rev_ind; intros b; [done |].
  rewrite foldl_app. simpl. unfold later_run at 1.
  destruct (foldl later_run None runs) as [b0|] eqn:Hfold.
  - destruct (IH b0 eq_refl) as (Hin & Hc & Hmax).
    case_decide as Hr.
    + destruct (null_ltb (run_completed_at b0) (run_completed_at r)) eqn:Hlt;
        intros [= <-].
      * split_and!; [apply elem_of_app; right; by left | done |].
        intros r' [Hr'| ->%list_elem_of_singleton]%elem_of_app Hc';
          [|apply null_ltb_irrefl].
        destruct (null_ltb (run_completed_at r) (run_completed_at r')) eqn:Hlt';
          [|done].
        pose proof (null_ltb_trans _ _ _ Hlt Hlt') as Hbad.
        by rewrite (Hmax r' Hr' Hc') in Hbad.
      * split_and!; [apply elem_of_app; by left | done |].
        intros r' [Hr'| ->%list_elem_of_singleton]%elem_of_app Hc'; auto.
    + intros [= <-]. split_and!; [apply elem_of_app; by left | done |].
      intros r' [Hr'| ->%list_elem_of_singleton]%elem_of_app Hc'; [auto | done].
  - pose proof (proj1 (later_run_fold_none runs) Hfold) as Hnone.
    clear Hfold. rename Hnone into Hfold.
    case_decide as Hr; [|done]. intros [= <-].
    split_and!; [apply elem_of_app; right; by left | done |].
    intros r' [Hr'| ->%list_elem_of_singleton]%elem_of_app Hc';
      [by destruct (Hfold r' Hr') | apply null_ltb_irrefl].
Qed.

Lemma get_last_sync_info_fold s :
  get_last_sync_info s = foldl later_run None (sync_runs s).
Proof. done. Qed.

(** [get_last_sync_info] finds a most recent completed run when there is
    one. *)
Lemma get_last_sync_info_spec s :
  match get_last_sync_info s with
  | None => ∀ r, r ∈ sync_runs s → run_status r ≠ completed
  | Some r => most_recent_completed s r
  end.
Proof.
  rewrite get_last_sync_info_fold.
  destruct (foldl later_run None (sync_runs s)) as [b|] eqn:Hfold.
  - by apply later_run_fold_some.
  - by apply later_run_fold_none.
Qed.


(** [timedelta.days] counts whole days: it exceeds 7 from the eighth day
    on. *)
Lemma days_between_over_7 now completed_at :
  7 < days_between now completed_at ↔
  8 * microseconds_per_day ≤ now - completed_at.
Proof.
  unfold days_between, microseconds_per_day. split; intros H.
  - assert (8 ≤ (now - completed_at) / 86400000000) as H8 by lia.
    pose proof (Z.mul_div_le (now - completed_at) 86400000000). lia.
  - apply Z.lt_le_trans with (8 * 86400000000 / 86400000000); [done |].
    apply Z.div_le_mono; lia.
Qed.




(** *** The cursor *)

Lemma cursor_le_refl a : cursor_le a a.
Proof. destruct a; simpl; [lia | done]. Qed.

Lemma cursor_le_trans a b c : cursor_le a b → cursor_le b c → cursor_le a c.
Proof. destruct a, b, c; simpl; try done. lia. Qed.

Lemma cursor_date_find s a :
  cursor_date s a =
  find (fun r => String.eqb (row_id r) a) (accounts s) ≫= row_last_transaction_date.
Proof.
  unfold cursor_date, get_account_sync_state. by destruct (find _ _).
Qed.

Lemma find_update_where {R : Type} (p hit : R → bool) update (table : list R) :
  (∀ r, p (update r) = p r) →
  find p (update_where hit update table) =
  (fun r => if hit r then update r else r) <$> find p table.
Proof.
  intros Hupd. induction table as [|r table IH]; simpl; [done |].
  destruct (hit r) eqn:Hhit; rewrite ?Hupd; destruct (p r); simpl;
    by rewrite ?Hhit.
Qed.

Lemma find_upsert {R : Type} (key : R → string) k fresh update (table : list R) a :
  key fresh = k → (∀ r, key (update r) = key r) →
  find (fun r => String.eqb (key r) a) (upsert key k fresh update table) =
  match find (fun r => String.eqb (key r) a) table with
  | Some r => Some (if String.eqb (key r) k then update r else r)
  | None => if String.eqb k a then Some fresh else None
  end.
Proof.
  intros Hfresh Hupd. induction table as [|r table IH]; simpl.
  - by rewrite Hfresh.
  - destruct (String.eqb_spec (key r) k) as [Hk|Hk]; simpl.
    + rewrite Hupd. destruct (String.eqb_spec (key r) a) as [Ha|Ha].
      * by rewrite Hk, String.eqb_refl.
      * destruct (find _ table) as [r'|] eqn:Hfind.
        -- apply find_some in Hfind as [_ Hr'%String.eqb_eq].
           destruct (String.eqb_spec (key r') k); [congruence | done].
        -- destruct (String.eqb_spec k a); [congruence | done].
    + destruct (String.eqb_spec (key r) a) as [Ha|Ha]; [|done].
      by destruct (String.eqb_spec (key r) k).
Qed.

Lemma load_account_cursor account s a :
  cursor_date (load_account account s) a = cursor_date s a.
Proof.
  rewrite !cursor_date_find. unfold load_account. simpl.
  rewrite find_upsert by done.
  destruct (find _ (accounts s)) as [r|]; simpl.
  - by destruct (String.eqb _ _).
  - by destruct (String.eqb _ _).
Qed.

Lemma load_accounts_cursor accounts s stats a :
  cursor_date (fst (load_accounts accounts (s, stats))) a = cursor_date s a.
Proof.
  unfold load_accounts. revert s stats.
  induction accounts as [|account l IH]; intros s stats; simpl; [done |].
  by rewrite IH, load_account_cursor.
Qed.

Lemma load_transactions_accounts s l :
  accounts (tally_store (load_transactions s l)) = accounts s.
Proof.
  unfold load_transactions. rewrite load_transactions_fold. simpl.
  revert s. induction l as [|t l IH]; intros s; simpl; [done |].
  by rewrite IH.
Qed.

(** The transaction the loop tracks is the first of the latest date. *)
Lemma latest_transaction_fold l acc :
  match latest_transaction (foldl load_and_track acc l) with
  | None => latest_transaction acc = None ∧ l = []
  | Some t =>
      (latest_transaction acc = Some t ∨ t ∈ l) ∧
      (∀ t', t' ∈ l → txn_date t' ≤ txn_date t) ∧
      (∀ t0, latest_transaction acc = Some t0 → txn_date t0 ≤ txn_date t)
  end.
Proof.
  revert acc. induction l as [|t l IH]; intros acc; simpl.
  - destruct (latest_transaction acc) as [t0|]; [|done].
    split_and!; [by left | by intros ? ?%elem_of_nil |].
    intros ? [= <-]. lia.
  - specialize (IH (load_and_track acc t)).
    destruct (latest_transaction (foldl load_and_track (load_and_track acc t) l))
      as [m|].
    + destruct IH as (Hm & Hmax & Hacc).
      unfold load_and_track in Hm, Hacc.
      destruct (load_transaction t (tally_store acc)) as [s' action].
      simpl in Hm, Hacc.
      destruct (latest_transaction acc) as [t0|].
      * destruct (Z.ltb_spec (txn_date t0) (txn_date t)).
        -- split_and!.
           ++ right. destruct Hm as [[= <-]|?]; [by left | by right].
           ++ intros t' [->|?]%elem_of_cons; [by apply Hacc | by apply Hmax].
           ++ intros ? [= <-]. specialize (Hacc t eq_refl). lia.
        -- split_and!.
           ++ destruct Hm as [[= <-]|?]; [by left | right; by right].
           ++ intros t' [->|?]%elem_of_cons; [|by apply Hmax].
              specialize (Hacc t0 eq_refl). lia.
           ++ intros ? [= <-]. by apply Hacc.
      * split_and!.
        -- right. destruct Hm as [[= <-]|?]; [by left | by right].
        -- intros t' [->|?]%elem_of_cons; [by apply Hacc | by apply Hmax].
        -- done.
    + destruct IH as [Hnone _]. unfold load_and_track in Hnone.
      destruct (load_transaction t (tally_store acc)). simpl in Hnone.
      destruct (latest_transaction acc); [by destruct (_ <? _) | done].
Qed.

Lemma update_account_sync_state_cursor now account_id latest s a :
  cursor_date (update_account_sync_state now account_id latest s) a =
  match latest with
  | Some t =>
      if decide (a = account_id)
      then const (txn_date t) <$> find (fun r => String.eqb (row_id r) a) (accounts s)
      else cursor_date s a
  | None => cursor_date s a
  end.
Proof.
  rewrite !cursor_date_find. unfold update_account_sync_state. simpl.
  rewrite find_update_where by done.
  destruct (find _ (accounts s)) as [r|] eqn:Hfind; simpl;
    [|by destruct latest; [case_decide|]].
  apply find_some in Hfind as [_ Hr%String.eqb_eq].
  destruct latest as [t|]; [|by destruct (String.eqb _ _)].
  case_decide as Ha.
  - by rewrite Hr, Ha, String.eqb_refl.
  - destruct (String.eqb_spec (row_id r) account_id); [congruence | done].
Qed.

Lemma store_account_transactions_store now account_id l s stats :
  fst (store_account_transactions now account_id l (s, stats)) =
  update_account_sync_state now account_id
    (latest_transaction (load_transactions s l))
    (tally_store (load_transactions s l)).
Proof. by destruct l. Qed.

(** One account's turn moves no cursor backward when the transactions it
    stores reach the account's cursor date; the cursor it leaves is the one
    it found or the date of one of these transactions. *)
Lemma store_account_transactions_cursor now account_id l s stats a :
  (l ≠ [] → ∀ d, cursor_date s account_id = Some d →
            ∃ t, t ∈ l ∧ d ≤ txn_date t) →
  let s' := fst (store_account_transactions now account_id l (s, stats)) in
  cursor_le (cursor_date s a) (cursor_date s' a) ∧
  (∀ d, cursor_date s' a = Some d →
        cursor_date s a = Some d ∨
        (a = account_id ∧ ∃ t, t ∈ l ∧ d = txn_date t)).
Proof.
  intros Hreach. cbv zeta. rewrite store_account_transactions_store.
  rewrite update_account_sync_state_cursor.
  rewrite !cursor_date_find, load_transactions_accounts.
  rewrite <-!cursor_date_find.
  pose proof (latest_transaction_fold l
                {| tally_store := s; account_new := 0; account_updated := 0;
                   latest_transaction := None |}) as Hlatest.
  fold (load_transactions s l) in Hlatest.
  destruct (latest_transaction (load_transactions s l)) as [m|];
    [|split; [apply cursor_le_refl | auto]].
  destruct Hlatest as ([?|Hm] & Hmax & _); [done |].
  case_decide as Ha; [subst a|split; [apply cursor_le_refl | auto]].
  assert (l ≠ []) as Hne by (intros ->; by apply elem_of_nil in Hm).
  rewrite cursor_date_find.
  destruct (find _ (accounts s)) as [r|] eqn:Hfind; simpl; [|done].
  split.
  - destruct (row_last_transaction_date r) as [d|] eqn:Hd; simpl; [|done].
    destruct (Hreach Hne d) as (t & Ht & Hle).
    { by rewrite cursor_date_find, Hfind. }
    specialize (Hmax t Ht). lia.
  - intros d [= <-]. right. eauto.
Qed.

Lemma incremental_selection_reaches_cursor fuel source s account_id l :
  select_transactions fuel source incremental s account_id = Some l →
  l ≠ [] → ∀ d, cursor_date s account_id = Some d →
  ∃ t, t ∈ l ∧ d ≤ txn_date t.
Proof.
  simpl. unfold get_new_transactions_for_account, cursor_date.
  destruct (get_all_transactions _ _ _) as [all|]; [|done]. simpl.
  intros Hsel Hne d Hd. rewrite Hd in Hsel. injection Hsel as <-.
  destruct (filter _ all) as [|t l'] eqn:Hf; [done |].
  exists t. split; [by left |].
  assert (t ∈ filter (fun t => is_new s d
            (last_transaction_id (get_account_sync_state s account_id)) t) all)
    as [Hnew _]%list_elem_of_filter by (rewrite Hf; by left).
  apply Is_true_true, is_new_spec in Hnew. destruct Hnew as [?|[? _]]; lia.
Qed.

Lemma sync_accounts_incremental_cursor fuel now source accounts st st' a :
  sync_accounts fuel now source incremental accounts st = Some st' →
  cursor_le (cursor_date (fst st) a) (cursor_date (fst st') a).
Proof.
  revert st. induction accounts as [|account l IH]; intros st; simpl.
  - intros [= <-]. apply cursor_le_refl.
  - destruct (get_new_transactions_for_account _ _ _ _) as [txns|] eqn:Hsel;
      [|done].
    simpl. intros Hrest. eapply cursor_le_trans; [|by apply IH].
    destruct st as [s stats].
    apply store_account_transactions_cursor.
    by apply (incremental_selection_reaches_cursor fuel source).
Qed.

Lemma sync_accounts_full_cursor fuel now source accounts st st' a :
  still_served fuel source (fst st) →
  sync_accounts fuel now source full accounts st = Some st' →
  cursor_le (cursor_date (fst st) a) (cursor_date (fst st') a).
Proof.
  revert st. induction accounts as [|account l IH]; intros st Hserved; simpl.
  - intros [= <-]. apply cursor_le_refl.
  - destruct (get_all_transactions _ _ _) as [txns|] eqn:Hsel; [|done].
    simpl. intros Hrest. destruct st as [s stats].
    assert (txns ≠ [] → ∀ d, cursor_date s (acct_id account) = Some d →
            ∃ t, t ∈ txns ∧ d ≤ txn_date t) as Hreach.
    { intros Hne d Hd. by eapply Hserved. }
    eapply cursor_le_trans; [|apply IH; [|done]].
    + by apply store_account_transactions_cursor.
    + intros a' fetched d Hfetch Hne Hd.
      destruct (store_account_transactions_cursor now (acct_id account) txns
                  s stats a' Hreach) as [_ Hval].
      destruct (Hval d Hd) as [Hold|(-> & t & Ht & ->)].
      * by eapply Hserved.
      * exists t. split; [congruence | lia].
Qed.

(** C9. Cursor monotonicity: an incremental run leaves every account's
    [last_transaction_date] where it was or later; so does a full run when
    every non-empty fetch still holds a transaction dated on or after the
    cursor date of its account. *)
Theorem cursor_monotone (fuel : nat) (now : Z) (source : Source)
    (client_accounts : Exc (list Account)) (force_full : bool) (s s' : Store)
    (result : Exc Stats) (account_id : string) :
  sync_teller_data fuel now source client_accounts force_full s
    = Some (s', result) →
  (decide_sync_type force_full now s = Return full →
   still_served fuel source s) →
  cursor_le (cursor_date s account_id) (cursor_date s' account_id).
Proof.
  unfold sync_teller_data.
  destruct (decide_sync_type force_full now s) as [sync_type|];
    [|intros [= <- _] _; apply cursor_le_refl].
  simpl. destruct client_accounts as [l|];
    [|intros [= <- _] _; apply cursor_le_refl].
  destruct (sync_accounts _ _ _ _ _ _) as [[s1 stats]|] eqn:Hsync; [|done].
  simpl. intros [= <- _] Hserved.
  change (cursor_date (complete_sync_run now (S (length (sync_runs s))) stats s1)
            account_id) with (cursor_date s1 account_id).
  destruct sync_type.
  - apply (sync_accounts_full_cursor _ _ _ _ _ _ account_id) in Hsync.
    + by rewrite load_accounts_cursor in Hsync.
    + intros a fetched d Hfetch Hne Hd. rewrite load_accounts_cursor in Hd.
      by eapply (Hserved eq_refl).
  - apply (sync_accounts_incremental_cursor _ _ _ _ _ _ account_id) in Hsync.
    by rewrite load_accounts_cursor in Hsync.
Qed.

Lemma cursor_monotone_witness :
  cursor_le (cursor_date cursor_store "acc_1")
            (cursor_date (store_after incremental_run) "acc_1").
Proof.
  apply (cursor_monotone 5 (2 * day) cursor_fetch (Return [checking 100000])
           false cursor_store (store_after incremental_run)
           (Return {| accounts_synced := 1; total_transactions := 2;
                      new_transactions := 2; updated_transactions := 0 |})
           "acc_1").
  - vm_compute. reflexivity.
  - vm_compute. discriminate.
Defined.

Example cursor_of_incremental_run :
  cursor_date cursor_store "acc_1" = Some (january_2024 5) ∧
  cursor_date (store_after incremental_run) "acc_1" = Some (january_2024 6).
Proof. split; vm_compute; reflexivity. Qed.

(** Two successful runs in a row, the second a full one against a source
    that no longer serves the latest transaction: the cursor date goes from
    2024-01-06 back to 2024-01-05. *)
Lemma cursor_monotone_counterexample :
  snd <$> run_1 = Some (Return {| accounts_synced := 1; total_transactions := 2;
                                  new_transactions := 2;
                                  updated_transactions := 0 |}) ∧
  snd <$> run_2 = Some (Return {| accounts_synced := 1; total_transactions := 1;
                                  new_transactions := 0;
                                  updated_transactions := 1 |}) ∧
  cursor_date (store_after run_1) "acc_1" = Some (january_2024 6) ∧
  cursor_date (store_after run_2) "acc_1" = Some (january_2024 5) ∧
  ¬ cursor_le (cursor_date (store_after run_1) "acc_1")
              (cursor_date (store_after run_2) "acc_1").
Proof.
  split_and!; try (vm_compute; reflexivity).
  vm_compute. intros H. by apply H.
Qed.

End SyncEngine.

(** ** The balance reconstructor *)

Section Reconstruction.
Import Client BalanceHistory Scenario.

Implicit Types (tba : gmap string (gmap Z (list Entry))).
Implicit Types (m : gmap string Z).

(** *** The grouped dictionary *)

Lemma transactions_on_add_row tba row a d :
  transactions_on (add_row tba row) a d =
  transactions_on tba a d ++
  (if decide (txn_account_id row = a ∧ txn_date row = d)
   then [entry_of row] else []).
Proof.
  unfold add_row, transactions_on.
  destruct (decide (txn_account_id row = a)) as [->|Ha].
  - rewrite lookup_insert_eq.
    destruct (decide (txn_date row = d)) as [->|Hd].
    + rewrite lookup_insert_eq, decide_True by done. simpl.
      destruct (tba !! _) as [by_date|]; simpl; by rewrite ?lookup_empty.
    + rewrite lookup_insert_ne, decide_False by tauto.
      rewrite app_nil_r.
      destruct (tba !! _) as [by_date|]; simpl; by rewrite ?lookup_empty.
  - rewrite lookup_insert_ne by done. rewrite decide_False by tauto.
    by rewrite app_nil_r.
Qed.

Lemma transactions_on_fold rows tba a d :
  transactions_on (foldl add_row tba rows) a d =
  transactions_on tba a d ++
  (entry_of <$> filter (fun t => txn_account_id t = a ∧ txn_date t = d) rows).
Proof.
  revert tba. induction rows as [|row rows IH]; intros tba; simpl.
  - by rewrite app_nil_r.
  - rewrite IH, transactions_on_add_row, filter_cons.
    case_decide; simpl; [by rewrite <-app_assoc | by rewrite app_nil_r].
Qed.

Lemma transactions_on_store s a d :
  transactions_on (get_transactions_by_account_and_date s) a d =
  entry_of <$> filter (fun t => txn_account_id t = a ∧ txn_date t = d)
                      (posted_transactions s).
Proof.
  unfold get_transactions_by_account_and_date.
  rewrite transactions_on_fold. unfold transactions_on.
  by rewrite lookup_empty.
Qed.

Lemma sum_amounts_entries (l : list Transaction) :
  sum_amounts (entry_of <$> l) = foldr Z.add 0 (txn_amount <$> l).
Proof.
  unfold sum_amounts. induction l as [|t l IH]; [done |].
  rewrite !fmap_cons, !foldr_cons, IH. done.
Qed.

(** What the replay subtracts on a day is the day's net change of the
    store. *)
Lemma net_store s a d :
  net (get_transactions_by_account_and_date s) a d = daily_net_change s a d.
Proof.
  unfold net, daily_net_change.
  by rewrite transactions_on_store, sum_amounts_entries.
Qed.

(** *** One day *)

Lemma subtract_fold a (l : list Entry) m :
  let m' := foldl (fun balances transaction =>
                     <[a := default 0 (balances !! a) - amount transaction]>
                       balances) m l in
  balance_of m' a = balance_of m a - sum_amounts l ∧
  (∀ k, k ≠ a → m' !! k = m !! k) ∧
  (∀ k, is_Some (m !! k) → is_Some (m' !! k)).
Proof.
  revert m. induction l as [|t l IH]; intros m; simpl.
  - split_and!; [unfold balance_of; lia | done | done].
  - destruct (IH (<[a := default 0 (m !! a) - amount t]> m)) as (Hb & Hk & Hs).
    split_and!.
    + rewrite Hb. unfold balance_of at 1. rewrite lookup_insert_eq. simpl.
      unfold balance_of. lia.
    + intros k Hne. rewrite Hk by done. by rewrite lookup_insert_ne.
    + intros k Hsome. apply Hs.
      destruct (decide (a = k)) as [->|];
        [by rewrite lookup_insert_eq | by rewrite lookup_insert_ne].
Qed.

Lemma daily_change_sum (l : list Entry) :
  match l with
  | [] => 0
  | _ :: _ => sum_amounts l
  end = sum_amounts l.
Proof. by destruct l. Qed.

Lemma visit_account_spec tba d m out item :
  ∃ m',
    visit_account tba d (m, out) item =
      (m', out ++ [record_at tba m d d item]) ∧
    balance_of m' item.1 = balance_of m item.1 - net tba item.1 d ∧
    (∀ k, k ≠ item.1 → m' !! k = m !! k) ∧
    (∀ k, is_Some (m !! k) → is_Some (m' !! k)).
Proof.
  destruct item as [a info]. unfold visit_account.
  destruct (subtract_fold a (transactions_on tba a d) m) as (Hb & Hk & Hs).
  eexists. split_and!; [|exact Hb|exact Hk|exact Hs].
  f_equal. f_equal. f_equal. unfold record_at, net_after, net. simpl.
  rewrite daily_change_sum, Z.sub_diag. simpl.
  f_equal. unfold balance_of. lia.
Qed.

Lemma record_at_ext tba m1 m2 latest1 latest2 d item :
  balance_of m1 item.1 - net_after tba item.1 d latest1 =
  balance_of m2 item.1 - net_after tba item.1 d latest2 →
  record_at tba m1 latest1 d item = record_at tba m2 latest2 d item.
Proof. unfold record_at. by intros ->. Qed.

Lemma visit_day_spec tba d accounts m out :
  NoDup (accounts.*1) →
  ∃ m',
    visit_day accounts tba d (m, out) =
      (m', out ++ (record_at tba m d d <$> accounts)) ∧
    (∀ k, k ∈ accounts.*1 → balance_of m' k = balance_of m k - net tba k d) ∧
    (∀ k, k ∉ accounts.*1 → m' !! k = m !! k) ∧
    (∀ k, is_Some (m !! k) → is_Some (m' !! k)).
Proof.
  unfold visit_day. revert m out.
  induction accounts as [|item accounts IH]; intros m out Hnd; cbn [foldl].
  - exists m. simpl. rewrite app_nil_r. split_and!; [done | | done | done].
    by intros k ?%elem_of_nil.
  - apply NoDup_cons in Hnd as [Hfresh Hnd].
    destruct (visit_account_spec tba d m out item) as (m1 & -> & Hb1 & Hk1 & Hs1).
    destruct (IH m1 (out ++ [record_at tba m d d item]) Hnd)
      as (m' & -> & Hb & Hk & Hs).
    exists m'. split_and!.
    + rewrite <-app_assoc, fmap_cons. simpl. do 3 f_equal.
      apply list_fmap_ext. intros i x Hx%list_elem_of_lookup_2.
      apply record_at_ext. f_equal. unfold balance_of.
      rewrite Hk1; [done |]. intros Heq. apply Hfresh. rewrite <-Heq.
      by apply list_elem_of_fmap_2.
    + intros k [->|Hin]%elem_of_cons.
      * unfold balance_of at 1. rewrite Hk by done. apply Hb1.
      * rewrite Hb by done. unfold balance_of at 1.
        rewrite Hk1; [done |]. by intros ->.
    + intros k Hk'. apply not_elem_of_cons in Hk' as [Hne Hnotin].
      rewrite Hk by done. by apply Hk1.
    + intros k Hsome. by apply Hs, Hs1.
Qed.

(** The balances are read under keys that are there. *)
Lemma visit_day_dom tba d accounts m out k :
  NoDup (accounts.*1) → is_Some (m !! k) →
  is_Some ((visit_day accounts tba d (m, out)).1 !! k).
Proof.
  intros Hnd Hk.
  destruct (visit_day_spec tba d accounts m out Hnd) as (m' & -> & _ & _ & Hs).
  by apply Hs.
Qed.

(** *** The walk down the days *)

Lemma replay_go accounts tba earliest c st :
  earliest ≤ c →
  replay accounts tba earliest c st =
  replay accounts tba earliest (c - 1) (visit_day accounts tba c st).
Proof.
  intros Hle. rewrite replay_equation_1.
  destruct (decide (earliest ≤ c)); [|done].
  by rewrite replay_clause_1_equation_1.
Qed.

Lemma replay_stop accounts tba earliest c st :
  c < earliest → replay accounts tba earliest c st = st.
Proof.
  intros Hlt. rewrite replay_equation_1.
  destruct (decide (earliest ≤ c)); [lia | done].
Qed.

Lemma net_after_top tba a d c :
  d < c → net_after tba a d c = net tba a c + net_after tba a d (c - 1).
Proof.
  intros Hlt. unfold net_after.
  replace (Z.to_nat (c - d)) with (S (Z.to_nat (c - 1 - d))) by lia.
  done.
Qed.

Lemma net_down_bottom tba a n c :
  net_down tba a (S n) c = net_down tba a n c + net tba a (c - Z.of_nat n).
Proof.
  revert c. induction n as [|n IH]; intros c.
  - simpl. rewrite Z.sub_0_r. lia.
  - change (net_down tba a (S (S n)) c)
      with (net tba a c + net_down tba a (S n) (c - 1)).
    rewrite IH. simpl net_down.
    replace (c - 1 - Z.of_nat n) with (c - Z.of_nat (S n)) by lia. lia.
Qed.

Lemma net_after_bottom tba a d c :
  d ≤ c → net_after tba a (d - 1) c = net_after tba a d c + net tba a d.
Proof.
  intros Hle. unfold net_after.
  replace (Z.to_nat (c - (d - 1))) with (S (Z.to_nat (c - d))) by lia.
  rewrite net_down_bottom. do 2 f_equal. lia.
Qed.

Lemma elem_of_days_down n c d :
  d ∈ days_down n c ↔ c - Z.of_nat n < d ≤ c.
Proof.
  revert c. induction n as [|n IH]; intros c; simpl.
  - split; [by intros ?%elem_of_nil | lia].
  - rewrite elem_of_cons, IH. lia.
Qed.

Lemma bind_ext_elem {A B : Type} (f g : A → list B) (l : list A) :
  (∀ x, x ∈ l → f x = g x) → l ≫= f = l ≫= g.
Proof.
  induction l as [|x l IH]; intros Hfg; [done |]. csimpl.
  rewrite Hfg by by left. f_equal. apply IH.
  intros y Hy. apply Hfg. by right.
Qed.

Lemma replay_spec accounts tba earliest n c m out :
  NoDup (accounts.*1) →
  Z.of_nat n = Z.max 0 (c - earliest + 1) →
  (replay accounts tba earliest c (m, out)).2 =
  out ++ (days_down n c ≫= fun d => record_at tba m c d <$> accounts).
Proof.
  intros Hnd. revert c m out.
  induction n as [|n IH]; intros c m out Hn.
  - rewrite replay_stop by lia. simpl. by rewrite app_nil_r.
  - rewrite replay_go by lia.
    destruct (visit_day_spec tba c accounts m out Hnd) as (m1 & -> & Hb & _).
    rewrite (IH (c - 1) m1) by lia. rewrite <-app_assoc. simpl. do 2 f_equal.
    apply bind_ext_elem. intros d Hd%elem_of_days_down.
    apply list_fmap_ext. intros i x Hx%list_elem_of_lookup_2.
    apply record_at_ext. rewrite (net_after_top tba x.1 d c) by lia.
    rewrite Hb; [lia |]. by apply list_elem_of_fmap_2.
Qed.

(** *** The accounts dictionary and the date range *)

Lemma dict_set_keys {V : Type} k (v : V) (d : list (string * V)) :
  (dict_set k v d).*1 = if decide (k ∈ d.*1) then d.*1 else d.*1 ++ [k].
Proof.
  induction d as [|[k' v'] d IH].
  - rewrite decide_False; [done | by intros ?%elem_of_nil].
  - cbn [dict_set]. rewrite (fmap_cons fst _ d). cbn [fst].
    destruct (String.eqb_spec k' k) as [->|Hne].
    + rewrite decide_True; [done | by left].
    + rewrite fmap_cons, IH. cbn [fst].
      destruct (decide (k ∈ d.*1)) as [Hin|Hnotin].
      * rewrite decide_True; [done | by right].
      * rewrite decide_False; [done |].
        intros [?|?]%elem_of_cons; [congruence | done].
Qed.

Lemma dict_set_NoDup {V : Type} k (v : V) (d : list (string * V)) :
  NoDup (d.*1) → NoDup ((dict_set k v d).*1).
Proof.
  intros Hnd. rewrite dict_set_keys. case_decide as Hk; [done |].
  apply NoDup_app. split_and!; [done | | apply NoDup_singleton].
  by intros x Hx ->%list_elem_of_singleton.
Qed.

Lemma dict_set_elem {V : Type} k0 (v0 : V) (d : list (string * V)) k v :
  NoDup (d.*1) →
  (k, v) ∈ dict_set k0 v0 d ↔ (k = k0 ∧ v = v0) ∨ (k ≠ k0 ∧ (k, v) ∈ d).
Proof.
  induction d as [|[k' v'] d IH]; intros Hnd; simpl.
  - rewrite list_elem_of_singleton. split.
    + intros [= -> ->]. by left.
    + intros [[-> ->]|[_ ?%elem_of_nil]]; done.
  - apply NoDup_cons in Hnd as [Hfresh Hnd].
    destruct (String.eqb_spec k' k0) as [->|Hne]; rewrite !elem_of_cons.
    + split.
      * intros [[= -> ->]|Hin]; [by left | right].
        split; [|by right]. intros ->. apply Hfresh.
        by apply (list_elem_of_fmap_2 fst) in Hin.
      * intros [[-> ->]|[Hk [[= ? ?]|Hin]]]; [by left | done | by right].
    + rewrite IH by done. split.
      * intros [[= -> ->]|[[-> ->]|[? ?]]];
          [right; split; [done | by left] | by left | right; split; [done | by right]].
      * intros [[-> ->]|[? [[= -> ->]|?]]];
          [right; by left | by left | right; right; by split].
Qed.

Lemma elem_of_open_accounts s row i :
  (row, i) ∈ open_accounts s ↔
  row ∈ accounts s ∧ i ∈ institutions s ∧
  row_status row = OPEN ∧ row_institution_id row = inst_id i.
Proof.
  unfold open_accounts. rewrite list_elem_of_bind. split.
  - intros (a & (i' & Hi & Hin)%list_elem_of_bind & Ha).
    case_bool_decide as Hopen; simpl in Hi;
      [|by apply elem_of_nil in Hi].
    destruct (String.eqb_spec (row_institution_id a) (inst_id i')) as [Heq|];
      [|by apply elem_of_nil in Hi].
    apply list_elem_of_singleton in Hi as [= -> ->]. done.
  - intros (Ha & Hi & Hopen & Heq). exists row. split; [|done].
    apply list_elem_of_bind. exists i. split; [|done].
    rewrite bool_decide_eq_true_2 by done. rewrite Heq, String.eqb_refl.
    by left.
Qed.

(** The dictionary of [get_accounts_with_current_balance]: one entry per
    account id, each built from a row of the join. *)
Lemma accounts_dictionary s :
  NoDup ((get_accounts_with_current_balance s).*1) ∧
  (∀ a info, (a, info) ∈ get_accounts_with_current_balance s →
     ∃ row i, (row, i) ∈ open_accounts s ∧ row_id row = a ∧
              current_balance info = balance_or_zero (row_balance_amount row)) ∧
  (∀ row i, (row, i) ∈ open_accounts s →
     row_id row ∈ (get_accounts_with_current_balance s).*1).
Proof.
  unfold get_accounts_with_current_balance.
  induction (open_accounts s) as [|[row i] rows IH] using rev_ind.
  - split_and!; [constructor | by intros ? ? ?%elem_of_nil
                 | by intros ? ? ?%elem_of_nil].
  - rewrite foldl_app. cbn [foldl]. destruct IH as (Hnd & Hfrom & Hto).
    split_and!.
    + by apply dict_set_NoDup.
    + intros a info [[-> ->]|[_ Hin]]%dict_set_elem; [| |done].
      * exists row, i. split_and!; [|done|done].
        apply elem_of_app. right. by left.
      * destruct (Hfrom a info Hin) as (row' & i' & ? & ? & ?).
        exists row', i'. split_and!; [|done|done].
        apply elem_of_app. by left.
    + intros row' i' Hin. rewrite dict_set_keys.
      set (dict := foldl _ [] rows) in *.
      assert (row_id row' ∈ dict.*1 ∨ row_id row' = row_id row) as Hcase.
      { apply elem_of_app in Hin as [Hin| [= -> ->]%list_elem_of_singleton];
          [left; by eapply Hto | by right]. }
      case_decide as Hk.
      * by destruct Hcase as [?| ->].
      * apply elem_of_app. destruct Hcase as [?| ->]; [by left | right; by left].
Qed.

Lemma initial_balances_spec (accounts : list (string * AccountInfo)) a info :
  NoDup (accounts.*1) → (a, info) ∈ accounts →
  initial_balances accounts !! a = Some (current_balance info).
Proof.
  unfold initial_balances.
  induction accounts as [|[a' info'] accounts IH] using rev_ind;
    [by intros _ ?%elem_of_nil |].
  rewrite fmap_app, foldl_app. cbn [foldl fmap list_fmap].
  intros (Hnd & Hfresh & _)%NoDup_app [Hin| [= -> ->]%list_elem_of_singleton]%elem_of_app.
  - rewrite lookup_insert_ne; [by apply IH |].
    intros <-. eapply Hfresh; [|by left].
    by apply (list_elem_of_fmap_2 fst) in Hin.
  - by rewrite lookup_insert_eq.
Qed.

Lemma balance_or_zero_default b : balance_or_zero b = default 0 b.
Proof.
  destruct b as [b|]; simpl; [|done]. by destruct (Z.eqb_spec b 0).
Qed.

Lemma foldl_min_le l x y : y = x ∨ y ∈ l → foldl Z.min x l ≤ y.
Proof.
  revert x y. induction l as [|z l IH]; intros x y; simpl.
  - intros [->|?%elem_of_nil]; [lia | done].
  - intros [->|[->|Hin]%elem_of_cons].
    + etrans; [apply (IH (Z.min x z)); by left | lia].
    + etrans; [apply (IH (Z.min x z)); by left | lia].
    + apply IH. by right.
Qed.

Lemma foldl_max_ge l x y : y = x ∨ y ∈ l → y ≤ foldl Z.max x l.
Proof.
  revert x y. induction l as [|z l IH]; intros x y; simpl.
  - intros [->|?%elem_of_nil]; [lia | done].
  - intros [->|[->|Hin]%elem_of_cons].
    + etrans; [|apply (IH (Z.max x z)); by left]. lia.
    + etrans; [|apply (IH (Z.max x z)); by left]. lia.
    + apply IH. by right.
Qed.

Lemma sql_min_le l e x : sql_min l = Some e → x ∈ l → e ≤ x.
Proof.
  destruct l as [|y l]; [done |]. simpl. intros [= <-] Hin.
  apply foldl_min_le. by apply elem_of_cons in Hin.
Qed.

Lemma sql_max_ge l latest x : sql_max l = Some latest → x ∈ l → x ≤ latest.
Proof.
  destruct l as [|y l]; [done |]. simpl. intros [= <-] Hin.
  apply foldl_max_ge. by apply elem_of_cons in Hin.
Qed.

(** Either the store has no posted transaction and both dates are [NULL],
    or both are there and span the dates of the posted transactions. *)
Lemma date_range_cases s :
  (posted_transactions s = [] ∧ get_date_range s = (None, None)) ∨
  (∃ earliest latest,
     get_date_range s = (Some earliest, Some latest) ∧ earliest ≤ latest ∧
     ∀ t, t ∈ posted_transactions s → earliest ≤ txn_date t ≤ latest).
Proof.
  unfold get_date_range.
  destruct (posted_transactions s) as [|t0 l]; [by left | right].
  set (dates := txn_date <$> t0 :: l).
  destruct (sql_min dates) as [e|] eqn:Hmin; [|done].
  destruct (sql_max dates) as [latest|] eqn:Hmax; [|done].
  exists e, latest. split; [done |].
  assert (∀ t, t ∈ t0 :: l → e ≤ txn_date t ≤ latest) as Hspan.
  { intros t Ht. apply (list_elem_of_fmap_2 txn_date) in Ht.
    split; [by eapply sql_min_le | by eapply sql_max_ge]. }
  split; [|done]. specialize (Hspan t0 ltac:(by left)). lia.
Qed.

(** *** The series *)

Lemma reconstruct_spec s earliest latest :
  get_date_range s = (Some earliest, Some latest) →
  reconstruct_daily_balances s = Return (series s earliest latest).
Proof.
  intros Hrange. unfold reconstruct_daily_balances. rewrite Hrange.
  f_equal. fold (initial_balances (get_accounts_with_current_balance s)).
  rewrite (replay_spec _ _ _ (Z.to_nat (latest - earliest + 1))); [done | | lia].
  apply accounts_dictionary.
Qed.

Lemma reconstruct_raises s :
  posted_transactions s = [] → reconstruct_daily_balances s = Raise.
Proof.
  intros Hnone. unfold reconstruct_daily_balances, get_date_range.
  by rewrite Hnone.
Qed.

Lemma elem_of_series s earliest latest r :
  r ∈ series s earliest latest ↔
  ∃ d item,
    earliest ≤ d ≤ latest ∧ item ∈ get_accounts_with_current_balance s ∧
    r = record_at (get_transactions_by_account_and_date s)
          (initial_balances (get_accounts_with_current_balance s)) latest d item.
Proof.
  unfold series. rewrite list_elem_of_bind. split.
  - intros (d & (item & -> & Hitem)%list_elem_of_fmap & Hd%elem_of_days_down).
    exists d, item. split; [lia | done].
  - intros (d & item & Hd & Hitem & ->). exists d. split.
    + by apply list_elem_of_fmap_2.
    + apply elem_of_days_down. lia.
Qed.

Lemma balance_of_initial s item :
  item ∈ get_accounts_with_current_balance s →
  balance_of (initial_balances (get_accounts_with_current_balance s)) item.1
  = current_balance item.2.
Proof.
  intros Hitem. unfold balance_of.
  rewrite (initial_balances_spec _ item.1 item.2); [done | |by destruct item].
  apply accounts_dictionary.
Qed.

Lemma reconstruct_returns s out :
  reconstruct_daily_balances s = Return out →
  ∃ earliest latest,
    get_date_range s = (Some earliest, Some latest) ∧ earliest ≤ latest ∧
    out = series s earliest latest.
Proof.
  destruct (date_range_cases s) as [[Hnone _]|(e & l & Hrange & Hle & _)].
  - by rewrite reconstruct_raises.
  - rewrite (reconstruct_spec s e l Hrange). intros [= <-]. eauto.
Qed.

(** The delta law of the replay in decimal arithmetic: on cents, where no
    operation rounds, the balance of an account at the end of day [d]
    exceeds its balance at the end of day [d - 1] by the record's daily
    change, which is the signed sum of the account's posted amounts on day
    [d].  The program replays on floats; what it keeps of this law is
    [delta_law_up_to_rounding] below. *)
Lemma decimal_delta_law (s : Store) (out : list DailyBalance) (r r' : DailyBalance) :
  reconstruct_daily_balances s = Return out →
  r ∈ out → r' ∈ out →
  account_id r' = account_id r → date r' = date r - 1 →
  end_of_day_balance r - end_of_day_balance r' = daily_change r ∧
  daily_change r = daily_net_change s (account_id r) (date r).
Proof.
  intros (e & l & _ & _ & ->)%reconstruct_returns.
  intros (d & item & Hd & Hitem & ->)%elem_of_series.
  intros (d' & item' & Hd' & Hitem' & ->)%elem_of_series.
  simpl. intros Hacc ->. rewrite Hacc.
  rewrite (net_after_bottom _ _ d l) by lia.
  rewrite net_store. split; [lia | done].
Qed.

Lemma NoDup_fmap_eq {A B : Type} (f : A → B) (l : list A) x y :
  NoDup (f <$> l) → x ∈ l → y ∈ l → f x = f y → x = y.
Proof.
  induction l as [|z l IH]; [by intros _ ?%elem_of_nil |].
  rewrite fmap_cons. intros [Hfresh Hnd]%NoDup_cons.
  intros [->|Hx]%elem_of_cons [->|Hy]%elem_of_cons Heq; [done | | |by apply IH].
  - destruct Hfresh. rewrite Heq. by apply list_elem_of_fmap_2.
  - destruct Hfresh. rewrite <-Heq. by apply list_elem_of_fmap_2.
Qed.

Lemma net_after_same tba a d : net_after tba a d d = 0.
Proof. unfold net_after. by rewrite Z.sub_diag. Qed.

(** The entry of an open account of a table with distinct ids carries the
    balance of the account's row, zero for [NULL]. *)
Lemma dictionary_balance s row item :
  NoDup (row_id <$> accounts s) → row ∈ accounts s →
  item ∈ get_accounts_with_current_balance s → item.1 = row_id row →
  current_balance item.2 = default 0 (row_balance_amount row).
Proof.
  intros Hnd Hrow Hitem Hid. destruct item as [a info]. simpl in *.
  destruct (accounts_dictionary s) as (_ & Hfrom & _).
  destruct (Hfrom a info Hitem) as (row' & i' & Hopen & Hid' & ->).
  apply elem_of_open_accounts in Hopen as (Hrow' & _).
  rewrite (NoDup_fmap_eq row_id (accounts s) row' row); [| done .. | congruence].
  apply balance_or_zero_default.
Qed.

Lemma dictionary_entry s row i :
  row ∈ accounts s → i ∈ institutions s → row_status row = OPEN →
  inst_id i = row_institution_id row →
  ∃ info, (row_id row, info) ∈ get_accounts_with_current_balance s.
Proof.
  intros Hrow Hi Hopen Hinst.
  destruct (accounts_dictionary s) as (_ & _ & Hto).
  assert ((row, i) ∈ open_accounts s) as Hin%Hto
    by by apply elem_of_open_accounts.
  apply list_elem_of_fmap in Hin as ([a info] & Heq & Hin).
  simpl in Heq. subst a. eauto.
Qed.



Lemma scenario_reconstruction_value :
  reconstruct_daily_balances replay_store =
  Return [checking_on (january_2024 5) 100000 1 20000;
          checking_on (january_2024 4) 80000 0 0;
          checking_on (january_2024 3) 80000 1 (-5000)].
Proof. vm_compute. reflexivity. Qed.

(** C3. The scenario of the specification (balance 1000.00, -50.00 on
    2024-01-03, +200.00 on 2024-01-05, nothing else in the store)
    reconstructs to exactly three records: 1000.00 on 2024-01-05, 800.00 on
    2024-01-04 and 800.00 on 2024-01-03. *)
Theorem scenario_reconstruction :
  reconstruct_daily_balances replay_store =
  Return [checking_on (january_2024 5) 100000 1 20000;
          checking_on (january_2024 4) 80000 0 0;
          checking_on (january_2024 3) 80000 1 (-5000)].
Proof. vm_compute. reflexivity. Qed.

(** The walk stops at the earliest transaction date: the series of the
    scenario has no record for 2024-01-02, so it is not the four-record
    series with 850.00 on that day. *)
Lemma scenario_reconstruction_counterexample :
  ∃ out,
    reconstruct_daily_balances replay_store = Return out ∧
    (fun r => (date r, end_of_day_balance r)) <$> out ≠
      [(january_2024 5, 100000); (january_2024 4, 80000);
       (january_2024 3, 80000); (january_2024 2, 85000)] ∧
    ¬ ∃ r, r ∈ out ∧ date r = january_2024 2.
Proof.
  eexists. split; [apply scenario_reconstruction_value |].
  split; [by vm_compute |].
  intros (r & Hr & Hdate). revert Hdate.
  repeat (apply elem_of_cons in Hr as [->|Hr]; [by vm_compute |]).
  by apply elem_of_nil in Hr.
Qed.

Lemma no_history s a d :
  (∀ t, t ∈ posted_transactions s → txn_account_id t ≠ a) →
  transactions_on (get_transactions_by_account_and_date s) a d = [].
Proof.
  intros Hnone. rewrite transactions_on_store.
  destruct (filter _ (posted_transactions s)) as [|t l] eqn:Hf; [done |].
  assert (t ∈ filter (fun t => txn_account_id t = a ∧ txn_date t = d)
                     (posted_transactions s)) as [[Ha _] Ht]%list_elem_of_filter
    by (rewrite Hf; by left).
  by destruct (Hnone t Ht).
Qed.

Lemma net_down_zero tba a n c :
  (∀ d, net tba a d = 0) → net_down tba a n c = 0.
Proof.
  intros Hzero. revert c. induction n as [|n IH]; intros c; simpl; [done |].
  rewrite Hzero, IH. done.
Qed.

(** C4. Missing anchor, empty transaction set: on a store with posted
    transactions every open account has a record on every day of the range;
    the series of an account whose balance is [NULL] is anchored at zero,
    and the series of an account without posted transactions holds the
    account's balance on every day, with no transaction and no change. *)
Theorem reconstruction_without_anchor_or_history (s : Store)
    (row : AccountRow) (earliest latest : Z) :
  NoDup (row_id <$> accounts s) →
  row ∈ accounts s → row_status row = OPEN →
  (∃ i, i ∈ institutions s ∧ inst_id i = row_institution_id row) →
  get_date_range s = (Some earliest, Some latest) →
  ∃ out,
    reconstruct_daily_balances s = Return out ∧
    (∀ d, earliest ≤ d ≤ latest →
          ∃ r, r ∈ out ∧ account_id r = row_id row ∧ date r = d) ∧
    (row_balance_amount row = None →
     ∀ r, r ∈ out → account_id r = row_id row → date r = latest →
          end_of_day_balance r = 0) ∧
    ((∀ t, t ∈ posted_transactions s → txn_account_id t ≠ row_id row) →
     ∀ r, r ∈ out → account_id r = row_id row →
          end_of_day_balance r = default 0 (row_balance_amount row) ∧
          transaction_count r = 0%nat ∧ daily_change r = 0).
Proof.
  intros Hnd Hrow Hopen (i & Hi & Hinst) Hrange.
  rename earliest into e, latest into l.
  exists (series s e l). split_and!.
  - by apply reconstruct_spec.
  - intros d Hd. destruct (dictionary_entry s row i) as (info & Hinfo); [done .. |].
    exists (record_at (get_transactions_by_account_and_date s)
              (initial_balances (get_accounts_with_current_balance s)) l d
              (row_id row, info)).
    split_and!; [|done|done].
    apply elem_of_series. by exists d, (row_id row, info).
  - intros Hnull r (d & item & Hd & Hitem & ->)%elem_of_series. simpl.
    intros Hid ->. rewrite net_after_same, balance_of_initial by done.
    rewrite (dictionary_balance s row item) by done. rewrite Hnull. done.
  - intros Hnone r (d & item & Hd & Hitem & ->)%elem_of_series. simpl.
    intros Hid. rewrite Hid.
    assert (∀ d, net (get_transactions_by_account_and_date s) (row_id row) d = 0)
      as Hzero by (intros d'; unfold net; by rewrite no_history).
    unfold net_after. rewrite net_down_zero, Hzero by done.
    rewrite no_history by done. rewrite <-Hid, balance_of_initial by done.
    rewrite (dictionary_balance s row item) by done. split_and!; [lia | done | done].
Qed.

Lemma reconstruction_without_anchor_or_history_witness :
  ∃ out,
    reconstruct_daily_balances unanchored_store = Return out ∧
    (∀ d, january_2024 3 ≤ d ≤ january_2024 5 →
          ∃ r, r ∈ out ∧ account_id r = "acc_2" ∧ date r = d) ∧
    ∀ r, r ∈ out → account_id r = "acc_2" →
         end_of_day_balance r = 50000 ∧
         transaction_count r = 0%nat ∧ daily_change r = 0.
Proof.
  destruct (reconstruction_without_anchor_or_history unanchored_store
              (savings_row (Some 50000)) (january_2024 3) (january_2024 5))
    as (out & Hout & Hdays & _ & Hflat).
  - apply (bool_decide_unpack _). vm_compute. exact I.
  - right. by left.
  - reflexivity.
  - exists bank. split; [by left | reflexivity].
  - vm_compute. reflexivity.
  - exists out. split_and!; [done | done |].
    apply Hflat. intros t Ht.
    repeat (apply elem_of_cons in Ht as [->|Ht]; [by vm_compute |]).
    by apply elem_of_nil in Ht.
Defined.

(** The series of the checking account without a balance and of the savings
    account without transactions: both accounts get a record on each of the
    three days, the first anchored at 0.00, the second held at 500.00. *)
Lemma reconstruction_without_anchor_or_history_counterexample :
  row_balance_amount (checking_row None None) = None ∧
  filter (fun t => txn_account_id t = "acc_2")
         (posted_transactions unanchored_store) = [] ∧
  ∃ out,
    reconstruct_daily_balances unanchored_store = Return out ∧
    (fun r => (account_id r, date r, end_of_day_balance r)) <$> out =
      [("acc_1", january_2024 5, 0); ("acc_2", january_2024 5, 50000);
       ("acc_1", january_2024 4, -20000); ("acc_2", january_2024 4, 50000);
       ("acc_1", january_2024 3, -20000); ("acc_2", january_2024 3, 50000)].
Proof.
  split_and!; [done | by vm_compute |].
  eexists. split; vm_compute; reflexivity.
Qed.

End Reconstruction.

(** * Further properties *)

(** ** Upserts *)

Section Upserts.
Import Client Sync Scenario.

Lemma upsert_absent {R : Type} (key : R → string) k fresh update (table : list R) :
  k ∉ key <$> table → upsert key k fresh update table = table ++ [fresh].
Proof.
  induction table as [|r table IH]; [done |].
  rewrite fmap_cons. intros [Hne Hnotin]%not_elem_of_cons. simpl.
  destruct (String.eqb_spec (key r) k); [congruence |].
  by rewrite IH.
Qed.

Lemma upsert_length {R : Type} (key : R → string) k fresh update (table : list R) :
  length (upsert key k fresh update table) =
  if decide (k ∈ key <$> table) then length table else S (length table).
Proof.
  induction table as [|r table IH].
  - rewrite decide_False; [done | by intros ?%elem_of_nil].
  - cbn [upsert]. rewrite fmap_cons.
    destruct (String.eqb_spec (key r) k) as [<-|Hne].
    + rewrite decide_True; [done | by left].
    + cbn [length]. rewrite IH.
      destruct (decide (k ∈ key <$> table)).
      * rewrite decide_True; [done | by right].
      * rewrite decide_False; [done |].
        intros [?|?]%elem_of_cons; [congruence | done].
Qed.

Lemma upsert_twice {R : Type} (key : R → string) k fresh update (table : list R) :
  key fresh = k → (∀ r, key (update r) = key r) →
  update fresh = fresh → (∀ r, update (update r) = update r) →
  upsert key k fresh update (upsert key k fresh update table)
  = upsert key k fresh update table.
Proof.
  intros Hfresh Hkey Hfix Hidem. induction table as [|r table IH]; simpl.
  - by rewrite Hfresh, String.eqb_refl, Hfix.
  - destruct (String.eqb_spec (key r) k) as [Hk|Hk]; simpl.
    + by rewrite Hkey, Hk, String.eqb_refl, Hidem.
    + destruct (String.eqb_spec (key r) k); [done |]. by rewrite IH.
Qed.

Lemma upsert_keys_NoDup {R : Type} (key : R → string) k fresh update (table : list R) :
  key fresh = k → (∀ r, key (update r) = key r) →
  NoDup (key <$> table) → NoDup (key <$> upsert key k fresh update table).
Proof.
  intros Hfresh Hkey. induction table as [|r table IH]; simpl.
  - intros _. rewrite Hfresh. apply NoDup_singleton.
  - intros [Hnotin Hnd]%NoDup_cons.
    destruct (String.eqb_spec (key r) k) as [Hk|Hk]; simpl.
    + rewrite Hkey. by apply NoDup_cons.
    + apply NoDup_cons. split; [|by apply IH].
      rewrite upsert_keys by done. intros [?|?]; [done | congruence].
Qed.

Lemma update_where_keys {R : Type} (key : R → string) hit update (table : list R) :
  (∀ r, key (update r) = key r) →
  key <$> update_where hit update table = key <$> table.
Proof.
  intros Hkey. unfold update_where. induction table as [|r table IH]; [done |].
  cbn [map]. rewrite !fmap_cons. f_equal; [|done].
  destruct (hit r); auto.
Qed.

Lemma transaction_exists_ids s t :
  transaction_exists s (txn_id t) = bool_decide (txn_id t ∈ transaction_ids s).
Proof.
  unfold transaction_ids. destruct (transaction_exists s (txn_id t)) eqn:He.
  - apply transaction_exists_spec in He. by rewrite bool_decide_eq_true_2.
  - rewrite bool_decide_eq_false_2; [done |].
    intros Hin%transaction_exists_spec. congruence.
Qed.

Lemma refresh_transaction_idem t r :
  refresh_transaction t (refresh_transaction t r) = refresh_transaction t r.
Proof. done. Qed.

Lemma refresh_transaction_self t : refresh_transaction t t = t.
Proof. by destruct t. Qed.

(** X1. Idempotent upsert: loading a transaction a second time leaves the
    store as the first load left it and reports [updated]; the first load
    reports [new] exactly when no row had the id, and then adds the
    transaction as one row at the end of the table. *)
Theorem load_transaction_idempotent (t : Transaction) (s : Store) :
  let first := load_transaction t s in
  let second := load_transaction t first.1 in
  second.1 = first.1 ∧ second.2 = updated ∧
  (first.2 = new ↔ txn_id t ∉ transaction_ids s) ∧
  (txn_id t ∉ transaction_ids s → transactions first.1 = transactions s ++ [t]).
Proof.
  cbv zeta. split_and!.
  - unfold load_transaction. cbn [fst with_transactions transactions
      institutions accounts sync_runs].
    rewrite upsert_twice;
      [done | done | done | apply refresh_transaction_self
       | apply refresh_transaction_idem].
  - unfold load_transaction at 1. cbn [snd].
    rewrite transaction_exists_ids. rewrite bool_decide_eq_true_2; [done |].
    unfold transaction_ids, load_transaction. cbn [fst with_transactions transactions].
    apply upsert_keys; auto.
  - unfold load_transaction. cbn [snd]. rewrite transaction_exists_ids.
    case_bool_decide; split; done.
  - intros Hnew. unfold load_transaction. cbn [fst with_transactions transactions].
    by apply upsert_absent.
Qed.

Lemma load_transaction_idempotent_witness :
  transactions (load_transaction txn_10 cursor_store).1 = [txn_9; txn_10].
Proof.
  apply (proj2 (proj2 (proj2 (load_transaction_idempotent txn_10 cursor_store)))).
  apply (bool_decide_unpack _). vm_compute. exact I.
Defined.

Lemma find_key {R : Type} (key : R → string) (table : list R) k r :
  find (fun r => String.eqb (key r) k) table = Some r → r ∈ table ∧ key r = k.
Proof.
  intros [Hin Hk%String.eqb_eq]%find_some. split; [|done].
  by apply list_elem_of_In.
Qed.

Lemma find_key_None {R : Type} (key : R → string) (table : list R) k :
  find (fun r => String.eqb (key r) k) table = None ↔ k ∉ key <$> table.
Proof.
  induction table as [|r table IH]; simpl.
  - split; [by intros _ ?%elem_of_nil | done].
  - destruct (String.eqb_spec (key r) k) as [Hk|Hk].
    + split; [done |]. intros Hnotin. destruct Hnotin. rewrite <-Hk. by left.
    + rewrite IH, not_elem_of_cons. split; [by split; [congruence|] | by intros [_ ?]].
Qed.

(** X2. Refresh of a stored transaction: when a row with the id is there,
    the load keeps the row's date and account, takes amount, description,
    status and running balance from the fetched transaction, and adds no
    row. *)
Theorem load_transaction_refresh (t old : Transaction) (s : Store) :
  transaction_row s (txn_id t) = Some old →
  let s' := (load_transaction t s).1 in
  transaction_row s' (txn_id t) =
    Some {| txn_id := txn_id old; txn_account_id := txn_account_id old;
            txn_amount := txn_amount t; txn_date := txn_date old;
            txn_description := txn_description t;
            txn_status := txn_status t;
            txn_running_balance := txn_running_balance t |} ∧
  length (transactions s') = length (transactions s) ∧
  (load_transaction t s).2 = updated.
Proof.
  intros Hold. cbv zeta. unfold transaction_row in *.
  pose proof (find_key txn_id _ _ _ Hold) as [Hin Hid].
  assert (txn_id t ∈ txn_id <$> transactions s) as Hids.
  { rewrite <-Hid. by apply list_elem_of_fmap_2. }
  unfold load_transaction. cbn [fst snd with_transactions transactions].
  split_and!.
  - rewrite find_upsert, Hold by done. cbn beta iota.
    by destruct (String.eqb_spec (txn_id old) (txn_id t)).
  - rewrite upsert_length. by rewrite decide_True.
  - rewrite transaction_exists_ids. by rewrite bool_decide_eq_true_2.
Qed.

Lemma load_transaction_refresh_witness :
  transaction_row
    (load_transaction (posted_on "txn_9" (january_2024 9) 777) cursor_store).1
    "txn_9"
  = Some (posted_on "txn_9" (january_2024 5) 777).
Proof.
  exact (proj1 (load_transaction_refresh
                  (posted_on "txn_9" (january_2024 9) 777) txn_9 cursor_store
                  eq_refl)).
Defined.

End Upserts.

(** ** Invariants of a run *)

Section RunInvariants.
Import Client Sync Scenario.

Lemma load_accounts_preserves (P : Store → Prop) accounts s stats :
  (∀ s account, P s → P (load_account account s)) →
  P s → P (load_accounts accounts (s, stats)).1.
Proof.
  intros Hload. unfold load_accounts. revert s stats.
  induction accounts as [|account rest IH]; intros s stats Hs; [done |].
  simpl. apply IH. by apply Hload.
Qed.

Lemma sync_accounts_preserves (P : Store → Prop) fuel now source sync_type
    accounts st st' :
  (∀ account_id l s stats,
     P s → P (store_account_transactions now account_id l (s, stats)).1) →
  P st.1 →
  sync_accounts fuel now source sync_type accounts st = Some st' →
  P st'.1.
Proof.
  intros Hstore. revert st.
  induction accounts as [|account rest IH]; intros st Hst; simpl.
  - by intros [= <-].
  - destruct (select_transactions _ _ _ _ _) as [txns|]; [|done]. simpl.
    apply IH. destruct st as [s0 stats0]. by apply Hstore.
Qed.

(** What every step of a run preserves, a run preserves. *)
Lemma sync_teller_data_preserves (P : Store → Prop) fuel now source
    client_accounts force_full s s' result :
  (∀ s runs, P s → P (with_sync_runs s runs)) →
  (∀ s account, P s → P (load_account account s)) →
  (∀ account_id l s stats,
     P s → P (store_account_transactions now account_id l (s, stats)).1) →
  P s →
  sync_teller_data fuel now source client_accounts force_full s
    = Some (s', result) →
  P s'.
Proof.
  intros Hruns Hload Hstore Hs. unfold sync_teller_data.
  destruct (decide_sync_type _ _ _) as [sync_type|]; [|by intros [= <- _]].
  cbn [start_sync_run]. cbv zeta.
  destruct client_accounts as [l|];
    [|intros [= <- _]; by apply (Hruns (with_sync_runs s _)), (Hruns s)].
  destruct (sync_accounts _ _ _ _ _ _) as [[s1 stats]|] eqn:Hsync; [|done].
  simpl. intros [= <- _]. apply Hruns.
  apply (sync_accounts_preserves P) in Hsync; [done | done |].
  apply load_accounts_preserves; [done |]. by apply (Hruns s).
Qed.

(** The store of one account's turn, from the steps on single rows. *)
Lemma store_account_transactions_preserves (P : Store → Prop) now account_id
    l s stats :
  (∀ s t, P s → P (load_transaction t s).1) →
  (∀ s latest, P s → P (update_account_sync_state now account_id latest s)) →
  P s → P (store_account_transactions now account_id l (s, stats)).1.
Proof.
  intros Hload Hupdate Hs. rewrite store_account_transactions_store.
  apply Hupdate. unfold load_transactions. rewrite load_transactions_fold.
  cbn [tally_store]. revert s Hs.
  induction l as [|t l IH]; intros s Hs; [done |]. simpl. apply IH.
  by apply (Hload s t).
Qed.

Lemma load_account_institution_ids account s i :
  i ∈ institution_ids (load_account account s) ↔
  i ∈ institution_ids s ∨ i = inst_id (acct_institution account).
Proof. unfold institution_ids, load_account. simpl. by apply upsert_keys. Qed.

Lemma load_account_account_ids account s i :
  i ∈ account_ids (load_account account s) ↔
  i ∈ account_ids s ∨ i = acct_id account.
Proof. unfold account_ids, load_account. simpl. by apply upsert_keys. Qed.

Lemma update_account_sync_state_account_ids now account_id latest s :
  account_ids (update_account_sync_state now account_id latest s) = account_ids s.
Proof.
  unfold account_ids, update_account_sync_state. simpl.
  by apply update_where_keys.
Qed.

(** X3. Primary keys: every store that sync runs produce has no transaction
    id, no account id and no institution id twice. *)
Theorem reachable_keys_distinct (s : Store) :
  reachable s → keys_distinct s.
Proof.
  induction 1 as [|fuel now source fetched force_full s s' result _ IH Hrun].
  { split_and!; constructor. }
  revert Hrun. apply sync_teller_data_preserves; [| | |done].
  - by intros s0 runs (? & ? & ?).
  - intros s0 account (Ht & Ha & Hi). split_and!; [done | |].
    + unfold account_ids, load_account. simpl. by apply upsert_keys_NoDup.
    + unfold institution_ids, load_account. simpl. by apply upsert_keys_NoDup.
  - intros account_id l s0 stats. apply store_account_transactions_preserves.
    + intros s1 t (Ht & Ha & Hi). split_and!; [|done|done].
      unfold transaction_ids, load_transaction. simpl.
      by apply upsert_keys_NoDup.
    + intros s1 latest (Ht & Ha & Hi). split_and!; [done | |done].
      by rewrite update_account_sync_state_account_ids.
Qed.

Lemma reachable_keys_distinct_witness :
  keys_distinct (store_after run_2).
Proof.
  apply (reachable_keys_distinct (store_after run_2)).
  apply (reachable_sync 5 (2 * day) (overlapping_source (data_of <$> [txn_10]))
           (Return [checking 100000]) true (store_after run_1)
           (store_after run_2)
           (Return {| accounts_synced := 1; total_transactions := 1;
                      new_transactions := 0; updated_transactions := 1 |})).
  - apply (reachable_sync 5 (1 * day)
             (overlapping_source (data_of <$> [txn_11; txn_10]))
             (Return [checking 100000]) false empty_store (store_after run_1)
             (Return {| accounts_synced := 1; total_transactions := 2;
                        new_transactions := 2; updated_transactions := 0 |})).
    + apply reachable_empty.
    + vm_compute. reflexivity.
  - vm_compute. reflexivity.
Defined.

Lemma keeps_rows_refl s : keeps_rows s s.
Proof. by split_and!. Qed.

(** X4. A run deletes nothing: every transaction id, account id and
    institution id of the store before the run is still there after it,
    whether the run completes or fails. *)
Theorem sync_keeps_rows (fuel : nat) (now : Z) (source : Source)
    (client_accounts : Exc (list Account)) (force_full : bool) (s s' : Store)
    (result : Exc Stats) :
  sync_teller_data fuel now source client_accounts force_full s
    = Some (s', result) →
  keeps_rows s s'.
Proof.
  apply (sync_teller_data_preserves (keeps_rows s)); [| | |apply keeps_rows_refl].
  - by intros s0 runs (? & ? & ?).
  - intros s0 account (Ht & Ha & Hi). split_and!; [done | |].
    + intros i Hin%Ha. apply load_account_account_ids. by left.
    + intros i Hin%Hi. apply load_account_institution_ids. by left.
  - intros account_id l s0 stats. apply store_account_transactions_preserves.
    + intros s1 t (Ht & Ha & Hi). split_and!; [|done|done].
      intros i Hin%Ht. unfold transaction_ids, load_transaction. simpl.
      apply upsert_keys; auto.
    + intros s1 latest (Ht & Ha & Hi). split_and!; [done | |done].
      by rewrite update_account_sync_state_account_ids.
Qed.

Lemma sync_keeps_rows_witness :
  keeps_rows (store_after run_1) (store_after run_2).
Proof.
  apply (sync_keeps_rows 5 (2 * day) (overlapping_source (data_of <$> [txn_10]))
           (Return [checking 100000]) true (store_after run_1)
           (store_after run_2)
           (Return {| accounts_synced := 1; total_transactions := 1;
                      new_transactions := 0; updated_transactions := 1 |})).
  vm_compute. reflexivity.
Defined.

Lemma upsert_elem {R : Type} (key : R → string) k fresh update (table : list R) r' :
  r' ∈ upsert key k fresh update table →
  r' = fresh ∨ ∃ r, r ∈ table ∧ (r' = r ∨ r' = update r).
Proof.
  induction table as [|r table IH]; simpl.
  - intros ->%list_elem_of_singleton. by left.
  - destruct (String.eqb (key r) k).
    + intros [->|Hin]%elem_of_cons; right.
      * exists r. split; [by left | by right].
      * exists r'. split; [by right | by left].
    + intros [->|Hin]%elem_of_cons.
      * right. exists r. split; [by left | by left].
      * destruct (IH Hin) as [?|(r0 & ? & ?)]; [by left | right].
        exists r0. split; [by right | done].
Qed.

Lemma update_where_elem {R : Type} hit update (table : list R) r' :
  r' ∈ update_where hit update table →
  ∃ r, r ∈ table ∧ (r' = r ∨ (hit r = true ∧ r' = update r)).
Proof.
  unfold update_where. induction table as [|r table IH]; simpl.
  - by intros ?%elem_of_nil.
  - intros [->|Hin]%elem_of_cons.
    + exists r. split; [by left |]. destruct (hit r); [by right | by left].
    + destruct (IH Hin) as (r0 & ? & ?). exists r0. split; [by right | done].
Qed.

Lemma latest_transaction_loaded s l t :
  latest_transaction (load_transactions s l) = Some t → t ∈ l.
Proof.
  intros Hlatest.
  pose proof (latest_transaction_fold l
                {| tally_store := s; account_new := 0; account_updated := 0;
                   latest_transaction := None |}) as Hfold.
  fold (load_transactions s l) in Hfold. rewrite Hlatest in Hfold.
  by destruct Hfold as ([?|?] & _).
Qed.

Lemma store_account_transactions_cursors now account_id l s stats :
  cursors_stored s →
  cursors_stored (store_account_transactions now account_id l (s, stats)).1.
Proof.
  intros Hs r' i. rewrite store_account_transactions_store.
  unfold update_account_sync_state. cbn [accounts with_accounts].
  rewrite load_transactions_accounts.
  intros (r & Hr & Hcase)%update_where_elem Hcursor.
  unfold transaction_ids. cbn [transactions with_accounts].
  apply load_transactions_ids.
  destruct Hcase as [->|[_ ->]]; [left; by eapply Hs |].
  simpl in Hcursor.
  destruct (latest_transaction (load_transactions s l)) as [t|] eqn:Hlatest.
  - injection Hcursor as <-. right.
    apply list_elem_of_fmap_2. by eapply latest_transaction_loaded.
  - left. by eapply Hs.
Qed.

(** X5. Cursor ids are stored: in every store that sync runs produce, the
    [last_transaction_id] of an account row is the id of a row of the
    transactions table. *)
Theorem reachable_cursors_stored (s : Store) :
  reachable s → cursors_stored s.
Proof.
  induction 1 as [|fuel now source fetched force_full s s' result _ IH Hrun].
  { by intros r i ?%elem_of_nil. }
  revert Hrun. apply sync_teller_data_preserves; [| | |done].
  - by intros s0 runs Hs0.
  - intros s0 account Hs0 r' i.
    unfold load_account. cbn [accounts with_accounts].
    intros [->|(r & Hr & [->| ->])]%upsert_elem; [done | |]; intros Hcursor;
      by eapply (Hs0 r).
  - intros account_id l s0 stats. apply store_account_transactions_cursors.
Qed.

Lemma reachable_cursors_stored_witness :
  cursors_stored (store_after first_run).
Proof.
  apply (reachable_cursors_stored (store_after first_run)).
  apply (reachable_sync 5 1000 (overlapping_source first_ledger)
           (Return [checking 100000]) false empty_store
           (store_after first_run)
           (Return {| accounts_synced := 1; total_transactions := 2;
                      new_transactions := 2; updated_transactions := 0 |})).
  - apply reachable_empty.
  - vm_compute. reflexivity.
Defined.

(** *** Statistics *)

Lemma load_and_track_counts acc t :
  let acc' := load_and_track acc t in
  (account_new acc' + account_updated acc'
   = S (account_new acc + account_updated acc))%nat ∧
  (length (transactions (tally_store acc')) + account_new acc
   = length (transactions (tally_store acc)) + account_new acc')%nat.
Proof.
  unfold load_and_track, load_transaction. cbn [fst snd].
  rewrite transaction_exists_ids. cbn [tally_store account_new account_updated
    with_transactions transactions].
  rewrite upsert_length. unfold transaction_ids.
  destruct (decide (txn_id t ∈ txn_id <$> transactions (tally_store acc))).
  - rewrite bool_decide_eq_true_2 by done. lia.
  - rewrite bool_decide_eq_false_2 by done. lia.
Qed.

Lemma load_transactions_counts s l :
  let tally := load_transactions s l in
  (account_new tally + account_updated tally = length l)%nat ∧
  (length (transactions (tally_store tally))
   = length (transactions s) + account_new tally)%nat.
Proof.
  unfold load_transactions.
  set (acc0 := {| tally_store := s; account_new := 0; account_updated := 0;
                  latest_transaction := None |}).
  assert (∀ l acc,
            (account_new (foldl load_and_track acc l)
             + account_updated (foldl load_and_track acc l)
             = account_new acc + account_updated acc + length l)%nat ∧
            (length (transactions (tally_store (foldl load_and_track acc l)))
             + account_new acc
             = length (transactions (tally_store acc))
               + account_new (foldl load_and_track acc l))%nat) as Hgen.
  { clear. intros l. induction l as [|t l IH]; intros acc; [simpl; lia |].
    cbn [foldl]. destruct (IH (load_and_track acc t)) as [H1 H2].
    destruct (load_and_track_counts acc t) as [H3 H4]. cbv zeta in H3, H4.
    cbn [length]. lia. }
  destruct (Hgen l acc0) as [H1 H2]. cbv zeta. simpl in H1, H2. lia.
Qed.

(** The counters a run keeps while it works through the accounts. *)
Lemma sync_accounts_counts fuel now source sync_type accounts s stats s' stats' :
  sync_accounts fuel now source sync_type accounts (s, stats) = Some (s', stats') →
  accounts_synced stats' = accounts_synced stats ∧
  (new_transactions stats' + updated_transactions stats'
   + total_transactions stats
   = new_transactions stats + updated_transactions stats
     + total_transactions stats')%nat ∧
  (length (transactions s') + new_transactions stats
   = length (transactions s) + new_transactions stats')%nat.
Proof.
  revert s stats. induction accounts as [|account rest IH]; intros s stats; simpl.
  - intros [= <- <-]. lia.
  - destruct (select_transactions _ _ _ _ _) as [txns|]; [|done]. simpl.
    destruct (load_transactions_counts s txns) as [H1 H2]. cbv zeta in H1, H2.
    set (s1 := match txns with
               | [] => _
               | _ :: _ => _
               end).
    assert (transactions s1 = transactions (tally_store (load_transactions s txns)))
      as Hs1 by (subst s1; by destruct txns).
    intros (H3 & H4 & H5)%IH. cbn [accounts_synced total_transactions
      new_transactions updated_transactions] in *.
    rewrite Hs1 in H5. lia.
Qed.

Lemma load_accounts_counts (l : list Account) st :
  let st' := load_accounts l st in
  accounts_synced st'.2 = (accounts_synced st.2 + length l)%nat ∧
  total_transactions st'.2 = total_transactions st.2 ∧
  new_transactions st'.2 = new_transactions st.2 ∧
  updated_transactions st'.2 = updated_transactions st.2 ∧
  transactions st'.1 = transactions st.1.
Proof.
  unfold load_accounts. revert st.
  induction l as [|a l IH]; intros [s stats];
    [simpl; split_and!; done || lia |].
  cbn [foldl]. cbv zeta in IH.
  destruct (IH (load_account a s,
                {| accounts_synced := S (accounts_synced stats);
                   total_transactions := total_transactions stats;
                   new_transactions := new_transactions stats;
                   updated_transactions := updated_transactions stats |}))
    as (-> & -> & -> & -> & ->).
  simpl. split_and!; done || lia.
Qed.

(** X6. Statistics of a completed run: the accounts counted are the
    accounts fetched, every stored transaction is counted once as new or as
    updated, and the transactions table has grown by the number counted as
    new. *)
Theorem run_statistics (fuel : nat) (now : Z) (source : Source)
    (client_accounts : list Account) (force_full : bool) (s s' : Store)
    (stats : Stats) :
  sync_teller_data fuel now source (Return client_accounts) force_full s
    = Some (s', Return stats) →
  accounts_synced stats = length client_accounts ∧
  (new_transactions stats + updated_transactions stats
   = total_transactions stats)%nat ∧
  (length (transactions s')
   = length (transactions s) + new_transactions stats)%nat.
Proof.
  unfold sync_teller_data.
  destruct (decide_sync_type _ _ _) as [sync_type|]; [|done].
  cbn [start_sync_run]. cbv zeta.
  match goal with
  | |- context [load_accounts ?l ?st] =>
      pose proof (load_accounts_counts l st) as (G1 & G2 & G3 & G4 & G5)
  end.
  destruct (load_accounts client_accounts _) as [s0 stats0].
  destruct (sync_accounts _ _ _ _ _ _) as [[s1 stats1]|] eqn:Hsync; [|done].
  simpl. intros [= <- <-].
  apply sync_accounts_counts in Hsync as (H1 & H2 & H3).
  unfold zero_stats in *. simpl in *. rewrite G5 in H3.
  split_and!; lia.
Qed.

Lemma run_statistics_witness :
  accounts_synced {| accounts_synced := 1; total_transactions := 1;
                     new_transactions := 0; updated_transactions := 1 |}
  = length [checking 100000] ∧
  (0 + 1 = 1)%nat ∧
  (length (transactions (store_after run_2))
   = length (transactions (store_after run_1)) + 0)%nat.
Proof.
  apply (run_statistics 5 (2 * day) (overlapping_source (data_of <$> [txn_10]))
           [checking 100000] true (store_after run_1) (store_after run_2)
           {| accounts_synced := 1; total_transactions := 1;
              new_transactions := 0; updated_transactions := 1 |}).
  vm_compute. reflexivity.
Defined.

End RunInvariants.

(** ** Account rows *)

Section AccountRows.
Import Client Sync Scenario.

Lemma account_row_update now account_id latest s a :
  account_row (update_account_sync_state now account_id latest s) a =
  (fun r => if decide (a = account_id) then set_cursor now latest r else r)
    <$> account_row s a.
Proof.
  unfold account_row, update_account_sync_state. cbn [accounts with_accounts].
  rewrite find_update_where by done.
  destruct (find _ (accounts s)) as [r|] eqn:Hfind; [|done]. simpl.
  apply find_key in Hfind as [_ <-]. f_equal.
  destruct (String.eqb_spec (row_id r) account_id) as [Heq|Hne].
  - by rewrite decide_True.
  - by rewrite decide_False.
Qed.

Lemma account_row_store now account_id l s stats a :
  account_row (store_account_transactions now account_id l (s, stats)).1 a =
  (fun r => if decide (a = account_id)
            then set_cursor now (latest_transaction (load_transactions s l)) r
            else r)
    <$> account_row s a.
Proof.
  rewrite store_account_transactions_store, account_row_update.
  unfold account_row. by rewrite load_transactions_accounts.
Qed.

Lemma latest_after_track acc t :
  latest_transaction (load_and_track acc t) =
  match latest_transaction acc with
  | None => Some t
  | Some l => if txn_date l <? txn_date t then Some t else Some l
  end.
Proof. unfold load_and_track. by destruct (load_transaction _ _). Qed.

Lemma latest_kept l acc m :
  latest_transaction acc = Some m →
  (∀ t, t ∈ l → txn_date t ≤ txn_date m) →
  latest_transaction (foldl load_and_track acc l) = Some m.
Proof.
  revert acc. induction l as [|t l IH]; intros acc Hm Hle; [done |].
  cbn [foldl]. apply IH.
  - rewrite latest_after_track, Hm.
    destruct (Z.ltb_spec (txn_date m) (txn_date t)); [|done].
    specialize (Hle t ltac:(by left)). lia.
  - intros t' Ht'. apply Hle. by right.
Qed.

Lemma latest_first l1 m l2 s :
  (∀ t, t ∈ l1 → txn_date t < txn_date m) →
  (∀ t, t ∈ l2 → txn_date t ≤ txn_date m) →
  latest_transaction (load_transactions s (l1 ++ m :: l2)) = Some m.
Proof.
  intros Hbefore Hafter. unfold load_transactions.
  rewrite foldl_app. cbn [foldl]. apply latest_kept; [|done].
  rewrite latest_after_track.
  pose proof (latest_transaction_fold l1
                {| tally_store := s; account_new := 0; account_updated := 0;
                   latest_transaction := None |}) as Hfold.
  destruct (latest_transaction (foldl load_and_track _ l1)) as [t|]; [|done].
  destruct Hfold as ([?|Ht] & _); [done |].
  specialize (Hbefore t Ht).
  destruct (Z.ltb_spec (txn_date t) (txn_date m)); [done | lia].
Qed.

(** X7. The cursor after an account's turn: when the transactions stored
    for the account are not empty, the account's row takes the date and the
    id of the first transaction, in fetch order, that has the latest date,
    and the time of the run. *)
Theorem cursor_is_first_latest (now : Z) (account_id : string)
    (l1 l2 : list Transaction) (m : Transaction) (s : Store) (stats : Stats)
    (row : AccountRow) :
  account_row s account_id = Some row →
  (∀ t, t ∈ l1 → txn_date t < txn_date m) →
  (∀ t, t ∈ l2 → txn_date t ≤ txn_date m) →
  ∃ row',
    account_row
      (store_account_transactions now account_id (l1 ++ m :: l2) (s, stats)).1
      account_id = Some row' ∧
    row_last_transaction_date row' = Some (txn_date m) ∧
    row_last_transaction_id row' = Some (txn_id m) ∧
    row_last_synced_at row' = Some now.
Proof.
  intros Hrow Hbefore Hafter.
  rewrite account_row_store, Hrow, latest_first by done. cbn [fmap option_fmap option_map].
  rewrite decide_True by done. eexists. split; [reflexivity |]. done.
Qed.

Lemma cursor_is_first_latest_witness :
  ∃ row',
    account_row
      (store_account_transactions 2000 "acc_1" ([txn_9] ++ txn_11 :: [txn_10])
         (cursor_store, zero_stats)).1 "acc_1" = Some row' ∧
    row_last_transaction_date row' = Some (january_2024 6) ∧
    row_last_transaction_id row' = Some "txn_11" ∧
    row_last_synced_at row' = Some 2000.
Proof.
  apply (cursor_is_first_latest 2000 "acc_1" [txn_9] [txn_10] txn_11
           cursor_store zero_stats
           (checking_row (Some 100000) (Some (january_2024 5, "txn_9")))).
  - reflexivity.
  - intros t ->%list_elem_of_singleton. by vm_compute.
  - intros t ->%list_elem_of_singleton. by vm_compute.
Defined.

(** [load_account] writes what the source reported and keeps the cursor. *)
Lemma account_row_load_account account s :
  ∃ row,
    account_row (load_account account s) (acct_id account) = Some row ∧
    refreshed_from account row ∧
    row_last_transaction_date row
      = account_row s (acct_id account) ≫= row_last_transaction_date ∧
    row_last_transaction_id row
      = account_row s (acct_id account) ≫= row_last_transaction_id.
Proof.
  unfold account_row, load_account. cbn [accounts with_accounts load_institution
    with_institutions].
  rewrite find_upsert by done.
  destruct (find _ (accounts s)) as [r|] eqn:Hfind.
  - apply find_key in Hfind as [_ Hid]. rewrite Hid, String.eqb_refl.
    eexists. split; [reflexivity |]. by split_and!.
  - rewrite String.eqb_refl. eexists. split; [reflexivity |]. by split_and!.
Qed.

Lemma account_row_load_account_other account s a :
  a ≠ acct_id account →
  account_row (load_account account s) a = account_row s a.
Proof.
  intros Hne. unfold account_row, load_account.
  cbn [accounts with_accounts load_institution with_institutions].
  rewrite find_upsert by done.
  destruct (find _ (accounts s)) as [r|] eqn:Hfind.
  - apply find_key in Hfind as [_ Hid].
    destruct (String.eqb_spec (row_id r) (acct_id account)); [congruence | done].
  - destruct (String.eqb_spec (acct_id account) a); [congruence | done].
Qed.

Lemma load_accounts_row_other l s stats a :
  a ∉ acct_id <$> l →
  account_row (load_accounts l (s, stats)).1 a = account_row s a.
Proof.
  unfold load_accounts. revert s stats.
  induction l as [|account l IH]; intros s stats; [done |].
  rewrite fmap_cons. intros [Hne Hnotin]%not_elem_of_cons. cbn [foldl].
  rewrite IH by done. by apply account_row_load_account_other.
Qed.

Lemma load_accounts_rows l s stats account :
  NoDup (acct_id <$> l) → account ∈ l →
  ∃ row,
    account_row (load_accounts l (s, stats)).1 (acct_id account) = Some row ∧
    refreshed_from account row.
Proof.
  revert s stats. induction l as [|a l IH]; intros s stats;
    [by intros _ ?%elem_of_nil |].
  rewrite fmap_cons. intros [Hfresh Hnd]%NoDup_cons [->|Hin]%elem_of_cons.
  - change (load_accounts (a :: l) (s, stats))
      with (load_accounts l
              (load_account a s,
               {| accounts_synced := S (accounts_synced stats);
                  total_transactions := total_transactions stats;
                  new_transactions := new_transactions stats;
                  updated_transactions := updated_transactions stats |})).
    rewrite load_accounts_row_other by done.
    destruct (account_row_load_account a s) as (row & Hrow & Hmeta & _).
    eauto.
  - by apply IH.
Qed.

Lemma sync_accounts_rows fuel now source sync_type l st st' a row :
  sync_accounts fuel now source sync_type l st = Some st' →
  account_row st.1 a = Some row →
  ∃ row',
    account_row st'.1 a = Some row' ∧
    row_name row' = row_name row ∧ row_status row' = row_status row ∧
    row_balance_amount row' = row_balance_amount row ∧
    (a ∈ acct_id <$> l ∨ row_last_synced_at row = Some now →
     row_last_synced_at row' = Some now).
Proof.
  revert st row. induction l as [|account l IH]; intros st row; simpl.
  - intros [= <-] Hrow. exists row. split_and!; try done.
    by intros [?%elem_of_nil|?].
  - destruct (select_transactions _ _ _ _ _) as [txns|]; [|done]. simpl.
    destruct st as [s stats]. intros Hrest Hrow.
    pose proof (account_row_store now (acct_id account) txns s stats a) as Hstep.
    cbn [fst] in Hrow. rewrite Hrow in Hstep. simpl in Hstep.
    destruct (IH _ _ Hrest Hstep) as (row' & Hrow' & Hn & Hs & Hb & Hsync).
    exists row'. split; [done |].
    case_decide as Ha; simpl in *.
    + split_and!; try done. intros _. by apply Hsync; right.
    + split_and!; try done.
      intros [[?|?]%elem_of_cons|?]; [done | apply Hsync; by left
                                      | apply Hsync; by right].
Qed.

(** The rows of the fetched accounts after a completed run. *)
Lemma sync_refreshes_rows fuel now source client_accounts force_full s s'
    stats account :
  NoDup (acct_id <$> client_accounts) →
  account ∈ client_accounts →
  sync_teller_data fuel now source (Return client_accounts) force_full s
    = Some (s', Return stats) →
  ∃ row,
    account_row s' (acct_id account) = Some row ∧
    refreshed_from account row ∧
    row_last_synced_at row = Some now.
Proof.
  intros Hnd Hin. unfold sync_teller_data.
  destruct (decide_sync_type _ _ _) as [sync_type|]; [|done].
  cbn [start_sync_run]. cbv zeta.
  match goal with
  | |- context [load_accounts ?l (?s0, ?stats0)] =>
      destruct (load_accounts_rows l s0 stats0 account Hnd Hin)
        as (row & Hrow & Hn & Hs & Hb)
  end.
  destruct (sync_accounts _ _ _ _ _ _) as [[s1 stats1]|] eqn:Hsync; [|done].
  simpl. intros [= <- _].
  destruct (sync_accounts_rows _ _ _ _ _ _ _ _ _ Hsync Hrow)
    as (row' & Hrow' & Hn' & Hs' & Hb' & Hstamp).
  exists row'. split; [exact Hrow' |]. split.
  - unfold refreshed_from. by rewrite Hn', Hs', Hb'.
  - apply Hstamp. left. by apply list_elem_of_fmap_2.
Qed.

(** X8. Account refresh: after a run that completes, full or incremental,
    every fetched account has a row with the name, the status and the
    balance that the source reported, stamped with the time of the run. *)
Theorem accounts_refreshed (fuel : nat) (now : Z) (source : Source)
    (client_accounts : list Account) (force_full : bool) (s s' : Store)
    (stats : Stats) (account : Account) :
  NoDup (acct_id <$> client_accounts) →
  account ∈ client_accounts →
  sync_teller_data fuel now source (Return client_accounts) force_full s
    = Some (s', Return stats) →
  ∃ row,
    account_row s' (acct_id account) = Some row ∧
    refreshed_from account row ∧
    row_last_synced_at row = Some now.
Proof. apply sync_refreshes_rows. Qed.

Lemma accounts_refreshed_witness :
  ∃ row,
    account_row (store_after incremental_run) "acc_1" = Some row ∧
    refreshed_from (checking 100000) row ∧
    row_last_synced_at row = Some (2 * day).
Proof.
  apply (accounts_refreshed 5 (2 * day) cursor_fetch [checking 100000] false
           cursor_store (store_after incremental_run)
           {| accounts_synced := 1; total_transactions := 2;
              new_transactions := 2; updated_transactions := 0 |}
           (checking 100000)).
  - apply NoDup_singleton.
  - by left.
  - vm_compute. reflexivity.
Defined.

End AccountRows.

(** ** The runs table *)

Section Runs.
Import Client Sync Scenario.

Lemma update_where_miss {R : Type} hit update (table : list R) :
  (∀ r, r ∈ table → hit r = false) → update_where hit update table = table.
Proof.
  unfold update_where. induction table as [|r table IH]; intros Hmiss; [done |].
  cbn [map]. rewrite (Hmiss r) by by left. f_equal. apply IH.
  intros r' ?. apply Hmiss. by right.
Qed.

Lemma update_where_last {R : Type} hit update (table : list R) x :
  (∀ r, r ∈ table → hit r = false) → hit x = true →
  update_where hit update (table ++ [x]) = table ++ [update x].
Proof.
  intros Hmiss Hhit. unfold update_where. rewrite map_app. cbn [map].
  rewrite Hhit. f_equal. by apply update_where_miss.
Qed.

Lemma run_ids_below s r :
  run_ids_in_order s → r ∈ sync_runs s →
  Nat.eqb (run_id r) (S (length (sync_runs s))) = false.
Proof.
  intros Hids Hr. apply Nat.eqb_neq.
  apply (list_elem_of_fmap_2 run_id) in Hr. rewrite Hids in Hr.
  apply elem_of_seq in Hr. lia.
Qed.

Lemma load_account_sync_runs account s :
  sync_runs (load_account account s) = sync_runs s.
Proof. done. Qed.

Lemma store_account_transactions_sync_runs now account_id l s stats :
  sync_runs (store_account_transactions now account_id l (s, stats)).1
  = sync_runs s.
Proof.
  apply (store_account_transactions_preserves
           (fun s' => sync_runs s' = sync_runs s)); done.
Qed.

(** The rows of the runs table after a run: the row of the run is the last
    one, the others are as they were. *)
Lemma sync_teller_data_runs fuel now source client_accounts force_full s s'
    result :
  run_ids_in_order s →
  sync_teller_data fuel now source client_accounts force_full s
    = Some (s', result) →
  (decide_sync_type force_full now s = Raise ∧ s' = s ∧ result = Raise) ∨
  ∃ sync_type row,
    decide_sync_type force_full now s = Return sync_type ∧
    sync_runs s' = sync_runs s ++ [row] ∧
    run_id row = S (length (sync_runs s)) ∧
    run_sync_type row = sync_type ∧
    run_started_at row = now ∧
    match result with
    | Return stats =>
        run_status row = completed ∧ run_completed_at row = Some now ∧
        run_accounts_synced row = accounts_synced stats ∧
        run_transactions_synced row = total_transactions stats ∧
        run_new_transactions row = new_transactions stats ∧
        run_updated_transactions row = updated_transactions stats
    | Raise => run_status row = failed ∧ run_completed_at row = None
    end.
Proof.
  intros Hids. unfold sync_teller_data.
  destruct (decide_sync_type _ _ _) as [sync_type|];
    [|intros [= <- <-]; by left].
  intros Hrun. right. exists sync_type. revert Hrun.
  cbn [start_sync_run]. cbv zeta.
  set (fresh := {| run_id := S (length (sync_runs s)); run_started_at := now;
                   run_completed_at := None; run_status := running;
                   run_sync_type := sync_type; run_accounts_synced := 0;
                   run_transactions_synced := 0; run_new_transactions := 0;
                   run_updated_transactions := 0; run_error_message := None |}).
  assert (∀ r, r ∈ sync_runs s →
               Nat.eqb (run_id r) (S (length (sync_runs s))) = false) as Hmiss
    by (intros r; by apply run_ids_below).
  assert (Nat.eqb (run_id fresh) (S (length (sync_runs s))) = true) as Hhit
    by apply Nat.eqb_refl.
  destruct client_accounts as [l|].
  - match goal with
    | |- context [load_accounts l ?st] =>
        assert (sync_runs (load_accounts l st).1 = sync_runs s ++ [fresh])
          as Hload
          by (apply (load_accounts_preserves
                       (fun s' => sync_runs s' = sync_runs s ++ [fresh]));
              done)
    end.
    destruct (sync_accounts _ _ _ _ _ _) as [[s1 stats1]|] eqn:Hsync; [|done].
    apply (sync_accounts_preserves
             (fun s' => sync_runs s' = sync_runs s ++ [fresh])) in Hsync;
      [|intros; by rewrite store_account_transactions_sync_runs|done].
    simpl in Hsync. simpl. intros [= <- <-].
    unfold complete_sync_run. cbn [sync_runs with_sync_runs].
    rewrite Hsync, update_where_last by done.
    eexists. split_and!; [done | reflexivity | done..].
  - intros [= <- <-]. unfold fail_sync_run. cbn [sync_runs with_sync_runs].
    rewrite update_where_last by done.
    eexists. split_and!; [done | reflexivity | done..].
Qed.

(** X9. The record of a run: on a runs table with ids in order, a run
    whose kind can be decided adds one row at the end of the table and
    changes no other; the row carries the kind and the start time, and it is
    completed, with the time and the statistics the run returns, or failed
    when the accounts could not be fetched. *)
Theorem run_recorded (fuel : nat) (now : Z) (source : Source)
    (client_accounts : Exc (list Account)) (force_full : bool) (s s' : Store)
    (result : Exc Stats) (sync_type : SyncType) :
  run_ids_in_order s →
  decide_sync_type force_full now s = Return sync_type →
  sync_teller_data fuel now source client_accounts force_full s
    = Some (s', result) →
  ∃ row,
    sync_runs s' = sync_runs s ++ [row] ∧
    run_id row = S (length (sync_runs s)) ∧
    run_sync_type row = sync_type ∧
    run_started_at row = now ∧
    match result with
    | Return stats =>
        run_status row = completed ∧ run_completed_at row = Some now ∧
        run_accounts_synced row = accounts_synced stats ∧
        run_transactions_synced row = total_transactions stats ∧
        run_new_transactions row = new_transactions stats ∧
        run_updated_transactions row = updated_transactions stats
    | Raise => run_status row = failed ∧ run_completed_at row = None
    end.
Proof.
  intros Hids Hdecide Hrun.
  destruct (sync_teller_data_runs _ _ _ _ _ _ _ _ Hids Hrun)
    as [(Hraise & _)|(sync_type' & row & Hd & Hrest)]; [congruence |].
  rewrite Hdecide in Hd. injection Hd as <-. by exists row.
Qed.

Lemma run_recorded_witness :
  ∃ row,
    sync_runs (store_after incremental_run) = sync_runs cursor_store ++ [row] ∧
    run_id row = 2%nat ∧ run_sync_type row = incremental ∧
    run_started_at row = 2 * day ∧
    run_status row = completed ∧ run_completed_at row = Some (2 * day) ∧
    run_accounts_synced row = 1%nat ∧ run_transactions_synced row = 2%nat ∧
    run_new_transactions row = 2%nat ∧ run_updated_transactions row = 0%nat.
Proof.
  apply (run_recorded 5 (2 * day) cursor_fetch (Return [checking 100000]) false
           cursor_store (store_after incremental_run)
           (Return {| accounts_synced := 1; total_transactions := 2;
                      new_transactions := 2; updated_transactions := 0 |})
           incremental).
  - reflexivity.
  - vm_compute. reflexivity.
  - vm_compute. reflexivity.
Defined.

(** X10. No run is left open: in every store that sync runs produce, the
    run ids are 1, 2, ... in table order and every run is completed, with
    its completion time, or failed. *)
Theorem reachable_runs_ended (s : Store) :
  reachable s → run_ids_in_order s ∧ runs_ended s.
Proof.
  induction 1 as [|fuel now source fetched force_full s s' result _ IH Hrun].
  { split; [done | by intros r ?%elem_of_nil]. }
  destruct IH as [Hids Hended].
  destruct (sync_teller_data_runs _ _ _ _ _ _ _ _ Hids Hrun)
    as [(_ & -> & _)|(sync_type & row & _ & Hruns & Hid & _ & _ & Hresult)];
    [done |].
  split.
  - unfold run_ids_in_order. rewrite Hruns, fmap_app, length_app, Hids.
    cbn [fmap list_fmap length]. rewrite Hid.
    replace (length (sync_runs s) + 1)%nat with (S (length (sync_runs s)))
      by lia.
    by rewrite seq_S.
  - intros r. rewrite Hruns.
    intros [Hr| ->%list_elem_of_singleton]%elem_of_app; [by apply Hended |].
    destruct result as [stats|].
    + left. destruct Hresult as (-> & -> & _). eauto.
    + right. by destruct Hresult as (-> & ->).
Qed.

Lemma reachable_runs_ended_witness :
  run_ids_in_order (store_after first_run) ∧ runs_ended (store_after first_run).
Proof.
  apply (reachable_runs_ended (store_after first_run)).
  apply (reachable_sync 5 1000 (overlapping_source first_ledger)
           (Return [checking 100000]) false empty_store
           (store_after first_run)
           (Return {| accounts_synced := 1; total_transactions := 2;
                      new_transactions := 2; updated_transactions := 0 |})).
  - apply reachable_empty.
  - vm_compute. reflexivity.
Defined.

(** X11. The run after a completed run: when no earlier run was completed
    later than the clock of a run that completes, a run that is not forced
    and starts less than eight days after it is incremental. *)
Theorem next_run_incremental (fuel : nat) (now now' : Z) (source : Source)
    (client_accounts : Exc (list Account)) (force_full : bool) (s s' : Store)
    (stats : Stats) :
  run_ids_in_order s →
  (∀ r, r ∈ sync_runs s → run_status r = completed →
        null_ltb (Some now) (run_completed_at r) = false) →
  sync_teller_data fuel now source client_accounts force_full s
    = Some (s', Return stats) →
  now ≤ now' → now' - now < 8 * microseconds_per_day →
  decide_sync_type false now' s' = Return incremental.
Proof.
  intros Hids Hclock Hrun Hle Hlt.
  destruct (sync_teller_data_runs _ _ _ _ _ _ _ _ Hids Hrun)
    as [(_ & _ & ?)|(sync_type & row & _ & Hruns & _ & _ & _ & Hc & Hat & _)];
    [done |].
  unfold decide_sync_type, should_do_full_sync.
  pose proof (get_last_sync_info_spec s') as Hlast.
  destruct (get_last_sync_info s') as [r0|].
  - destruct Hlast as (Hin & Hc0 & Hmax).
    assert (run_completed_at r0 = Some now) as ->.
    { assert (row ∈ sync_runs s') as Hrow
        by (rewrite Hruns; apply elem_of_app; right; by left).
      pose proof (Hmax row Hrow Hc) as Hnotless. rewrite Hat in Hnotless.
      rewrite Hruns in Hin.
      apply elem_of_app in Hin as [Hin| ->%list_elem_of_singleton]; [|done].
      apply null_ltb_antisym; [done | by apply Hclock]. }
    destruct (Z.ltb_spec 7 (days_between now' now)) as [Hdays|]; [|done].
    apply days_between_over_7 in Hdays. lia.
  - destruct (Hlast row); [|done].
    rewrite Hruns. apply elem_of_app. right. by left.
Qed.

Lemma next_run_incremental_witness :
  decide_sync_type false (9 * day) (store_after incremental_run)
  = Return incremental.
Proof.
  apply (next_run_incremental 5 (2 * day) (9 * day) cursor_fetch
           (Return [checking 100000]) false cursor_store
           (store_after incremental_run)
           {| accounts_synced := 1; total_transactions := 2;
              new_transactions := 2; updated_transactions := 0 |}).
  - reflexivity.
  - intros r ->%list_elem_of_singleton _. reflexivity.
  - vm_compute. reflexivity.
  - by vm_compute.
  - by vm_compute.
Defined.

End Runs.

(** ** The series of balances *)

Section Series.
Import Client BalanceHistory Scenario.

Implicit Types (tba : gmap string (gmap Z (list Entry))).

Lemma amounts_where_split (l : list Transaction) (P Q R : Transaction → Prop)
    `{!∀ t, Decision (P t), !∀ t, Decision (Q t), !∀ t, Decision (R t)} :
  (∀ t, t ∈ l → (R t ↔ P t ∨ Q t)) →
  (∀ t, t ∈ l → P t → Q t → False) →
  amounts_where l R = amounts_where l P + amounts_where l Q.
Proof.
  unfold amounts_where. induction l as [|t l IH]; intros Hor Hdisj; [done |].
  rewrite !filter_cons.
  assert (foldr Z.add 0 (txn_amount <$> filter R l)
          = foldr Z.add 0 (txn_amount <$> filter P l)
            + foldr Z.add 0 (txn_amount <$> filter Q l)) as IH'.
  { apply IH; intros t' Ht'; [apply Hor | apply Hdisj]; by right. }
  pose proof (Hor t ltac:(by left)) as Ht.
  pose proof (Hdisj t ltac:(by left)) as Hd.
  destruct (decide (R t)), (decide (P t)), (decide (Q t));
    rewrite ?fmap_cons, ?foldr_cons; try tauto; lia.
Qed.

Lemma amounts_where_none (l : list Transaction) (P : Transaction → Prop)
    `{!∀ t, Decision (P t)} :
  (∀ t, t ∈ l → ¬ P t) → amounts_where l P = 0.
Proof.
  unfold amounts_where. induction l as [|t l IH]; intros Hnone; [done |].
  rewrite filter_cons, decide_False by (apply Hnone; by left).
  apply IH. intros t' ?. apply Hnone. by right.
Qed.

Lemma amounts_where_ext (l : list Transaction) (P Q : Transaction → Prop)
    `{!∀ t, Decision (P t), !∀ t, Decision (Q t)} :
  (∀ t, t ∈ l → (P t ↔ Q t)) → amounts_where l P = amounts_where l Q.
Proof.
  unfold amounts_where. induction l as [|t l IH]; intros Hext; [done |].
  rewrite !filter_cons.
  assert (foldr Z.add 0 (txn_amount <$> filter P l)
          = foldr Z.add 0 (txn_amount <$> filter Q l)) as IH'.
  { apply IH. intros t' ?. apply Hext. by right. }
  pose proof (Hext t ltac:(by left)) as Ht.
  destruct (decide (P t)), (decide (Q t));
    rewrite ?fmap_cons, ?foldr_cons; try tauto; lia.
Qed.

(** The net of a run of days is the sum of the posted amounts dated in
    it. *)
Lemma net_down_amounts s a n c :
  net_down (get_transactions_by_account_and_date s) a n c =
  amounts_where (posted_transactions s)
    (fun t => txn_account_id t = a ∧ c - Z.of_nat n < txn_date t ≤ c).
Proof.
  revert c. induction n as [|n IH]; intros c.
  - simpl. symmetry. apply amounts_where_none. intros t _ [_ Hd]. lia.
  - cbn [net_down]. rewrite IH, net_store.
    change (daily_net_change s a c)
      with (amounts_where (posted_transactions s)
              (fun t => txn_account_id t = a ∧ txn_date t = c)).
    symmetry. apply amounts_where_split.
    + intros t _. rewrite Nat2Z.inj_succ. split.
      * intros [Ha Hd].
        destruct (decide (txn_date t = c)); [left | right]; split; done || lia.
      * intros [[Ha Hd]|[Ha Hd]]; split; done || lia.
    + intros t _ [_ Hc] [_ Hd]. lia.
Qed.

(** Closed form of the replay in decimal arithmetic: on cents, the balance
    of a record is the balance stored in the account's row (zero for
    [NULL]) less the signed sum of the account's posted transactions dated
    after the record's day.  For the floats of the program see
    [balance_closed_form] below. *)
Lemma decimal_closed_form (s : Store) (out : list DailyBalance)
    (r : DailyBalance) (row : AccountRow) :
  NoDup (row_id <$> accounts s) →
  reconstruct_daily_balances s = Return out →
  r ∈ out → row ∈ accounts s → row_id row = account_id r →
  end_of_day_balance r =
  default 0 (row_balance_amount row) - posted_after s (account_id r) (date r).
Proof.
  intros Hnd Hout Hr Hrow Hid.
  destruct (date_range_cases s) as [[Hnone _]|(e & l & Hrange & Hle & Hspan)].
  { by rewrite reconstruct_raises in Hout. }
  rewrite (reconstruct_spec s e l Hrange) in Hout. injection Hout as <-.
  apply elem_of_series in Hr as (d & item & Hd & Hitem & ->). simpl in *.
  rewrite balance_of_initial by done.
  rewrite (dictionary_balance s row item) by done.
  unfold net_after, posted_after. rewrite net_down_amounts.
  f_equal. apply amounts_where_ext. intros t Ht.
  specialize (Hspan t Ht). split; intros [Ha Hdate]; split; done || lia.
Qed.

Lemma days_down_NoDup n c : NoDup (days_down n c).
Proof.
  revert c. induction n as [|n IH]; intros c; simpl; [constructor |].
  apply NoDup_cons. split; [|apply IH].
  intros Hin%elem_of_days_down. lia.
Qed.

Lemma length_days_bind {A : Type} (f : Z → list A) (k : nat) n c :
  (∀ d, length (f d) = k) → length (days_down n c ≫= f) = (n * k)%nat.
Proof.
  intros Hlen. revert c. induction n as [|n IH]; intros c; [done |].
  cbn [days_down]. csimpl. rewrite length_app, Hlen, IH. lia.
Qed.

Lemma series_record_eq s e l r r' :
  r ∈ series s e l → r' ∈ series s e l →
  record_key r = record_key r' → r = r'.
Proof.
  intros (d & item & _ & Hitem & ->)%elem_of_series.
  intros (d' & item' & _ & Hitem' & ->)%elem_of_series.
  unfold record_key. simpl. intros [= -> Hkey].
  destruct (accounts_dictionary s) as (Hnd & _ & _).
  by rewrite (NoDup_fmap_eq fst _ item item' Hnd Hitem Hitem' Hkey).
Qed.

Lemma series_NoDup s e l : NoDup (series s e l).
Proof.
  destruct (accounts_dictionary s) as (Hnd & _ & _).
  unfold series. apply NoDup_bind; [| |apply days_down_NoDup].
  - intros d d' r _ _ (item & -> & _)%list_elem_of_fmap
      (item' & Heq & _)%list_elem_of_fmap.
    by injection Heq.
  - intros d _. apply NoDup_fmap_2_strong; [|by apply NoDup_fmap_1 in Hnd].
    intros item item' Hitem Hitem' Heq.
    apply (NoDup_fmap_eq fst _ item item' Hnd Hitem Hitem').
    by injection Heq.
Qed.

(** X13. One record per account and day: the series holds as many records
    as the days of the range times the entries of the accounts dictionary,
    and no two of them have the same account and the same day. *)
Theorem one_record_per_account_and_day (s : Store) (out : list DailyBalance)
    (earliest latest : Z) :
  get_date_range s = (Some earliest, Some latest) →
  reconstruct_daily_balances s = Return out →
  length out = (Z.to_nat (latest - earliest + 1)
                * length (get_accounts_with_current_balance s))%nat ∧
  NoDup (record_key <$> out).
Proof.
  intros Hrange. rewrite (reconstruct_spec s _ _ Hrange). intros [= <-]. split.
  - unfold series. apply length_days_bind. intros d. by rewrite length_fmap.
  - apply NoDup_fmap_2_strong; [|apply series_NoDup].
    intros r r'. apply series_record_eq.
Qed.

Lemma one_record_per_account_and_day_witness :
  ∃ out,
    reconstruct_daily_balances unanchored_store = Return out ∧
    length out = (3 * 2)%nat ∧ NoDup (record_key <$> out).
Proof.
  eexists. split; [vm_compute; reflexivity |].
  apply (one_record_per_account_and_day unanchored_store _
           (january_2024 3) (january_2024 5)).
  - vm_compute. reflexivity.
  - vm_compute. reflexivity.
Defined.

(** X14. Whose records: every record of the series belongs to an open
    account whose institution is in the store, lies on a day of the range
    of the posted transactions, and counts the account's posted
    transactions of its day. *)
Theorem records_of_open_accounts (s : Store) (out : list DailyBalance)
    (r : DailyBalance) :
  reconstruct_daily_balances s = Return out → r ∈ out →
  (∃ row i,
     row ∈ accounts s ∧ i ∈ institutions s ∧ row_status row = OPEN ∧
     row_institution_id row = inst_id i ∧ row_id row = account_id r) ∧
  (∃ earliest latest,
     get_date_range s = (Some earliest, Some latest) ∧
     earliest ≤ date r ≤ latest) ∧
  transaction_count r =
    length (filter (fun t => txn_account_id t = account_id r ∧
                             txn_date t = date r)
                   (posted_transactions s)).
Proof.
  intros (e & l & Hrange & _ & ->)%reconstruct_returns.
  intros (d & [a info] & Hd & Hitem & ->)%elem_of_series. simpl.
  split_and!.
  - destruct (accounts_dictionary s) as (_ & Hfrom & _).
    destruct (Hfrom a info Hitem) as (row & i & Hopen & Hid & _).
    apply elem_of_open_accounts in Hopen as (? & ? & ? & ?).
    by exists row, i.
  - by exists e, l.
  - by rewrite transactions_on_store, length_fmap.
Qed.

Lemma records_of_open_accounts_witness :
  (∃ row i,
     row ∈ accounts replay_store ∧ i ∈ institutions replay_store ∧
     row_status row = OPEN ∧ row_institution_id row = inst_id i ∧
     row_id row = "acc_1") ∧
  (∃ earliest latest,
     get_date_range replay_store = (Some earliest, Some latest) ∧
     earliest ≤ january_2024 4 ≤ latest) ∧
  0%nat =
    length (filter (fun t => txn_account_id t = "acc_1" ∧
                             txn_date t = january_2024 4)
                   (posted_transactions replay_store)).
Proof.
  apply (records_of_open_accounts replay_store
           [checking_on (january_2024 5) 100000 1 20000;
            checking_on (january_2024 4) 80000 0 0;
            checking_on (january_2024 3) 80000 1 (-5000)]
           (checking_on (january_2024 4) 80000 0 0)).
  - vm_compute. reflexivity.
  - right. by left.
Defined.

(** X15. Only posted transactions count: two stores with the same
    institutions, the same accounts and the same posted transactions have
    the same series; a transaction that is not posted changes nothing. *)
Theorem reconstruction_ignores_unposted (s : Store) (t : Transaction)
    (before after : list Transaction) :
  transactions s = before ++ after → txn_status t ≠ POSTED →
  reconstruct_daily_balances
    (Sync.with_transactions s (before ++ t :: after))
  = reconstruct_daily_balances s.
Proof.
  intros Hrows Hstatus.
  assert (posted_transactions (Sync.with_transactions s (before ++ t :: after))
          = posted_transactions s) as Hposted.
  { unfold posted_transactions. cbn [transactions Sync.with_transactions].
    rewrite Hrows, !filter_app, filter_cons. by rewrite decide_False. }
  unfold reconstruct_daily_balances, get_date_range,
    get_transactions_by_account_and_date.
  by rewrite Hposted.
Qed.

Lemma reconstruction_ignores_unposted_witness :
  reconstruct_daily_balances
    (Sync.with_transactions replay_store
       ([posted_on "txn_a" (january_2024 3) (-5000)]
          ++ {| txn_id := "txn_p"; txn_account_id := "acc_1";
                txn_amount := -99900; txn_date := january_2024 9;
                txn_description := "hold"; txn_status := PENDING;
                txn_running_balance := None |}
          :: [posted_on "txn_b" (january_2024 5) 20000]))
  = reconstruct_daily_balances replay_store.
Proof.
  apply (reconstruction_ignores_unposted replay_store).
  - reflexivity.
  - discriminate.
Defined.

End Series.

(** ** The client *)

Section ClientProperties.
Import Client ClientAccounts Sync Scenario.

Lemma first_running_balance_spec l :
  match first_running_balance l with
  | Some b =>
      ∃ before t after,
        l = before ++ t :: after ∧
        (∀ t', t' ∈ before → txn_running_balance t' = None) ∧
        txn_running_balance t = Some b
  | None => ∀ t, t ∈ l → txn_running_balance t = None
  end.
Proof.
  induction l as [|t l IH]; simpl; [by intros t ?%elem_of_nil |].
  destruct (txn_running_balance t) as [b|] eqn:Hb.
  - exists [], t, l. split_and!; [done | by intros t' ?%elem_of_nil | done].
  - destruct (first_running_balance l) as [b|].
    + destruct IH as (before & t' & after & -> & Hnone & Hsome).
      exists (t :: before), t', after. split_and!; [done | | done].
      intros t0 [->|?]%elem_of_cons; [done | by apply Hnone].
    + intros t0 [->|?]%elem_of_cons; [done | by apply IH].
Qed.

(** X16. The balance of an account: [get_account_balance] gives, in USD,
    the running balance of the first transaction of the 20-row page that is
    neither pending nor malformed and carries one, that transaction being
    posted, and zero when no such transaction carries one; the running
    balance of a pending row is never taken. *)
Theorem account_balance_from_posted (fuel : nat) (source : Source)
    (account_id : string) (balance : AccountBalance) :
  get_account_balance fuel source account_id = Some (Return balance) →
  bal_currency balance = "USD" ∧
  ∃ data,
    source account_id balance_params = Json data ∧
    ((∃ before t after,
        keep_posted data = before ++ t :: after ∧
        (∀ t', t' ∈ before → txn_running_balance t' = None) ∧
        txn_running_balance t = Some (bal_amount balance) ∧ posted t) ∨
     (bal_amount balance = 0 ∧
      ∀ t, t ∈ keep_posted data → txn_running_balance t = None)).
Proof.
  unfold get_account_balance, get_transactions, balance_params. simpl.
  destruct (source account_id _) as [data|]; [|done]. simpl.
  intros [= <-]. split; [done |]. exists data. split; [done |].
  pose proof (first_running_balance_spec (keep_posted data)) as Hfirst.
  destruct (first_running_balance (keep_posted data)) as [b|]; simpl.
  - left. destruct Hfirst as (before & t & after & Heq & Hnone & Hsome).
    exists before, t, after. split_and!; [done | done | done |].
    pose proof (keep_posted_all_posted data) as Hposted.
    rewrite Heq in Hposted. apply Forall_app in Hposted as [_ Hposted].
    by apply Forall_cons in Hposted as [? _].
  - right. by split.
Qed.

Lemma account_balance_from_posted_witness :
  bal_currency {| bal_currency := "USD"; bal_amount := 420000 |} = "USD" ∧
  ∃ data,
    overlapping_source balance_ledger "acc_1" balance_params = Json data ∧
    ((∃ before t after,
        keep_posted data = before ++ t :: after ∧
        (∀ t', t' ∈ before → txn_running_balance t' = None) ∧
        txn_running_balance t = Some 420000 ∧ posted t) ∨
     (420000 = 0 ∧
      ∀ t, t ∈ keep_posted data → txn_running_balance t = None)).
Proof.
  apply (account_balance_from_posted 0 (overlapping_source balance_ledger)
           "acc_1" {| bal_currency := "USD"; bal_amount := 420000 |}).
  vm_compute. reflexivity.
Defined.

Lemma get_account_balance_total fuel source account_id :
  is_Some (get_account_balance fuel source account_id).
Proof.
  unfold get_account_balance, get_transactions.
  destruct (source account_id _); simpl; eauto.
Qed.

Lemma validate_account_spec d balance account :
  validate_account d balance = Some account →
  ad_id d = Some (acct_id account) ∧ acct_balance account = Some balance.
Proof.
  unfold validate_account.
  destruct (ad_id d) as [i|]; [|done]. destruct (ad_name d); [|done].
  destruct (ad_type d ≫= parse_account_type); [|done].
  destruct (ad_status d ≫= parse_account_status); [|done].
  destruct (ad_institution d); [|done]. simpl.
  destruct (ad_other_keys d); [|done]. by intros [= <-].
Qed.

Lemma account_of_spec fuel source d :
  ∃ a, account_of fuel source d = Some a ∧
       ∀ account, a = Some account →
         ad_id d = Some (acct_id account) ∧ is_Some (acct_balance account).
Proof.
  unfold account_of. destruct (ad_id d) as [i|] eqn:Hid.
  - destruct (get_account_balance_total fuel source i) as [[b|] ->]; simpl.
    + eexists. split; [reflexivity |].
      intros account Hv. rewrite <-Hid.
      apply validate_account_spec in Hv as [? ->]. eauto.
    + exists None. by split.
  - exists None. by split.
Qed.

Lemma accounts_of_spec fuel source data :
  ∃ l, accounts_of fuel source data = Some l ∧
       Forall (fun a => is_Some (acct_balance a)) l ∧
       acct_id <$> l `sublist_of` omap ad_id data.
Proof.
  induction data as [|d data IH]; simpl.
  - exists []. by split_and!.
  - destruct (account_of_spec fuel source d) as (a & -> & Ha).
    destruct IH as (l & -> & Hbal & Hsub). simpl.
    eexists. split; [reflexivity |].
    destruct a as [account|].
    + destruct (Ha account eq_refl) as [Hid Hsome]. rewrite Hid.
      split; [by constructor |]. rewrite fmap_cons. by constructor.
    + split; [done |]. destruct (ad_id d); [by constructor | done].
Qed.

(** X17. The accounts the client returns: when the request itself
    succeeds, [get_accounts] returns a list (the rows without an id, with a
    failed balance request or failing validation are left out); every
    account of the list carries a balance, and the ids of the list follow
    the order of the response. *)
Theorem get_accounts_with_balances (fuel : nat) (source : Source)
    (data : list AccountData) :
  ∃ accounts,
    get_accounts fuel source (AccountsJson data) = Some (Return accounts) ∧
    Forall (fun a => is_Some (acct_balance a)) accounts ∧
    acct_id <$> accounts `sublist_of` omap ad_id data.
Proof.
  unfold get_accounts.
  destruct (accounts_of_spec fuel source data) as (l & -> & ? & ?).
  by exists l.
Qed.

(** The rows without an id and with an unknown type are skipped; the
    balance of the one that is kept comes from the posted rows. *)
Example get_accounts_skips :
  get_accounts 0 (overlapping_source balance_ledger)
    (AccountsJson [nameless_data; checking_data; brokerage_data])
  = Some (Return [checking 420000]).
Proof. vm_compute. reflexivity. Qed.

(** X18. No account without a balance: after a completed run on accounts
    that [get_accounts] returned, the row of each of these accounts has a
    balance that is not [NULL]. *)
Theorem synced_accounts_have_balance (fuel : nat) (now : Z) (source : Source)
    (response : AccountsResponse) (client_accounts : list Account)
    (force_full : bool) (s s' : Store) (stats : Stats) (account : Account) :
  get_accounts fuel source response = Some (Return client_accounts) →
  NoDup (acct_id <$> client_accounts) →
  account ∈ client_accounts →
  sync_teller_data fuel now source (Return client_accounts) force_full s
    = Some (s', Return stats) →
  ∃ row, account_row s' (acct_id account) = Some row ∧
         is_Some (row_balance_amount row).
Proof.
  intros Hget Hnd Hin Hrun.
  destruct (sync_refreshes_rows _ _ _ _ _ _ _ _ _ Hnd Hin Hrun)
    as (row & Hrow & (_ & _ & Hbal) & _).
  exists row. split; [done |]. rewrite Hbal.
  destruct response as [data|]; [|done].
  destruct (accounts_of_spec fuel source data) as (l & Hl & Hall & _).
  unfold get_accounts in Hget. rewrite Hl in Hget. injection Hget as <-.
  eapply Forall_forall in Hall as [b ->]; [|done]. by eexists.
Qed.

Lemma synced_accounts_have_balance_witness :
  ∃ row, account_row
           (store_after
              (sync_teller_data 5 1000 (overlapping_source balance_ledger)
                 (Return [checking 420000]) false empty_store))
           "acc_1" = Some row ∧
         is_Some (row_balance_amount row).
Proof.
  apply (synced_accounts_have_balance 5 1000 (overlapping_source balance_ledger)
           (AccountsJson [nameless_data; checking_data; brokerage_data])
           [checking 420000] false empty_store _
           {| accounts_synced := 1; total_transactions := 2;
              new_transactions := 2; updated_transactions := 0 |}
           (checking 420000)).
  - vm_compute. reflexivity.
  - apply NoDup_singleton.
  - by left.
  - vm_compute. reflexivity.
Defined.

(** X19. Nothing is invented: every transaction that
    [get_all_transactions] returns is the validated form of a row, not
    pending, of a page that the source served for the account. *)
Theorem fetched_transactions_served (fuel : nat) (source : Source)
    (account_id : string) (result : list Transaction) (t : Transaction) :
  get_all_transactions fuel source account_id = Some result →
  t ∈ result → served source account_id t.
Proof.
  intros Hfetch Ht. revert t Ht.
  apply (fetch_loop_invariant
           (fun all => ∀ t, t ∈ all → served source account_id t)
           source account_id) with (fuel := fuel) (all_transactions := []);
    [|by intros t ?%elem_of_nil|done].
  intros all data Hall Hsrc t [?|Hpage]%elem_of_app; [by apply Hall |].
  rewrite page_transactions_filter in Hpage.
  apply list_elem_of_filter in Hpage as [_ Hkept].
  apply keep_posted_elem in Hkept as (d & Hd & Hp & Hv).
  by exists (next_params all), data, d.
Qed.

Lemma fetched_transactions_served_witness :
  served (overlapping_source first_ledger) "acc_1"
    {| txn_id := "txn_2"; txn_account_id := "acc_1"; txn_amount := -100;
       txn_date := january_2024 29; txn_description := "card payment";
       txn_status := POSTED; txn_running_balance := None |}.
Proof.
  apply (fetched_transactions_served 5 (overlapping_source first_ledger)
           "acc_1" (keep_posted first_ledger)).
  - vm_compute. reflexivity.
  - vm_compute. right. by left.
Defined.

Lemma page_transactions_first data :
  page_transactions [] data = keep_posted data.
Proof.
  induction data as [|d data IH]; simpl; [done |].
  destruct (is_pending d); [done |]. destruct (validate d); [|done].
  by rewrite IH.
Qed.

(** X20. The first page: every row of the first page that is neither
    pending nor malformed is returned, in the order of the page, at the
    head of the result; the overlap check drops nothing from it, not even a
    row whose id occurs twice in the page. *)
Theorem first_page_kept (fuel : nat) (source : Source) (account_id : string)
    (data : list TransactionData) (result : list Transaction) :
  source account_id (next_params []) = Json data →
  get_all_transactions fuel source account_id = Some result →
  keep_posted data `prefix_of` result.
Proof.
  intros Hsrc. unfold get_all_transactions.
  destruct fuel as [|fuel]; [done |].
  rewrite fetch_loop_unfold, Hsrc, page_transactions_first.
  case_decide as Hdata; [intros [= <-]; by subst data |].
  case_decide as Hpage; [intros [= <-]; by rewrite Hpage |].
  destruct (length data <? page_size)%nat; [by intros [= <-] |].
  simpl. intros Hloop.
  apply (fetch_loop_invariant (fun all => keep_posted data `prefix_of` all)
           source account_id) in Hloop; [done | | done].
  intros all data' Hprefix _. by apply prefix_app_r.
Qed.

Lemma first_page_kept_witness :
  keep_posted [row "posted" 7; row "pending" 8; row "posted" 7]
    `prefix_of` [posted_on "txn_7" (january_2024 24) (-100);
                 posted_on "txn_7" (january_2024 24) (-100)].
Proof.
  apply (first_page_kept 5
           (overlapping_source [row "posted" 7; row "pending" 8; row "posted" 7])
           "acc_1").
  - vm_compute. reflexivity.
  - vm_compute. reflexivity.
Defined.

End ClientProperties.

(** ** The connection status *)

Section Connection.
Import Http.

Lemma status_of_exception_disconnected e :
  status_of_exception e = disconnected ↔
  ∃ message, e = TellerError "disconnected" message.
Proof.
  destruct e as [code message| |]; simpl.
  - destruct (String.eqb_spec code "disconnected") as [->|Hne].
    + split; [eauto | done].
    + split; [done |]. intros (m & [= ? ?]). done.
  - split; [done | by intros (? & ?)].
  - split; [done | by intros (? & ?)].
Qed.

(** X21. The connection status: [get_connection_status] answers
    [disconnected] in three cases only: the accounts request raises the
    error with code ["disconnected"], it gives something that is not a
    non-empty list, or the request for the first account raises that error.
    Every other failure (no transport, an HTTP error status, an error with
    another code, an account without id) is answered [connected]. *)
Theorem connection_status_disconnected (transport : Transport) :
  get_connection_status transport = disconnected ↔
  says_disconnected (request transport "/accounts") ∨
  (∃ data, request transport "/accounts" = Ok data ∧
           ∀ first rest, data ≠ JsonList (first :: rest)) ∨
  (∃ i rest, request transport "/accounts" = Ok (JsonList (Some i :: rest)) ∧
             says_disconnected (request transport ("/accounts/" +:+ i))).
Proof.
  unfold get_connection_status, says_disconnected.
  destruct (request transport "/accounts") as [data|e] eqn:Hfirst.
  - destruct data as [[|[i|] rest]|error|].
    + split; [|done]. intros _. right. left. by eexists.
    + destruct (request transport ("/accounts/" +:+ i)) as [d|e] eqn:Hsecond.
      * split; [done |].
        intros [(? & ?)|[(d' & [= <-] & Hne)|(i' & rest' & [= <- <-] & Hd)]];
          [done | by destruct (Hne (Some i) rest) |].
        rewrite Hsecond in Hd. by destruct Hd.
      * rewrite status_of_exception_disconnected. split.
        -- intros (m & ->). right. right. exists i, rest.
           rewrite Hsecond. eauto.
        -- intros [(? & ?)|[(d' & [= <-] & Hne)|(i' & rest' & [= <- <-] & Hd)]];
             [done | by destruct (Hne (Some i) rest) |].
           rewrite Hsecond in Hd. destruct Hd as (m & [= ->]). eauto.
    + split; [done |].
      intros [(? & ?)|[(d' & [= <-] & Hne)|(i' & rest' & [= ] & _)]];
        [done |]. by destruct (Hne None rest).
    + split; [|done]. intros _. right. left. by eexists.
    + split; [|done]. intros _. right. left. by eexists.
  - rewrite status_of_exception_disconnected. split.
    + intros (m & ->). left. eauto.
    + intros [(m & [= ->])|[(? & ? & _)|(? & ? & ? & _)]]; [eauto | done | done].
Qed.

Lemma connection_status_disconnected_witness :
  get_connection_status lost_transport = disconnected ∧
  get_connection_status flaky_transport = connected.
Proof.
  split.
  - apply (proj2 (connection_status_disconnected lost_transport)).
    left. exists "gone". reflexivity.
  - reflexivity.
Defined.

End Connection.

(** ** The floats of the run time, on known values *)

Section RunTime.
Import PrimFloat Binary64.

#[local] Set Warnings "-inexact-float".

(** [float(Decimal('0.01'))] and the like: the conversion agrees with the
    float literals, which denote the nearest float. *)
Example float_of_decimal_values :
  float_of_decimal 1 = 0.01%float ∧
  float_of_decimal 10 = 0.1%float ∧
  float_of_decimal (-5000) = (-50)%float ∧
  float_of_decimal 999999999999999 = 9999999999999.99%float.
Proof. vm_compute. done. Qed.

(** [round(2.675, 2)] is [2.67], the float of [2.675] lying below the
    decimal; a float that lies half way goes to the even digit; a zero
    keeps its sign. *)
Example round_values :
  round 2.675%float 2 = 2.67%float ∧
  round 0.125%float 2 = 0.12%float ∧
  round 0.375%float 2 = 0.38%float ∧
  round (-0.001)%float 2 = PrimFloat.neg_zero ∧
  round 9999999999999.746%float 2 = 9999999999999.75%float ∧
  round 1e16%float 2 = 1e16%float.
Proof. vm_compute. done. Qed.

(** [sum([0.1] * 10)] is [0.9999999999999999] up to CPython 3.11 and [1.0]
    from 3.12; 25 times [0.01] round to [0.25] under both. *)
Example sum_values :
  sum_left (replicate 10 0.1%float) = 0.9999999999999999%float ∧
  sum_compensated (replicate 10 0.1%float) = 1%float ∧
  sum_left (replicate 25 0.01%float) = 0.25000000000000006%float ∧
  sum_compensated (replicate 25 0.01%float) = 0.25%float.
Proof. vm_compute. done. Qed.

(** 25 subtractions of [0.01] from [9999999999999.99]: each result is
    rounded to a multiple of 2^-10, and the last one is nearer to
    [9999999999999.75] than to [9999999999999.74]. *)
Example subtractions_drift :
  foldl PrimFloat.sub 9999999999999.99%float (replicate 25 0.01%float)
  = 9999999999999.746%float.
Proof. vm_compute. done. Qed.

End RunTime.

(** ** The replay on floats *)

Section FloatReplay.
Import Client Binary64 BalanceHistoryFloat FloatSeries Scenario LargeLedger.

Implicit Types (tba : gmap string (gmap Z (list Entry))).
Implicit Types (m : gmap string float).
Implicit Types (sum : list float → float).

(** *** The grouped dictionary *)

Lemma float_transactions_on_add_row tba row a d :
  transactions_on (add_row tba row) a d =
  transactions_on tba a d ++
  (if decide (txn_account_id row = a ∧ txn_date row = d)
   then [entry_of row] else []).
Proof.
  unfold add_row, transactions_on.
  destruct (decide (txn_account_id row = a)) as [->|Ha].
  - rewrite lookup_insert_eq.
    destruct (decide (txn_date row = d)) as [->|Hd].
    + rewrite lookup_insert_eq, decide_True by done. simpl.
      destruct (tba !! _) as [by_date|]; simpl; by rewrite ?lookup_empty.
    + rewrite lookup_insert_ne, decide_False by tauto.
      rewrite app_nil_r.
      destruct (tba !! _) as [by_date|]; simpl; by rewrite ?lookup_empty.
  - rewrite lookup_insert_ne by done. rewrite decide_False by tauto.
    by rewrite app_nil_r.
Qed.

Lemma float_transactions_on_fold rows tba a d :
  transactions_on (foldl add_row tba rows) a d =
  transactions_on tba a d ++
  (entry_of <$> filter (fun t => txn_account_id t = a ∧ txn_date t = d) rows).
Proof.
  revert tba. induction rows as [|row rows IH]; intros tba; simpl.
  - by rewrite app_nil_r.
  - rewrite IH, float_transactions_on_add_row, filter_cons.
    case_decide; simpl; [by rewrite <-app_assoc | by rewrite app_nil_r].
Qed.

Lemma float_transactions_on_store s a d :
  transactions_on (get_transactions_by_account_and_date s) a d =
  entry_of <$> filter (fun t => txn_account_id t = a ∧ txn_date t = d)
                      (BalanceHistory.posted_transactions s).
Proof.
  unfold get_transactions_by_account_and_date.
  rewrite float_transactions_on_fold. unfold transactions_on.
  by rewrite lookup_empty.
Qed.

(** What the replay subtracts on a day are the amounts of the day's posted
    rows. *)
Lemma subtracted_store s a d :
  subtracted (get_transactions_by_account_and_date s) a d = amounts_on s a d.
Proof.
  unfold subtracted, amounts_on.
  rewrite float_transactions_on_store, <-list_fmap_compose. done.
Qed.

(** *** One day *)

Lemma float_subtract_fold a (l : list Entry) m :
  let m' := foldl (fun balances transaction =>
                     <[a := PrimFloat.sub
                              (default PrimFloat.zero (balances !! a))
                              (amount transaction)]>
                       balances) m l in
  balance_of m' a = foldl PrimFloat.sub (balance_of m a) (amount <$> l) ∧
  (∀ k, k ≠ a → m' !! k = m !! k).
Proof.
  revert m. induction l as [|t l IH]; intros m; [done |].
  rewrite fmap_cons. cbn [foldl].
  destruct (IH (<[a := PrimFloat.sub (default PrimFloat.zero (m !! a))
                         (amount t)]> m)) as (Hb & Hk).
  split.
  - rewrite Hb. unfold balance_of. by rewrite lookup_insert_eq.
  - intros k Hne. rewrite Hk by done. by rewrite lookup_insert_ne.
Qed.

Lemma subtracted_after_same tba a d : subtracted_after tba a d d = [].
Proof. unfold subtracted_after. by rewrite Z.sub_diag. Qed.

Lemma float_visit_account_spec sum tba d m out item :
  ∃ m',
    visit_account sum tba d (m, out) item =
      (m', out ++ [record_at sum tba m d d item]) ∧
    balance_of m' item.1 =
      foldl PrimFloat.sub (balance_of m item.1) (subtracted tba item.1 d) ∧
    (∀ k, k ≠ item.1 → m' !! k = m !! k).
Proof.
  destruct item as [a info]. unfold visit_account.
  destruct (float_subtract_fold a (transactions_on tba a d) m) as (Hb & Hk).
  eexists. split_and!; [|exact Hb|exact Hk].
  unfold record_at. by rewrite subtracted_after_same.
Qed.

Lemma float_record_at_ext sum tba m1 m2 latest1 latest2 d item :
  foldl PrimFloat.sub (balance_of m1 item.1) (subtracted_after tba item.1 d latest1) =
  foldl PrimFloat.sub (balance_of m2 item.1) (subtracted_after tba item.1 d latest2) →
  record_at sum tba m1 latest1 d item = record_at sum tba m2 latest2 d item.
Proof. unfold record_at. by intros ->. Qed.

Lemma float_visit_day_spec sum tba d accounts m out :
  NoDup (accounts.*1) →
  ∃ m',
    visit_day sum accounts tba d (m, out) =
      (m', out ++ (record_at sum tba m d d <$> accounts)) ∧
    (∀ k, k ∈ accounts.*1 →
       balance_of m' k = foldl PrimFloat.sub (balance_of m k) (subtracted tba k d)) ∧
    (∀ k, k ∉ accounts.*1 → m' !! k = m !! k).
Proof.
  unfold visit_day. revert m out.
  induction accounts as [|item accounts IH]; intros m out Hnd; cbn [foldl].
  - exists m. simpl. rewrite app_nil_r. split_and!; [done | | done].
    by intros k ?%elem_of_nil.
  - apply NoDup_cons in Hnd as [Hfresh Hnd].
    destruct (float_visit_account_spec sum tba d m out item)
      as (m1 & -> & Hb1 & Hk1).
    destruct (IH m1 (out ++ [record_at sum tba m d d item]) Hnd)
      as (m' & -> & Hb & Hk).
    exists m'. split_and!.
    + rewrite <-app_assoc, fmap_cons. simpl. do 3 f_equal.
      apply list_fmap_ext. intros i x Hx%list_elem_of_lookup_2.
      apply float_record_at_ext. f_equal. unfold balance_of.
      rewrite Hk1; [done |]. intros Heq. apply Hfresh. rewrite <-Heq.
      by apply list_elem_of_fmap_2.
    + intros k [->|Hin]%elem_of_cons.
      * unfold balance_of at 1. rewrite Hk by done. apply Hb1.
      * rewrite Hb by done. unfold balance_of.
        rewrite Hk1; [done |]. by intros ->.
    + intros k Hk'. apply not_elem_of_cons in Hk' as [Hne Hnotin].
      rewrite Hk by done. by apply Hk1.
Qed.

(** *** The walk down the days *)

Lemma float_replay_go sum accounts tba earliest c st :
  earliest ≤ c →
  replay sum accounts tba earliest c st =
  replay sum accounts tba earliest (c - 1) (visit_day sum accounts tba c st).
Proof.
  intros Hle. rewrite replay_equation_1.
  destruct (decide (earliest ≤ c)); [|done].
  by rewrite replay_clause_1_equation_1.
Qed.

Lemma float_replay_stop sum accounts tba earliest c st :
  c < earliest → replay sum accounts tba earliest c st = st.
Proof.
  intros Hlt. rewrite replay_equation_1.
  destruct (decide (earliest ≤ c)); [lia | done].
Qed.


Lemma subtracted_after_top tba a d c :
  d < c →
  subtracted_after tba a d c =
  subtracted tba a c ++ subtracted_after tba a d (c - 1).
Proof.
  intros Hlt. unfold subtracted_after.
  replace (Z.to_nat (c - d)) with (S (Z.to_nat (c - 1 - d))) by lia.
  done.
Qed.


Lemma float_replay_spec sum accounts tba earliest n c m out :
  NoDup (accounts.*1) →
  Z.of_nat n = Z.max 0 (c - earliest + 1) →
  (replay sum accounts tba earliest c (m, out)).2 =
  out ++ (days_down n c ≫= fun d => record_at sum tba m c d <$> accounts).
Proof.
  intros Hnd. revert c m out.
  induction n as [|n IH]; intros c m out Hn.
  - rewrite float_replay_stop by lia. simpl. by rewrite app_nil_r.
  - rewrite float_replay_go by lia.
    destruct (float_visit_day_spec sum tba c accounts m out Hnd)
      as (m1 & -> & Hb & _).
    rewrite (IH (c - 1) m1) by lia. rewrite <-app_assoc. simpl. do 2 f_equal.
    apply bind_ext_elem. intros d Hd%elem_of_days_down.
    apply list_fmap_ext. intros i x Hx%list_elem_of_lookup_2.
    apply float_record_at_ext.
    rewrite (subtracted_after_top tba x.1 d c) by lia.
    rewrite foldl_app, Hb; [done |]. by apply list_elem_of_fmap_2.
Qed.

(** *** The accounts dictionary *)

Lemma float_accounts_dictionary s :
  NoDup ((get_accounts_with_current_balance s).*1) ∧
  (∀ a info, (a, info) ∈ get_accounts_with_current_balance s →
     ∃ row i, (row, i) ∈ BalanceHistory.open_accounts s ∧ row_id row = a ∧
              current_balance info = balance_or_zero (row_balance_amount row)).
Proof.
  unfold get_accounts_with_current_balance.
  induction (BalanceHistory.open_accounts s) as [|[row i] rows IH] using rev_ind.
  - split; [constructor | by intros ? ? ?%elem_of_nil].
  - rewrite foldl_app. cbn [foldl]. destruct IH as (Hnd & Hfrom).
    split.
    + by apply dict_set_NoDup.
    + intros a info [[-> ->]|[_ Hin]]%dict_set_elem; [| |done].
      * exists row, i. split_and!; [|done|done].
        apply elem_of_app. right. by left.
      * destruct (Hfrom a info Hin) as (row' & i' & ? & ? & ?).
        exists row', i'. split_and!; [|done|done].
        apply elem_of_app. by left.
Qed.

Lemma float_initial_balances_spec (accounts : list (string * AccountInfo)) a info :
  NoDup (accounts.*1) → (a, info) ∈ accounts →
  initial_balances accounts !! a = Some (current_balance info).
Proof.
  unfold initial_balances.
  induction accounts as [|[a' info'] accounts IH] using rev_ind;
    [by intros _ ?%elem_of_nil |].
  rewrite fmap_app, foldl_app. cbn [foldl fmap list_fmap].
  intros (Hnd & Hfresh & _)%NoDup_app [Hin| [= -> ->]%list_elem_of_singleton]%elem_of_app.
  - rewrite lookup_insert_ne; [by apply IH |].
    intros <-. eapply Hfresh; [|by left].
    by apply (list_elem_of_fmap_2 fst) in Hin.
  - by rewrite lookup_insert_eq.
Qed.

(** The entry of an open account of a table with distinct ids carries the
    float of the balance of the account's row, [0.0] for [NULL]. *)
Lemma float_dictionary_balance s row item :
  NoDup (row_id <$> accounts s) → row ∈ accounts s →
  item ∈ get_accounts_with_current_balance s → item.1 = row_id row →
  balance_of (initial_balances (get_accounts_with_current_balance s)) item.1 =
  balance_or_zero (row_balance_amount row).
Proof.
  intros Hnd Hrow Hitem Hid. destruct item as [a info]. simpl in *.
  destruct (float_accounts_dictionary s) as (Hkeys & Hfrom).
  unfold balance_of. rewrite (float_initial_balances_spec _ a info) by done.
  destruct (Hfrom a info Hitem) as (row' & i' & Hopen & Hid' & ->).
  apply elem_of_open_accounts in Hopen as (Hrow' & _).
  rewrite (NoDup_fmap_eq row_id (accounts s) row' row); [done | done .. | congruence].
Qed.

(** *** The series *)

Lemma float_reconstruct_spec sum s earliest latest :
  BalanceHistory.get_date_range s = (Some earliest, Some latest) →
  reconstruct_daily_balances sum s = Return (series sum s earliest latest).
Proof.
  intros Hrange. unfold reconstruct_daily_balances. rewrite Hrange.
  f_equal. fold (initial_balances (get_accounts_with_current_balance s)).
  rewrite (float_replay_spec _ _ _ _ (Z.to_nat (latest - earliest + 1)));
    [done | | lia].
  apply float_accounts_dictionary.
Qed.

Lemma float_reconstruct_raises sum s :
  BalanceHistory.posted_transactions s = [] →
  reconstruct_daily_balances sum s = Raise.
Proof.
  intros Hnone.
  unfold reconstruct_daily_balances, BalanceHistory.get_date_range.
  by rewrite Hnone.
Qed.

Lemma float_elem_of_series sum s earliest latest r :
  r ∈ series sum s earliest latest ↔
  ∃ d item,
    earliest ≤ d ≤ latest ∧ item ∈ get_accounts_with_current_balance s ∧
    r = record_at sum (get_transactions_by_account_and_date s)
          (initial_balances (get_accounts_with_current_balance s)) latest d item.
Proof.
  unfold series. rewrite list_elem_of_bind. split.
  - intros (d & (item & -> & Hitem)%list_elem_of_fmap & Hd%elem_of_days_down).
    exists d, item. split; [lia | done].
  - intros (d & item & Hd & Hitem & ->). exists d. split.
    + by apply list_elem_of_fmap_2.
    + apply elem_of_days_down. lia.
Qed.

Lemma float_reconstruct_returns sum s out :
  reconstruct_daily_balances sum s = Return out →
  ∃ earliest latest,
    BalanceHistory.get_date_range s = (Some earliest, Some latest) ∧
    out = series sum s earliest latest.
Proof.
  destruct (date_range_cases s) as [[Hnone _]|(e & l & Hrange & _)].
  - by rewrite float_reconstruct_raises.
  - rewrite (float_reconstruct_spec sum s e l Hrange). intros [= <-]. eauto.
Qed.

Lemma subtracted_after_store s earliest latest a d :
  BalanceHistory.get_date_range s = (Some earliest, Some latest) →
  subtracted_after (get_transactions_by_account_and_date s) a d latest =
  amounts_after s a d.
Proof.
  intros Hrange. unfold subtracted_after, amounts_after. rewrite Hrange. simpl.
  apply bind_ext_elem. intros d' _. apply subtracted_store.
Qed.

(** The balance of a record of the series is the rounded running balance
    of its account on its day. *)
Lemma series_balance sum s earliest latest d item :
  BalanceHistory.get_date_range s = (Some earliest, Some latest) →
  end_of_day_balance
    (record_at sum (get_transactions_by_account_and_date s)
       (initial_balances (get_accounts_with_current_balance s)) latest d item) =
  round (running_balance s item.1 d) 2.
Proof.
  intros Hrange. unfold running_balance. simpl.
  by rewrite (subtracted_after_store s earliest latest).
Qed.





(** On the ledger at the top of the column's range the float replay emits
    9999999999999.99 for 2024-01-05 and 9999999999999.75 for 2024-01-04,
    whichever [sum] the interpreter has and in whichever order the rows of a
    day are read. *)
Lemma large_ledger_series :
  let out := [checking_on_floats (january_2024 5) 999999999999999 25 25;
              checking_on_floats (january_2024 4) 999999999999975 1 1] in
  reconstruct_daily_balances sum_left large_store = Return out ∧
  reconstruct_daily_balances sum_compensated large_store = Return out ∧
  reconstruct_daily_balances sum_left large_store_reversed = Return out ∧
  reconstruct_daily_balances sum_compensated large_store_reversed = Return out.
Proof. vm_compute. done. Qed.


(** In exact decimal arithmetic the same ledger gives 9999999999999.74 for
    2024-01-04: the cent that is missing above is lost to the rounding of
    the float subtractions. *)
Example large_ledger_in_decimal :
  BalanceHistory.reconstruct_daily_balances large_store =
  Return [Scenario.checking_on (january_2024 5) 999999999999999 25 25;
          Scenario.checking_on (january_2024 4) 999999999999974 1 1].
Proof. vm_compute. reflexivity. Qed.

(** On the ledger of the reconstruction scenario the float replay emits the
    floats of the decimal values. *)
Example scenario_on_floats :
  reconstruct_daily_balances sum_left replay_store =
  Return [checking_on_floats (january_2024 5) 100000 1 20000;
          checking_on_floats (january_2024 4) 80000 0 0;
          checking_on_floats (january_2024 3) 80000 1 (-5000)].
Proof. vm_compute. reflexivity. Qed.

(** X12. Closed form of the float replay: the balance of a record is,
    rounded to two places, the float of the balance stored in the account's
    row ([0.0] for [NULL] and for zero) less the float amounts of the
    account's posted transactions dated after the record's day, subtracted
    one at a time, latest day first. *)
Theorem balance_closed_form (sum : list float → float) (s : Store)
    (out : list DailyBalance) (r : DailyBalance) (row : AccountRow) :
  NoDup (row_id <$> accounts s) →
  reconstruct_daily_balances sum s = Return out →
  r ∈ out → row ∈ accounts s → row_id row = account_id r →
  end_of_day_balance r =
  round (foldl PrimFloat.sub (balance_or_zero (row_balance_amount row))
           (amounts_after s (account_id r) (date r))) 2.
Proof.
  intros Hnd (e & l & Hrange & ->)%float_reconstruct_returns.
  intros (d & item & Hd & Hitem & ->)%float_elem_of_series Hrow Hid.
  rewrite (series_balance sum s e l) by done.
  change (account_id (record_at _ _ _ _ _ item)) with item.1 in *.
  change (date (record_at _ _ _ _ d item)) with d.
  unfold running_balance.
  by rewrite (float_dictionary_balance s row item).
Qed.

Lemma balance_closed_form_witness :
  end_of_day_balance (checking_on_floats (january_2024 4) 999999999999975 1 1) =
  round (foldl PrimFloat.sub
           (balance_or_zero (row_balance_amount
                               (checking_row (Some 999999999999999) None)))
           (amounts_after large_store "acc_1" (january_2024 4))) 2.
Proof.
  apply (balance_closed_form sum_left large_store
           [checking_on_floats (january_2024 5) 999999999999999 25 25;
            checking_on_floats (january_2024 4) 999999999999975 1 1]
           (checking_on_floats (january_2024 4) 999999999999975 1 1)
           (checking_row (Some 999999999999999) None)).
  - apply (bool_decide_unpack _). vm_compute. exact I.
  - vm_compute. reflexivity.
  - right. by left.
  - by left.
  - reflexivity.
Defined.

(** The anchor on floats: a record of the latest day carries the float of
    the balance stored in its account's row, rounded to two places. *)
Lemma float_balance_anchor sum s out r row latest :
  NoDup (row_id <$> accounts s) →
  reconstruct_daily_balances sum s = Return out →
  (BalanceHistory.get_date_range s).2 = Some latest →
  r ∈ out → row ∈ accounts s → row_id row = account_id r → date r = latest →
  end_of_day_balance r = round (balance_or_zero (row_balance_amount row)) 2.
Proof.
  intros Hnd (e & l & Hrange & ->)%float_reconstruct_returns Hlatest.
  intros (d & item & Hd & Hitem & ->)%float_elem_of_series Hrow Hid Hdate.
  rewrite Hrange in Hlatest. injection Hlatest as <-.
  change (d = l) in Hdate. subst d.
  change (row_id row = item.1) in Hid.
  rewrite (series_balance sum s e l) by done.
  unfold running_balance, amounts_after. rewrite Hrange. simpl.
  rewrite Z.sub_diag. simpl.
  by rewrite (float_dictionary_balance s row item).
Qed.

End FloatReplay.
